(** * Ising: a shallow embedding of [Ising.c] and its specification

    The C program simulates a two-dimensional Ising lattice with periodic
    neighbours.  The embedding below follows the source function by
    function:

    - [size_t], [spin_t] ([int8_t]) and [energy_t] ([int64_t]) are integers
      of [Z] with their wrap-around written out;
    - [weight_t] ([double]) is the kernel's binary64 type [float];
    - the heap buffer behind [Lattice.data] is a list, read and written by
      index; an access outside the buffer, or a division by zero, is
      undefined behaviour in C and is [None] here;
    - the C loops are [for_loop]s in the option monad;
    - the state of [rand()] is the number of calls made so far, and the
      sequence of values the seeded generator returns is a parameter;
    - [exp] (from libm) and [RAND_MAX] (from stdlib.h) are not part of the
      repository and are parameters of the sampler section;
    - [evolveIntoThermalState] has an unbounded loop and takes fuel;
    - [stdout] is the list of characters written so far, and [main]
      returns it with the exit status. *)

From Stdlib Require Import ZArith Lia Bool Ascii String DecimalString.
From Stdlib Require Import Floats.
From stdpp Require Import base tactics option list.

Local Open Scope Z_scope.

(** ** Machine integers *)

Definition SIZE_MODULUS : Z := 2 ^ 64.
Definition PTRDIFF_MAX : Z := 2 ^ 63 - 1.
Definition INT64_MAX : Z := 2 ^ 63 - 1.

(** Arithmetic on [size_t] is modulo [2^64]; converting a (possibly
    negative) integer to [size_t] is the same reduction. *)
Definition to_size_t (z : Z) : Z := z mod SIZE_MODULUS.

(** Conversion to [int8_t] and to [int64_t] (two's complement). *)
Definition to_spin_t (z : Z) : Z := (z + 128) mod 256 - 128.
Definition to_energy_t (z : Z) : Z := (z + 2 ^ 63) mod 2 ^ 64 - 2 ^ 63.

Definition SPIN_UP : Z := 1.
Definition SPIN_DOWN : Z := -1.

Definition is_spin_t (s : Z) : Prop := -128 <= s <= 127.
Definition is_size_t (z : Z) : Prop := 0 <= z < SIZE_MODULUS.

(** ** The error monad of undefined behaviour *)

Notation "x <- e ;; k" := (match e with Some x => k | None => None end)
  (at level 100, e at next level, right associativity, only parsing).

(** [for (i = start; n iterations; ++i) s = body i s]. *)
Fixpoint for_loop {S : Type} (n : nat) (i : Z)
    (body : Z -> S -> option S) (s : S) : option S :=
  match n with
  | O => Some s
  | Datatypes.S n' => s' <- body i s ;; for_loop n' (i + 1) body s'
  end.

(** ** Lattice storage *)

Record Lattice : Type := mkLattice {
  width : Z;
  height : Z;
  data : list Z
}.

(** The number of cells. *)
Definition cell_count (l : Lattice) : nat := Z.to_nat (width l * height l).

(** [calloc(width * height, sizeof(spin_t))]: a zeroed buffer. *)
Definition allocateLattice (w h : Z) : Lattice :=
  mkLattice w h (replicate (Z.to_nat (to_size_t (w * h))) 0).

Definition getIndex (l : Lattice) (x y : Z) : option Z :=
  if (width l =? 0) || (height l =? 0) then None
  else
    let x' := to_size_t (x + width l) mod width l in
    let y' := to_size_t (y + height l) mod height l in
    Some (to_size_t (x' * height l + y')).

Definition get (l : Lattice) (x y : Z) : option Z :=
  i <- getIndex l x y ;; data l !! Z.to_nat i.

Definition set (l : Lattice) (x y : Z) (value : Z) : option Lattice :=
  i <- getIndex l x y ;;
  if i <? Z.of_nat (length (data l))
  then Some (mkLattice (width l) (height l)
               (<[Z.to_nat i := to_spin_t value]> (data l)))
  else None.

Definition fillGroundState (l : Lattice) (spin : Z) : option Lattice :=
  for_loop (Z.to_nat (width l)) 0 (fun x st =>
    for_loop (Z.to_nat (height l)) 0 (fun y st => set st x y spin) st) l.

Definition flip (l : Lattice) (x y : Z) : option Lattice :=
  s <- get l x y ;; set l x y (- s).

(** ** Energy functional *)

Definition calcEnergy (l : Lattice) : option Z :=
  for_loop (Z.to_nat (width l)) 0 (fun x energy =>
    for_loop (Z.to_nat (height l)) 0 (fun y energy =>
      c <- get l x y ;;
      r <- get l (to_size_t (x + 1)) y ;;
      let energy := to_energy_t (energy + c * r) in
      c <- get l x y ;;
      r <- get l (to_size_t (x - 1)) y ;;
      let energy := to_energy_t (energy + c * r) in
      c <- get l x y ;;
      r <- get l x (to_size_t (y + 1)) ;;
      let energy := to_energy_t (energy + c * r) in
      c <- get l x y ;;
      r <- get l x (to_size_t (y - 1)) ;;
      Some (to_energy_t (energy + c * r))) energy) 0.

(** A lattice the program can hold: positive dimensions, a buffer of
    [width * height] cells of type [int8_t], no larger than the largest C
    object. *)
Record wf_lattice (l : Lattice) : Prop := {
  wf_width : 0 < width l;
  wf_height : 0 < height l;
  wf_size : width l * height l <= PTRDIFF_MAX;
  wf_length : Z.of_nat (length (data l)) = width l * height l;
  wf_cells : Forall is_spin_t (data l)
}.

(** ** Weights: binary64 *)

Abbreviation weight_t := float (only parsing).

(** Conversion of an integer to [double], rounding to nearest even. *)
Definition double_of_Z (z : Z) : weight_t :=
  SF2Prim (binary_normalize prec emax z 0 false).

(** The last stage of [binary_round_aux]: renormalizing the rounded
    mantissa. *)
Definition round_finish (m e : Z) : spec_float :=
  let '(mrs, e') := shr_fexp prec emax m e loc_Exact in
  match shr_m mrs with
  | Z0 => S754_zero false
  | Zpos m => if e' <=? emax - prec then S754_finite false m e'
              else S754_infinity false
  | Zneg _ => S754_nan
  end.

(** The binary64 number 1. *)
Definition SF_one : spec_float := S754_finite false (2 ^ 52) (-52).

(** A buffer of [double]s on the heap. *)
Definition load (buffer : list weight_t) (i : Z) : option weight_t :=
  buffer !! Z.to_nat i.

Definition store (buffer : list weight_t) (i : Z) (v : weight_t)
    : option (list weight_t) :=
  if i <? Z.of_nat (length buffer)
  then Some (<[Z.to_nat i := v]> buffer) else None.

(** A loop body either falls through to the next iteration or leaves the
    enclosing function ([return]) or loop ([break]). *)
Inductive outcome (S R : Type) : Type :=
  | Next (s : S)
  | Return (r : R).
Arguments Next {S R} s.
Arguments Return {S R} r.

Fixpoint for_loop_ret {S R : Type} (n : nat) (i : Z)
    (body : Z -> S -> option (outcome S R)) (s : S)
    : option (outcome S R) :=
  match n with
  | O => Some (Next s)
  | Datatypes.S n' =>
      o <- body i s ;;
      match o with
      | Next s' => for_loop_ret n' (i + 1) body s'
      | Return r => Some (Return r)
      end
  end.

Section Sampler.

(** [exp] of libm and [RAND_MAX] of stdlib.h; [rand_seq n] is the value
    the [n]-th call of [rand()] returns once the generator is seeded. *)
Variable c_exp : weight_t -> weight_t.
Variable RAND_MAX : Z.
Variable rand_seq : nat -> Z.

(** The generator's state is the number of calls made so far. *)
Definition rand (calls : nat) : Z * nat := (rand_seq calls, Datatypes.S calls).

Definition uniformRandom (calls : nat) : weight_t * nat :=
  let '(k, calls) := rand calls in
  ((double_of_Z k / double_of_Z RAND_MAX)%float, calls).

Definition calcWeight (l : Lattice) (beta : weight_t) : option weight_t :=
  energy <- calcEnergy l ;;
  Some (c_exp (- beta * double_of_Z energy)%float).

Definition tryFlipOneSpin (l : Lattice) (beta : weight_t)
    (buffer : list weight_t) (calls : nat)
    : option (Lattice * list weight_t * nat) :=
  st <- for_loop (Z.to_nat (width l)) 0 (fun x st =>
    for_loop (Z.to_nat (height l)) 0 (fun y '(l, buffer) =>
      l <- flip l x y ;;
      weight <- calcWeight l beta ;;
      i <- getIndex l x y ;;
      buffer <- store buffer i weight ;;
      l <- flip l x y ;;
      Some (l, buffer)) st) (l, buffer) ;;
  let '(l, buffer) := st in
  sum <- for_loop (Z.to_nat (width l)) 0 (fun x sum =>
    for_loop (Z.to_nat (height l)) 0 (fun y sum =>
      i <- getIndex l x y ;;
      b <- load buffer i ;;
      Some (sum + b)%float) sum) 0%float ;;
  buffer <- for_loop (Z.to_nat (width l)) 0 (fun x buffer =>
    for_loop (Z.to_nat (height l)) 0 (fun y buffer =>
      i <- getIndex l x y ;;
      b <- load buffer i ;;
      store buffer i (b / sum)%float) buffer) buffer ;;
  let '(r, calls) := uniformRandom calls in
  o <- for_loop_ret (Z.to_nat (width l)) 0 (fun x sum =>
    for_loop_ret (Z.to_nat (height l)) 0 (fun y sum =>
      i <- getIndex l x y ;;
      b <- load buffer i ;;
      let sum := (sum + b)%float in
      if (r <? sum)%float
      then l <- flip l x y ;; Some (Return l)
      else Some (Next sum)) sum) 0%float ;;
  match o with
  | Next _ => Some (l, buffer, calls)
  | Return l => Some (l, buffer, calls)
  end.

(** The state of the [for (;;)] loop of [evolveIntoThermalState]. *)
Record loop_state : Type := mkLoop {
  ls_lattice : Lattice;
  ls_buffer : list weight_t;
  ls_energy : Z;
  ls_hits : Z;
  ls_calls : nat
}.

(** One pass through the loop body: [Return] is the [break]. *)
Definition evolve_body (beta : weight_t) (max_consequential_hits : Z)
    (st : loop_state) : option (outcome loop_state (Lattice * nat)) :=
  r <- tryFlipOneSpin (ls_lattice st) beta (ls_buffer st) (ls_calls st) ;;
  let '(l, buffer, calls) := r in
  newEnergy <- calcEnergy l ;;
  let consequential_hits :=
    if ls_energy st =? newEnergy then to_size_t (ls_hits st + 1) else 0 in
  if max_consequential_hits <=? consequential_hits
  then Some (Return (l, calls))
  else Some (Next (mkLoop l buffer newEnergy consequential_hits calls)).

(** The loop has no bound in the source; [fuel] bounds the number of
    iterations the model runs, and [None] also stands for a run that needs
    more. *)
Fixpoint evolve_loop (fuel : nat) (beta : weight_t)
    (max_consequential_hits : Z) (st : loop_state)
    : option (Lattice * nat) :=
  match fuel with
  | O => None
  | Datatypes.S fuel' =>
      o <- evolve_body beta max_consequential_hits st ;;
      match o with
      | Next st' => evolve_loop fuel' beta max_consequential_hits st'
      | Return r => Some r
      end
  end.

Definition evolveIntoThermalState (fuel : nat) (l : Lattice)
    (beta : weight_t) (max_consequential_hits : Z) (calls : nat)
    : option (Lattice * nat) :=
  energy <- calcEnergy l ;;
  let buffer :=
    replicate (Z.to_nat (to_size_t (width l * height l))) 0%float in
  evolve_loop fuel beta max_consequential_hits
    (mkLoop l buffer energy 0 calls).

(** *** Notions the statements about the sampler use *)

(** The weight of the configuration that differs from [l] at [(x, y)]. *)
Definition flip_weight (l : Lattice) (beta : weight_t) (x y : Z)
    : option weight_t :=
  l' <- flip l x y ;; calcWeight l' beta.

(** The candidate weights in iteration order: cell number [k] is
    [(k / height, k mod height)]. *)
Definition candidate_weights (l : Lattice) (beta : weight_t)
    : list weight_t :=
  (fun k => default 0%float
              (flip_weight l beta (k / height l) (k mod height l)))
    <$> seqZ 0 (width l * height l).

Definition total_weight (l : Lattice) (beta : weight_t) : weight_t :=
  foldl PrimFloat.add 0%float (candidate_weights l beta).

Definition normalized_weights (l : Lattice) (beta : weight_t)
    : list weight_t :=
  (fun w => (w / total_weight l beta)%float) <$> candidate_weights l beta.

(** [sampler_steps beta calls lats]: each lattice of [lats] is what one
    call of [tryFlipOneSpin] makes of the one before it, with a buffer of
    one weight per cell; the first call is call number [calls] to the
    generator. *)
Inductive sampler_steps (beta : weight_t) : nat -> list Lattice -> Prop :=
  | steps_done (calls : nat) (l : Lattice) : sampler_steps beta calls [l]
  | steps_next (calls : nat) (l l' : Lattice) (lats : list Lattice)
        (buffer buffer' : list weight_t) :
      length buffer = cell_count l ->
      tryFlipOneSpin l beta buffer calls
        = Some (l', buffer', Datatypes.S calls) ->
      sampler_steps beta (Datatypes.S calls) (l' :: lats) ->
      sampler_steps beta calls (l :: l' :: lats).

(** The lattices the program can reach from [l] by [flip], by a sampler
    step and by the thermalization loop. *)
Inductive reachable (l : Lattice) : Lattice -> Prop :=
  | reach_refl : reachable l l
  | reach_flip (l1 l2 : Lattice) (x y : Z) :
      reachable l l1 -> flip l1 x y = Some l2 -> reachable l l2
  | reach_sampler (l1 l2 : Lattice) (beta : weight_t)
        (buffer buffer' : list weight_t) (calls calls' : nat) :
      reachable l l1 -> length buffer = cell_count l1 ->
      tryFlipOneSpin l1 beta buffer calls = Some (l2, buffer', calls') ->
      reachable l l2
  | reach_evolve (l1 l2 : Lattice) (fuel : nat) (beta : weight_t)
        (max_consequential_hits : Z) (calls calls' : nat) :
      reachable l l1 -> is_size_t max_consequential_hits ->
      evolveIntoThermalState fuel l1 beta max_consequential_hits calls
        = Some (l2, calls') ->
      reachable l l2.

End Sampler.

(** The running sum of the first [k + 1] weights, added in order. *)
Definition cumulative (ws : list weight_t) (k : nat) : weight_t :=
  foldl PrimFloat.add 0%float (take (Datatypes.S k) ws).

(** The consecutive-unchanged counter, as the specification words it:
    from the count [hits] and the energy [e], after the steps whose
    energies are [es], each step adds one when the energy is the same as
    before it and resets the count otherwise. *)
Fixpoint unchanged_counter (hits e : Z) (es : list Z) : Z :=
  match es with
  | [] => hits
  | e' :: es' => unchanged_counter (if e =? e' then hits + 1 else 0) e' es'
  end.

Definition exceeds (r : weight_t) (ws : list weight_t) (k : nat) : Prop :=
  (r <? cumulative ws k)%float = true.

(** ** Rendering *)

(** The output sink is the list of characters written to it so far. *)
Definition fputc (c : ascii) (file : list ascii) : list ascii := file ++ [c].

Definition newline : ascii := "010"%char.

Definition printLattice (l : Lattice) (file_descriptor : list ascii)
    : option (list ascii) :=
  for_loop (Z.to_nat (width l)) 0 (fun x file =>
    file <- for_loop (Z.to_nat (height l)) 0 (fun y file =>
      s <- get l x y ;;
      Some (fputc (if s =? 1 then "+"%char else "-"%char) file)) file ;;
    Some (fputc newline file)) file_descriptor.

(** The lines of a text: the runs of characters that a newline ends. *)
Fixpoint lines_from (cur : list ascii) (text : list ascii)
    : list (list ascii) :=
  match text with
  | [] => []
  | c :: text' =>
      if Ascii.eqb c newline then rev cur :: lines_from [] text'
      else lines_from (c :: cur) text'
  end.
Definition lines (text : list ascii) : list (list ascii) := lines_from [] text.

(** A stand-in for libm's [exp], used where a development needs to run the
    sampler: [(1 + x / 1024) ^ 1024]. *)
Definition exp_approx (x : weight_t) : weight_t :=
  let sq (y : float) := (y * y)%float in
  sq (sq (sq (sq (sq (sq (sq (sq (sq (sq (1 + x / 1024)%float))))))))).

(** ** Notions the statements use *)

(** The coordinate reduction of [getIndex], for one axis of extent [n]. *)
Definition reduce (x n : Z) : Z := to_size_t (x + n) mod n.

(** The buffer position of cell [(x, y)], as [getIndex] computes it. *)
Definition cell_index (l : Lattice) (x y : Z) : Z :=
  reduce x (width l) * height l + reduce y (height l).

(** Every spin negated at once (the global spin flip). *)
Definition negate_all (l : Lattice) : Lattice :=
  mkLattice (width l) (height l) ((fun s => to_spin_t (- s)) <$> data l).

Definition is_spin (s : Z) : Prop := s = SPIN_UP \/ s = SPIN_DOWN.

(** glibc's [RAND_MAX], and a generator sequence to run the sampler on. *)
Definition GLIBC_RAND_MAX : Z := 2147483647.
Definition example_rand_seq (n : nat) : Z :=
  (Z.of_nat n * 300000001) mod 2147483648.

(** The invariant of the data model: a lattice the program can hold whose
    cells are all +1 or -1. *)
Definition spin_lattice (l : Lattice) : Prop :=
  wf_lattice l /\ Forall is_spin (data l).

(** Lattices to run the program on: 5 x 5, as [main] allocates it, with
    one spin up at the origin; 2 x 3 and 2 x 2 in the ground state of
    [main]; 3 x 3 with every spin up. *)
Definition lattice_5x5 : Lattice := mkLattice 5 5 (1 :: replicate 24 (-1)).
Definition lattice_2x3 : Lattice := mkLattice 2 3 (replicate 6 (-1)).
Definition lattice_2x2 : Lattice := mkLattice 2 2 (replicate 4 (-1)).
Definition lattice_3x3 : Lattice := mkLattice 3 3 (replicate 9 1).

(** A text from its lines, each ended by a newline. *)
Definition unlines (rows : list (list ascii)) : list ascii :=
  rows ≫= (fun row => row ++ [newline]).

(** The character [printLattice] writes for a cell. *)
Definition cell_char (l : Lattice) (x y : Z) : ascii :=
  match get l x y with
  | Some s => if s =? 1 then "+"%char else "-"%char
  | None => "?"%char
  end.

(** ** Sums over the cells *)

(** The spin at [(a, b)] of the periodic lattice: both coordinates are
    taken modulo the dimensions. *)
Definition spin_at (l : Lattice) (a b : Z) : Z :=
  default 0
    (data l !! Z.to_nat (a mod width l * height l + b mod height l)).

(** The sum of [f 0], ..., [f (n - 1)]. *)
Fixpoint sum_upto (n : nat) (f : Z -> Z) : Z :=
  match n with
  | O => 0
  | Datatypes.S n' => sum_upto n' f + f (Z.of_nat n')
  end.

(** The sum of [f a b] over [0 <= a < w] and [0 <= b < h]. *)
Definition sum_box (w h : Z) (f : Z -> Z -> Z) : Z :=
  sum_upto (Z.to_nat w) (fun a => sum_upto (Z.to_nat h) (f a)).

Definition sum_cells (l : Lattice) (f : Z -> Z -> Z) : Z :=
  sum_box (width l) (height l) f.

(** The sum of the four neighbours of [(a, b)] on the periodic lattice. *)
Definition neighbour_sum (l : Lattice) (a b : Z) : Z :=
  spin_at l (a + 1) b + spin_at l (a - 1) b
  + spin_at l a (b + 1) + spin_at l a (b - 1).

(** The products of [F] at a cell with [F] at its four neighbours. *)
Definition bond_terms (F : Z -> Z -> Z) (a b : Z) : Z :=
  F a b * (F (a + 1) b + F (a - 1) b + F a (b + 1) + F a (b - 1)).

(** [c] at the cells of the periodic lattice that are [(x0, y0)], and 0
    elsewhere. *)
Definition bump (w h x0 y0 c a b : Z) : Z :=
  if (a mod w =? x0) && (b mod h =? y0) then c else 0.

(** ** The program *)

(** [free(l.data)]: the buffer is given back; nothing is read from the
    lattice afterwards. *)
Definition deallocateLattice (l : Lattice) : unit := tt.

(** The conversion [%lld]: a signed decimal numeral. *)
Definition lld (z : Z) : string := NilZero.string_of_int (Z.to_int z).

(** [printf] of a text followed by a newline. *)
Definition print_line (text : string) (file : list ascii) : list ascii :=
  fputc newline (file ++ list_ascii_of_string text).

Section Program.

Variable c_exp : weight_t -> weight_t.
Variable RAND_MAX : Z.
Variable rand_seq : nat -> Z.

(** [main]: the exit status and what was written to [stdout].
    [srand(time(NULL))] chooses the sequence [rand_seq] that [rand()]
    goes through, starting at call number 0. *)
Definition main (fuel : nat) : option (Z * list ascii) :=
  let stdout : list ascii := [] in
  let calls := 0%nat in
  let lattice := allocateLattice 5 5 in
  lattice <- fillGroundState lattice SPIN_DOWN ;;
  let stdout := print_line "Lattice at the ground state:" stdout in
  stdout <- printLattice lattice stdout ;;
  groundEnergy <- calcEnergy lattice ;;
  let stdout :=
    print_line (String.append "Energy: " (lld groundEnergy)) stdout in
  r <- evolveIntoThermalState c_exp RAND_MAX rand_seq fuel lattice 1 3 calls ;;
  let '(lattice, calls) := r in
  let stdout := print_line "Lattice at the thermal state:" stdout in
  stdout <- printLattice lattice stdout ;;
  thermalEnergy <- calcEnergy lattice ;;
  let stdout :=
    print_line (String.append "Energy: " (lld thermalEnergy)) stdout in
  let _ := deallocateLattice lattice in
  Some (0, stdout).

End Program.

(* ================================================================== *)
(** * Theory *)

(** ** Machine arithmetic *)

Lemma to_size_t_small (z : Z) : 0 <= z < SIZE_MODULUS -> to_size_t z = z.
Proof. intros Hz. unfold to_size_t. now apply Z.mod_small. Qed.

Lemma to_spin_t_small (s : Z) : is_spin_t s -> to_spin_t s = s.
Proof.
  unfold is_spin_t, to_spin_t. intros Hs.
  rewrite Z.mod_small by lia. lia.
Qed.

Lemma to_spin_t_range (z : Z) : is_spin_t (to_spin_t z).
Proof.
  unfold is_spin_t, to_spin_t.
  pose proof (Z.mod_pos_bound (z + 128) 256). lia.
Qed.

Lemma to_spin_t_neg_neg (s : Z) :
  is_spin_t s -> to_spin_t (- to_spin_t (- s)) = s.
Proof.
  unfold is_spin_t. intros Hs.
  destruct (Z.eq_dec s (-128)) as [->|Hne]; [reflexivity|].
  rewrite (to_spin_t_small (- s)) by (unfold is_spin_t; lia).
  rewrite Z.opp_involutive. apply to_spin_t_small. exact Hs.
Qed.

Lemma to_energy_t_small (e : Z) :
  - 2 ^ 63 <= e <= INT64_MAX -> to_energy_t e = e.
Proof.
  unfold to_energy_t, INT64_MAX. intros He.
  rewrite Z.mod_small by lia. lia.
Qed.

Lemma to_energy_t_add (a b : Z) :
  to_energy_t (to_energy_t a + b) = to_energy_t (a + b).
Proof.
  unfold to_energy_t. f_equal.
  replace (a + 2 ^ 63) with (a + 2 ^ 63 + 0) at 1 by lia.
  replace ((a + 2 ^ 63 + 0) mod 2 ^ 64 - 2 ^ 63 + b + 2 ^ 63)
    with ((a + 2 ^ 63 + 0) mod 2 ^ 64 + b) by lia.
  rewrite Z.add_0_r, Zplus_mod_idemp_l. f_equal. lia.
Qed.

Lemma reduce_range (x n : Z) : 0 < n -> 0 <= reduce x n < n.
Proof. intros Hn. unfold reduce. apply Z.mod_pos_bound. exact Hn. Qed.

(** Inside the window [-n <= z < 2^64 - n] the reduction of the converted
    coordinate is the mathematical modulo. *)
Lemma reduce_window (z n : Z) :
  0 < n -> - n <= z < SIZE_MODULUS - n -> reduce (to_size_t z) n = z mod n.
Proof.
  intros Hn Hz. unfold reduce, to_size_t.
  rewrite Zplus_mod_idemp_l.
  rewrite (Z.mod_small (z + n)) by lia.
  replace (z + n) with (z + 1 * n) by lia. apply Z_mod_plus_full.
Qed.

Lemma reduce_small (x n : Z) :
  0 <= x < n -> n <= PTRDIFF_MAX -> reduce x n = x.
Proof.
  intros Hx Hn.
  rewrite <- (to_size_t_small x) at 1
    by (unfold SIZE_MODULUS, PTRDIFF_MAX in *; lia).
  rewrite reduce_window by (unfold SIZE_MODULUS, PTRDIFF_MAX in *; lia).
  apply Z.mod_small. lia.
Qed.

(** ** Lattice storage *)

Section Storage.

Variable l : Lattice.
Hypothesis Hwf : wf_lattice l.

Lemma wf_dims : 0 < width l <= PTRDIFF_MAX /\ 0 < height l <= PTRDIFF_MAX.
Proof. destruct Hwf. unfold PTRDIFF_MAX in *. nia. Qed.

Lemma getIndex_wf (x y : Z) :
  getIndex l x y
  = Some (cell_index l x y).
Proof.
  destruct Hwf as [Hw Hh Hsz _ _]. unfold getIndex.
  destruct (Z.eqb_spec (width l) 0) as [?|_]; [lia|].
  destruct (Z.eqb_spec (height l) 0) as [?|_]; [lia|]. cbn.
  fold (reduce x (width l)) (reduce y (height l)).
  pose proof (reduce_range x _ Hw). pose proof (reduce_range y _ Hh).
  rewrite to_size_t_small; [reflexivity|].
  unfold SIZE_MODULUS, PTRDIFF_MAX in *. nia.
Qed.

Lemma cell_index_bound (x y : Z) :
  0 <= cell_index l x y < Z.of_nat (length (data l)).
Proof.
  destruct Hwf as [Hw Hh _ Hlen _]. unfold cell_index.
  pose proof (reduce_range x _ Hw). pose proof (reduce_range y _ Hh).
  rewrite Hlen. nia.
Qed.

Lemma cell_index_in_range (x y : Z) :
  0 <= x < width l -> 0 <= y < height l ->
  cell_index l x y = x * height l + y.
Proof.
  intros Hx Hy. unfold cell_index.
  destruct wf_dims as [[_ ?] [_ ?]].
  now rewrite !reduce_small.
Qed.

Lemma getIndex_in_range (x y : Z) :
  0 <= x < width l -> 0 <= y < height l ->
  getIndex l x y = Some (x * height l + y).
Proof.
  intros Hx Hy. rewrite getIndex_wf. f_equal.
  now apply cell_index_in_range.
Qed.

Lemma get_wf (x y : Z) : get l x y = data l !! Z.to_nat (cell_index l x y).
Proof. unfold get. now rewrite getIndex_wf. Qed.

Lemma get_total (x y : Z) : exists s, get l x y = Some s /\ is_spin_t s.
Proof.
  rewrite get_wf. pose proof (cell_index_bound x y) as Hi.
  destruct (lookup_lt_is_Some_2 (data l) (Z.to_nat (cell_index l x y)))
    as [s Hs]; [lia|].
  exists s. split; [exact Hs|].
  destruct Hwf as [_ _ _ _ Hcells].
  rewrite Forall_lookup in Hcells. eapply Hcells, Hs.
Qed.

Lemma set_wf (x y v : Z) :
  set l x y v
  = Some (mkLattice (width l) (height l)
            (<[Z.to_nat (cell_index l x y) := to_spin_t v]> (data l))).
Proof.
  unfold set. rewrite getIndex_wf.
  pose proof (cell_index_bound x y) as Hi.
  destruct (Z.ltb_spec (cell_index l x y) (Z.of_nat (length (data l))));
    [reflexivity|lia].
Qed.

Lemma wf_lattice_insert (i : nat) (v : Z) :
  wf_lattice (mkLattice (width l) (height l)
                (<[i := to_spin_t v]> (data l))).
Proof.
  destruct Hwf as [Hw Hh Hsz Hlen Hcells].
  constructor; cbn; try assumption.
  - now rewrite length_insert.
  - apply Forall_insert; [exact Hcells|apply to_spin_t_range].
Qed.

Lemma flip_wf (x y : Z) :
  exists s, data l !! Z.to_nat (cell_index l x y) = Some s /\
    flip l x y
    = Some (mkLattice (width l) (height l)
              (<[Z.to_nat (cell_index l x y) := to_spin_t (- s)]> (data l))).
Proof.
  destruct (get_total x y) as (s & Hs & _). exists s.
  split; [now rewrite <- get_wf|].
  unfold flip. rewrite Hs. apply set_wf.
Qed.

End Storage.

Lemma cell_index_same_dims (l l' : Lattice) (x y : Z) :
  width l' = width l -> height l' = height l ->
  cell_index l' x y = cell_index l x y.
Proof. unfold cell_index. now intros -> ->. Qed.

Lemma set_preserves (l l' : Lattice) (x y v : Z) :
  wf_lattice l -> set l x y v = Some l' ->
  wf_lattice l' /\ width l' = width l /\ height l' = height l.
Proof.
  intros Hwf Hset. rewrite (set_wf l Hwf) in Hset.
  injection Hset as <-. split; [now apply wf_lattice_insert|now cbn].
Qed.

Lemma flip_preserves (l l' : Lattice) (x y : Z) :
  wf_lattice l -> flip l x y = Some l' ->
  wf_lattice l' /\ width l' = width l /\ height l' = height l.
Proof.
  intros Hwf Hflip. destruct (flip_wf l Hwf x y) as (s & _ & Heq).
  rewrite Heq in Hflip. injection Hflip as <-.
  split; [now apply wf_lattice_insert|now cbn].
Qed.

Lemma get_set_same (l l' : Lattice) (x y v : Z) :
  wf_lattice l -> set l x y v = Some l' -> get l' x y = Some (to_spin_t v).
Proof.
  intros Hwf Hset. destruct (set_preserves _ _ _ _ _ Hwf Hset) as (Hwf' & Hw & Hh).
  rewrite (get_wf l' Hwf'), (cell_index_same_dims l l') by assumption.
  rewrite (set_wf l Hwf) in Hset. injection Hset as <-. cbn.
  apply list_lookup_insert_eq.
  pose proof (cell_index_bound l Hwf x y). lia.
Qed.

Lemma get_set_other (l l' : Lattice) (x y v x' y' : Z) :
  wf_lattice l -> set l x y v = Some l' ->
  cell_index l x' y' <> cell_index l x y ->
  get l' x' y' = get l x' y'.
Proof.
  intros Hwf Hset Hne.
  destruct (set_preserves _ _ _ _ _ Hwf Hset) as (Hwf' & Hw & Hh).
  rewrite (get_wf l' Hwf'), (get_wf l Hwf),
    (cell_index_same_dims l l') by assumption.
  rewrite (set_wf l Hwf) in Hset. injection Hset as <-. cbn.
  apply list_lookup_insert_ne.
  pose proof (cell_index_bound l Hwf x y).
  pose proof (cell_index_bound l Hwf x' y'). lia.
Qed.

(** The index map is injective on in-range coordinates. *)
Lemma index_injective (h x1 y1 x2 y2 : Z) :
  0 <= y1 < h -> 0 <= y2 < h ->
  x1 * h + y1 = x2 * h + y2 -> x1 = x2 /\ y1 = y2.
Proof.
  intros Hy1 Hy2 Heq.
  assert (x1 = x2) as ->; [|lia].
  destruct (Z.lt_trichotomy x1 x2) as [Hlt|[Heq'|Hgt]]; [|exact Heq'|].
  - assert (h <= (x2 - x1) * h) by nia. lia.
  - assert (h <= (x1 - x2) * h) by nia. lia.
Qed.

Lemma flip_flip (l l1 l2 : Lattice) (x y : Z) :
  wf_lattice l -> flip l x y = Some l1 -> flip l1 x y = Some l2 -> l2 = l.
Proof.
  intros Hwf H1 H2.
  destruct (flip_preserves _ _ _ _ Hwf H1) as (Hwf1 & Hw & Hh).
  destruct (flip_wf l Hwf x y) as (s & Hs & Heq1).
  destruct (flip_wf l1 Hwf1 x y) as (s1 & Hs1 & Heq2).
  rewrite Heq1 in H1. injection H1 as <-.
  rewrite Heq2 in H2. injection H2 as <-. clear Heq1 Heq2.
  pose proof (cell_index_bound l Hwf x y) as Hi.
  unfold cell_index in *. cbn [width height data] in *.
  rewrite list_lookup_insert_eq in Hs1 by lia. injection Hs1 as <-.
  rewrite list_insert_insert_eq, to_spin_t_neg_neg.
  - rewrite list_insert_id by exact Hs. now destruct l.
  - destruct Hwf as [_ _ _ _ Hcells].
    rewrite Forall_lookup in Hcells. eapply Hcells, Hs.
Qed.

(** ** Loops *)

Lemma for_loop_inv {S : Type} (P : Z -> S -> Prop)
    (body : Z -> S -> option S) (n : nat) (i0 : Z) (s : S) :
  P i0 s ->
  (forall i s, i0 <= i < i0 + Z.of_nat n -> P i s ->
     exists s', body i s = Some s' /\ P (i + 1) s') ->
  exists s', for_loop n i0 body s = Some s' /\ P (i0 + Z.of_nat n) s'.
Proof.
  revert i0 s. induction n as [|n IH]; intros i0 s H0 Hstep.
  - exists s. rewrite Z.add_0_r. now split.
  - destruct (Hstep i0 s) as (s1 & Hb & H1); [lia|exact H0|].
    destruct (IH (i0 + 1) s1 H1) as (s' & Hloop & Hend).
    + intros i t Hi. apply Hstep. lia.
    + exists s'. cbn [for_loop]. rewrite Hb. split; [exact Hloop|].
      replace (i0 + Z.of_nat (Datatypes.S n))
        with (i0 + 1 + Z.of_nat n) by lia. exact Hend.
Qed.

Lemma for_loop_ext {S : Type} (f g : Z -> S -> option S)
    (n : nat) (i0 : Z) (s : S) :
  (forall i s, i0 <= i < i0 + Z.of_nat n -> f i s = g i s) ->
  for_loop n i0 f s = for_loop n i0 g s.
Proof.
  revert i0 s. induction n as [|n IH]; intros i0 s Hfg; [reflexivity|].
  cbn [for_loop]. rewrite Hfg by lia.
  destruct (g i0 s) as [s1|]; [|reflexivity].
  apply IH. intros i t Hi. apply Hfg. lia.
Qed.

(** The invariant rule for the two nested loops over the cells: the
    invariant is indexed by the number [x * h + y] of cells already
    visited. *)
Lemma nested_loop_inv {S : Type} (P : Z -> S -> Prop)
    (body : Z -> Z -> S -> option S) (w h : Z) (s : S) :
  0 <= w -> 0 <= h ->
  P 0 s ->
  (forall x y s, 0 <= x < w -> 0 <= y < h -> P (x * h + y) s ->
     exists s', body x y s = Some s' /\ P (x * h + y + 1) s') ->
  exists s',
    for_loop (Z.to_nat w) 0 (fun x s =>
      for_loop (Z.to_nat h) 0 (fun y s => body x y s) s) s = Some s'
    /\ P (w * h) s'.
Proof.
  intros Hw Hh H0 Hstep.
  destruct (for_loop_inv (fun x s => P (x * h) s)
              (fun x s => for_loop (Z.to_nat h) 0 (fun y s => body x y s) s)
              (Z.to_nat w) 0 s) as (s' & Hloop & Hend).
  - exact H0.
  - intros x t Hx Hinv.
    destruct (for_loop_inv (fun y s => P (x * h + y) s)
                (fun y s => body x y s) (Z.to_nat h) 0 t)
      as (t' & Hloop & Hend).
    + now rewrite Z.add_0_r.
    + intros y u Hy Hu.
      destruct (Hstep x y u) as (u' & Hb & Hu'); [lia|lia|exact Hu|].
      exists u'. split; [exact Hb|].
      now replace (x * h + (y + 1)) with (x * h + y + 1) by lia.
    + exists t'. split; [exact Hloop|].
      replace ((x + 1) * h) with (x * h + (0 + Z.of_nat (Z.to_nat h)))
        by lia. exact Hend.
  - exists s'. split; [exact Hloop|].
    now replace (w * h) with ((0 + Z.of_nat (Z.to_nat w)) * h) by lia.
Qed.

(** ** Ground state and energy *)

Lemma fillGroundState_wf (l : Lattice) (spin : Z) :
  wf_lattice l ->
  exists l', fillGroundState l spin = Some l' /\
    wf_lattice l' /\ width l' = width l /\ height l' = height l /\
    data l' = replicate (cell_count l) (to_spin_t spin).
Proof.
  intros Hwf. pose proof Hwf as [Hw Hh Hsz Hlen Hcells].
  destruct (nested_loop_inv
    (fun i l' => wf_lattice l' /\ width l' = width l /\
       height l' = height l /\
       forall j, (Z.of_nat j < i) -> data l' !! j = Some (to_spin_t spin))
    (fun x y l' => set l' x y spin) (width l) (height l) l)
    as (l' & Hloop & Hwf' & Hw' & Hh' & Hall); [lia|lia| | |].
  - repeat split; try assumption; try reflexivity. intros j Hj. lia.
  - intros x y t Hx Hy (Hwft & Hwt & Hht & Hdone).
    rewrite (set_wf t Hwft).
    rewrite (cell_index_in_range t Hwft x y) by lia.
    eexists. split; [reflexivity|].
    split; [now apply wf_lattice_insert|].
    cbn [width height data]. repeat split; try assumption.
    rewrite Hht. intros j Hj.
    destruct (Nat.eq_dec (Z.to_nat (x * height l + y)) j) as [<-|Hne].
    + apply list_lookup_insert_eq.
      destruct Hwft as [_ _ _ Hlent _]. nia.
    + rewrite list_lookup_insert_ne by exact Hne. apply Hdone. nia.
  - exists l'. split; [exact Hloop|].
    split; [exact Hwf'|]. split; [exact Hw'|]. split; [exact Hh'|].
    destruct Hwf' as [_ _ _ Hlen' _].
    apply list_eq. intros j. unfold cell_count.
    destruct (Nat.lt_ge_cases j (Z.to_nat (width l * height l))) as [Hj|Hj].
    + rewrite Hall by lia. symmetry. now apply lookup_replicate_2.
    + rewrite (proj1 (lookup_replicate_None _ _ _)) by lia.
      apply lookup_ge_None_2. nia.
Qed.

Lemma calcEnergy_total (l : Lattice) :
  wf_lattice l -> exists e, calcEnergy l = Some e.
Proof.
  intros Hwf. pose proof Hwf as [Hw Hh _ _ _].
  destruct (nested_loop_inv (fun _ (_ : Z) => True)
    (fun x y energy =>
      c <- get l x y ;;
      r <- get l (to_size_t (x + 1)) y ;;
      let energy := to_energy_t (energy + c * r) in
      c <- get l x y ;;
      r <- get l (to_size_t (x - 1)) y ;;
      let energy := to_energy_t (energy + c * r) in
      c <- get l x y ;;
      r <- get l x (to_size_t (y + 1)) ;;
      let energy := to_energy_t (energy + c * r) in
      c <- get l x y ;;
      r <- get l x (to_size_t (y - 1)) ;;
      Some (to_energy_t (energy + c * r)))
    (width l) (height l) 0) as (e & He & _); [lia|lia|exact I| |].
  - intros x y e _ _ _.
    destruct (get_total l Hwf x y) as (c & -> & _).
    destruct (get_total l Hwf (to_size_t (x + 1)) y) as (r1 & -> & _).
    destruct (get_total l Hwf (to_size_t (x - 1)) y) as (r2 & -> & _).
    destruct (get_total l Hwf x (to_size_t (y + 1))) as (r3 & -> & _).
    destruct (get_total l Hwf x (to_size_t (y - 1))) as (r4 & -> & _).
    eexists. split; [reflexivity|exact I].
  - exists e. exact He.
Qed.

Lemma calcEnergy_uniform (l : Lattice) (spin : Z) :
  wf_lattice l -> spin * spin = 1 ->
  Forall (eq spin) (data l) ->
  calcEnergy l = Some (to_energy_t (4 * (width l * height l))).
Proof.
  intros Hwf Hspin Hall. pose proof Hwf as [Hw Hh _ _ _].
  assert (Hget : forall x y, get l x y = Some spin).
  { intros x y. destruct (get_total l Hwf x y) as (s & Hs & _).
    rewrite Hs. f_equal. rewrite get_wf in Hs by exact Hwf.
    rewrite Forall_lookup in Hall. symmetry. eapply Hall, Hs. }
  destruct (nested_loop_inv (fun i e => e = to_energy_t (4 * i))
    (fun x y energy =>
      c <- get l x y ;;
      r <- get l (to_size_t (x + 1)) y ;;
      let energy := to_energy_t (energy + c * r) in
      c <- get l x y ;;
      r <- get l (to_size_t (x - 1)) y ;;
      let energy := to_energy_t (energy + c * r) in
      c <- get l x y ;;
      r <- get l x (to_size_t (y + 1)) ;;
      let energy := to_energy_t (energy + c * r) in
      c <- get l x y ;;
      r <- get l x (to_size_t (y - 1)) ;;
      Some (to_energy_t (energy + c * r)))
    (width l) (height l) 0) as (e & He & ->); [lia|lia|reflexivity| |].
  - intros x y e _ _ ->. rewrite !Hget, Hspin.
    eexists. split; [reflexivity|].
    repeat (rewrite to_energy_t_add || rewrite <- Z.add_assoc).
    f_equal. lia.
  - exact He.
Qed.

(** ** Concrete lattices *)

Ltac solve_wf_lattice :=
  constructor; cbn;
  [ lia | lia | unfold PTRDIFF_MAX; lia | reflexivity
  | repeat constructor; unfold is_spin_t; lia ].

Ltac solve_spins :=
  cbn; repeat (apply Forall_cons_2; [first [now left | now right]|]);
  apply Forall_nil_2.

Lemma wf_lattice_5x5 : wf_lattice lattice_5x5.
Proof. solve_wf_lattice. Qed.

Lemma wf_lattice_2x3 : wf_lattice lattice_2x3.
Proof. solve_wf_lattice. Qed.

(** ** Periodic coordinates *)

(** C3 (as stated, refuted): the reduction of [getIndex] is not the
    mathematical modulo for every integer.  On the 5 x 5 lattice the
    coordinate -6, converted to [size_t], is reduced to column 0, whereas
    -6 mod 5 = 4; and [get] at x = -6 and at x = -6 + width read different
    cells. *)
Lemma getIndex_not_true_modulo :
  wf_lattice lattice_5x5 /\
  getIndex lattice_5x5 (to_size_t (-6)) (to_size_t 0) = Some (0 * 5 + 0) /\
  (-6) mod width lattice_5x5 = 4 /\
  get lattice_5x5 (to_size_t (-6)) (to_size_t 0) = Some 1 /\
  get lattice_5x5 (to_size_t (-6 + width lattice_5x5)) (to_size_t 0)
    = Some (-1) /\
  get lattice_5x5 (to_size_t (-6)) (to_size_t 0)
    <> get lattice_5x5 (to_size_t (-6 + width lattice_5x5)) (to_size_t 0).
Proof.
  split; [exact wf_lattice_5x5|].
  repeat split; try reflexivity. vm_compute. discriminate.
Qed.

(** C3 (amended): on a lattice with positive dimensions, for integer
    coordinates in the window [-width <= x < 2^64 - width] and
    [-height <= y < 2^64 - height], passed as [size_t], [getIndex] (hence
    [get] and [set]) reduces x and y to the mathematical [x mod width] and
    [y mod height], which lie in [0, width) and [0, height); and [get] is
    periodic for every offset by multiples of the dimensions that stays in
    the window. *)
Theorem getIndex_modulo_window (l : Lattice) (x y : Z) :
  wf_lattice l ->
  - width l <= x < SIZE_MODULUS - width l ->
  - height l <= y < SIZE_MODULUS - height l ->
  getIndex l (to_size_t x) (to_size_t y)
    = Some (x mod width l * height l + y mod height l) /\
  0 <= x mod width l < width l /\
  0 <= y mod height l < height l /\
  get l (to_size_t x) (to_size_t y)
    = data l !! Z.to_nat (x mod width l * height l + y mod height l) /\
  (forall v, set l (to_size_t x) (to_size_t y) v
     = Some (mkLattice (width l) (height l)
         (<[Z.to_nat (x mod width l * height l + y mod height l)
             := to_spin_t v]> (data l)))) /\
  (forall j k,
     - width l <= x + j * width l < SIZE_MODULUS - width l ->
     - height l <= y + k * height l < SIZE_MODULUS - height l ->
     get l (to_size_t (x + j * width l)) (to_size_t (y + k * height l))
       = get l (to_size_t x) (to_size_t y)).
Proof.
  intros Hwf Hx Hy. pose proof Hwf as [Hw Hh _ _ _].
  assert (Hidx : forall x y,
    - width l <= x < SIZE_MODULUS - width l ->
    - height l <= y < SIZE_MODULUS - height l ->
    cell_index l (to_size_t x) (to_size_t y)
      = x mod width l * height l + y mod height l).
  { intros x0 y0 Hx0 Hy0. unfold cell_index.
    now rewrite !reduce_window. }
  split; [rewrite getIndex_wf by exact Hwf; f_equal; now apply Hidx|].
  split; [now apply Z.mod_pos_bound|].
  split; [now apply Z.mod_pos_bound|].
  split; [rewrite get_wf, Hidx by assumption; reflexivity|].
  split; [intros v; rewrite set_wf, Hidx by assumption; reflexivity|].
  intros j k Hj Hk.
  rewrite !get_wf, !Hidx by assumption.
  now rewrite !Z_mod_plus_full.
Qed.

Lemma getIndex_modulo_window_witness :
  getIndex lattice_5x5 (to_size_t (-1)) (to_size_t 7)
    = Some ((-1) mod 5 * 5 + 7 mod 5) /\
  get lattice_5x5 (to_size_t (-1 + 2 * 5)) (to_size_t (7 + (-1) * 5))
    = get lattice_5x5 (to_size_t (-1)) (to_size_t 7).
Proof.
  destruct (getIndex_modulo_window lattice_5x5 (-1) 7 wf_lattice_5x5)
    as (Hidx & _ & _ & _ & _ & Hper).
  - cbn. unfold SIZE_MODULUS. lia.
  - cbn. unfold SIZE_MODULUS. lia.
  - split; [exact Hidx|].
    apply (Hper 2 (-1)); cbn; unfold SIZE_MODULUS; lia.
Defined.

(** ** Frame of [set] *)

(** C10: on a lattice with positive dimensions and for in-range
    coordinates, [set l x y v] changes only the cell [(x, y)]: every other
    in-range cell reads the same before and after, because the index map
    [(x, y) -> x * height + y] is injective on the in-range pairs. *)
Theorem set_changes_one_cell (l : Lattice) (x y v x' y' : Z) :
  wf_lattice l ->
  0 <= x < width l -> 0 <= y < height l ->
  0 <= x' < width l -> 0 <= y' < height l ->
  (x' mod width l, y' mod height l) <> (x mod width l, y mod height l) ->
  x' * height l + y' <> x * height l + y /\
  getIndex l x y = Some (x * height l + y) /\
  getIndex l x' y' = Some (x' * height l + y') /\
  exists l', set l x y v = Some l' /\
    get l' x' y' = get l x' y' /\
    get l' x y = Some (to_spin_t v).
Proof.
  intros Hwf Hx Hy Hx' Hy' Hne.
  rewrite !Z.mod_small in Hne by lia.
  assert (Hidx : x' * height l + y' <> x * height l + y).
  { intros Heq. apply index_injective in Heq; [|lia|lia].
    destruct Heq as [-> ->]. now apply Hne. }
  split; [exact Hidx|].
  split; [now apply getIndex_in_range|].
  split; [now apply getIndex_in_range|].
  destruct (set l x y v) as [l'|] eqn:Hset.
  - exists l'. split; [reflexivity|]. split.
    + eapply get_set_other; [exact Hwf|exact Hset|].
      now rewrite !cell_index_in_range.
    + eapply get_set_same; [exact Hwf|exact Hset].
  - now rewrite set_wf in Hset.
Qed.

Lemma set_changes_one_cell_witness :
  exists l', set lattice_5x5 1 2 1 = Some l' /\
    get l' 4 3 = get lattice_5x5 4 3 /\ get l' 1 2 = Some (to_spin_t 1).
Proof.
  destruct (set_changes_one_cell lattice_5x5 1 2 1 4 3 wf_lattice_5x5)
    as (_ & _ & _ & Hset); cbn; try lia.
  - discriminate.
  - exact Hset.
Defined.

(** ** Flipping twice *)

(** C8: on a lattice with positive dimensions, for every coordinate, two
    successive calls of [flip] at the same coordinate both succeed and give
    back exactly the original lattice, and so the original energy. *)
Theorem flip_twice (l : Lattice) (x y : Z) :
  wf_lattice l ->
  exists l1 l2 e,
    flip l x y = Some l1 /\ flip l1 x y = Some l2 /\ l2 = l /\
    calcEnergy l = Some e /\ calcEnergy l2 = Some e.
Proof.
  intros Hwf.
  destruct (flip_wf l Hwf x y) as (s & _ & H1).
  destruct (flip_preserves _ _ _ _ Hwf H1) as (Hwf1 & _ & _).
  destruct (flip_wf _ Hwf1 x y) as (s1 & _ & H2).
  destruct (calcEnergy_total l Hwf) as (e & He).
  pose proof (flip_flip _ _ _ _ _ Hwf H1 H2) as Heq.
  eexists _, _, e. split; [exact H1|]. split; [exact H2|].
  split; [exact Heq|]. split; [exact He|]. rewrite Heq. exact He.
Qed.

Lemma flip_twice_witness :
  exists l1 l2 e,
    flip lattice_5x5 0 0 = Some l1 /\ flip l1 0 0 = Some l2 /\
    l2 = lattice_5x5 /\
    calcEnergy lattice_5x5 = Some e /\ calcEnergy l2 = Some e.
Proof. exact (flip_twice lattice_5x5 0 0 wf_lattice_5x5). Defined.

(** ** Global spin flip *)

Lemma negate_all_wf (l : Lattice) : wf_lattice l -> wf_lattice (negate_all l).
Proof.
  intros [Hw Hh Hsz Hlen Hcells]. constructor; cbn; try assumption.
  - now rewrite length_fmap.
  - apply Forall_fmap, Forall_true. intros s. apply to_spin_t_range.
Qed.

Lemma get_negate_all (l : Lattice) (x y s : Z) :
  wf_lattice l -> get l x y = Some s ->
  get (negate_all l) x y = Some (to_spin_t (- s)).
Proof.
  intros Hwf Hs. rewrite get_wf by now apply negate_all_wf.
  rewrite get_wf in Hs by exact Hwf.
  rewrite (cell_index_same_dims l) by reflexivity. cbn [negate_all data].
  now rewrite list_lookup_fmap, Hs.
Qed.

(** C7: for every lattice whose spins are +1 or -1, negating every spin at
    once leaves the energy unchanged. *)
Theorem calcEnergy_negate_all (l : Lattice) :
  wf_lattice l -> Forall is_spin (data l) ->
  exists e, calcEnergy l = Some e /\ calcEnergy (negate_all l) = Some e.
Proof.
  intros Hwf Hspins.
  destruct (calcEnergy_total l Hwf) as (e & He). exists e.
  split; [exact He|]. rewrite <- He. unfold calcEnergy.
  cbn [negate_all width height].
  assert (Hget : forall x y, exists s,
    get l x y = Some s /\ get (negate_all l) x y = Some (- s)).
  { intros x y. destruct (get_total l Hwf x y) as (s & Hs & _).
    exists s. split; [exact Hs|].
    rewrite (get_negate_all l x y s Hwf Hs). f_equal.
    rewrite get_wf in Hs by exact Hwf.
    rewrite Forall_lookup in Hspins.
    destruct (Hspins _ _ Hs) as [->| ->]; reflexivity. }
  apply for_loop_ext. intros x e0 _.
  apply for_loop_ext. intros y e1 _.
  destruct (Hget x y) as (c & -> & ->).
  destruct (Hget (to_size_t (x + 1)) y) as (r1 & -> & ->).
  destruct (Hget (to_size_t (x - 1)) y) as (r2 & -> & ->).
  destruct (Hget x (to_size_t (y + 1))) as (r3 & -> & ->).
  destruct (Hget x (to_size_t (y - 1))) as (r4 & -> & ->).
  now rewrite !Z.mul_opp_opp.
Qed.

Lemma calcEnergy_negate_all_witness :
  exists e, calcEnergy lattice_5x5 = Some e /\
    calcEnergy (negate_all lattice_5x5) = Some e.
Proof.
  apply (calcEnergy_negate_all lattice_5x5 wf_lattice_5x5).
  solve_spins.
Defined.

(** ** Energy of the ground state *)

(** C4: for every n > 0 (with 4 n^2 in the range of [energy_t]), the energy
    of an n-by-n lattice whose cells are all +1, or all -1, is 4 n^2; and
    [fillGroundState] produces such a lattice. *)
Theorem calcEnergy_ground_state (n spin : Z) (l : Lattice) :
  0 < n -> 4 * n * n <= INT64_MAX ->
  wf_lattice l -> width l = n -> height l = n ->
  is_spin spin ->
  (Forall (eq spin) (data l) -> calcEnergy l = Some (4 * n * n)) /\
  exists l', fillGroundState l spin = Some l' /\
    (forall x y, get l' x y = Some spin) /\
    calcEnergy l' = Some (4 * n * n).
Proof.
  intros Hn Hmax Hwf Hw Hh Hspin.
  assert (Hsq : spin * spin = 1) by (destruct Hspin as [->| ->]; reflexivity).
  assert (Hconv : to_spin_t spin = spin)
    by (destruct Hspin as [->| ->]; reflexivity).
  assert (Huni : forall l0, wf_lattice l0 -> width l0 = n -> height l0 = n ->
    Forall (eq spin) (data l0) -> calcEnergy l0 = Some (4 * n * n)).
  { intros l0 Hwf0 Hw0 Hh0 Hall.
    rewrite (calcEnergy_uniform l0 spin Hwf0 Hsq Hall), Hw0, Hh0.
    f_equal. rewrite to_energy_t_small; unfold INT64_MAX in *; nia. }
  split; [now apply Huni|].
  destruct (fillGroundState_wf l spin Hwf)
    as (l' & Hfill & Hwf' & Hw' & Hh' & Hdata).
  rewrite Hconv in Hdata.
  assert (Hall : Forall (eq spin) (data l')).
  { rewrite Hdata. apply Forall_replicate. reflexivity. }
  exists l'. split; [exact Hfill|]. split.
  - intros x y. destruct (get_total l' Hwf' x y) as (s & Hs & _).
    rewrite Hs. f_equal. rewrite get_wf in Hs by exact Hwf'.
    rewrite Forall_lookup in Hall. symmetry. eapply Hall, Hs.
  - apply Huni; congruence.
Qed.

Lemma calcEnergy_ground_state_witness :
  exists l', fillGroundState (allocateLattice 5 5) SPIN_DOWN = Some l' /\
    (forall x y, get l' x y = Some SPIN_DOWN) /\
    calcEnergy l' = Some (4 * 5 * 5).
Proof.
  apply (calcEnergy_ground_state 5 SPIN_DOWN (allocateLattice 5 5)).
  - lia.
  - unfold INT64_MAX. lia.
  - solve_wf_lattice.
  - reflexivity.
  - reflexivity.
  - now right.
Defined.

(** ** Rendering *)

Lemma lines_from_row (row cur text : list ascii) :
  Forall (fun c => c <> newline) row ->
  lines_from cur (row ++ newline :: text)
  = (rev cur ++ row) :: lines_from [] text.
Proof.
  intros Hrow. revert cur.
  induction Hrow as [|c row Hc _ IH]; intros cur; cbn.
  - now rewrite app_nil_r.
  - destruct (Ascii.eqb_spec c newline) as [?|_]; [contradiction|].
    rewrite IH. cbn. now rewrite <- app_assoc.
Qed.

Lemma lines_unlines (rows : list (list ascii)) :
  Forall (Forall (fun c => c <> newline)) rows -> lines (unlines rows) = rows.
Proof.
  unfold lines, unlines. induction 1 as [|row rows Hrow _ IH]; [reflexivity|].
  cbn. rewrite <- app_assoc. cbn.
  rewrite lines_from_row by exact Hrow. cbn. now rewrite IH.
Qed.

Lemma unlines_snoc (rows : list (list ascii)) (row : list ascii) :
  unlines (rows ++ [row]) = unlines rows ++ row ++ [newline].
Proof. unfold unlines. rewrite bind_app. cbn. now rewrite app_nil_r. Qed.

Lemma seqZ_snoc (n : Z) : 0 <= n -> seqZ 0 (n + 1) = seqZ 0 n ++ [n].
Proof. intros Hn. rewrite seqZ_app by lia. reflexivity. Qed.

Lemma cell_char_no_newline (l : Lattice) (x y : Z) :
  cell_char l x y <> newline.
Proof.
  unfold cell_char. destruct (get l x y) as [s|]; [|discriminate].
  destruct (s =? 1); discriminate.
Qed.

Lemma printLattice_wf (l : Lattice) (file : list ascii) :
  wf_lattice l ->
  printLattice l file
  = Some (file ++ unlines ((fun x => cell_char l x <$> seqZ 0 (height l))
                             <$> seqZ 0 (width l))).
Proof.
  intros Hwf. pose proof Hwf as [Hw Hh _ _ _]. unfold printLattice.
  destruct (for_loop_inv
    (fun x out => out = file ++ unlines
       ((fun x => cell_char l x <$> seqZ 0 (height l)) <$> seqZ 0 x))
    (fun x file =>
       file <- for_loop (Z.to_nat (height l)) 0 (fun y file =>
         s <- get l x y ;;
         Some (fputc (if s =? 1 then "+"%char else "-"%char) file)) file ;;
       Some (fputc newline file))
    (Z.to_nat (width l)) 0 file) as (out & Hloop & Hout).
  - cbn. now rewrite app_nil_r.
  - intros x f Hx ->.
    destruct (for_loop_inv
      (fun y out => out = (file ++ unlines
         ((fun x => cell_char l x <$> seqZ 0 (height l)) <$> seqZ 0 x))
         ++ (cell_char l x <$> seqZ 0 y))
      (fun y file =>
         s <- get l x y ;;
         Some (fputc (if s =? 1 then "+"%char else "-"%char) file))
      (Z.to_nat (height l)) 0
      (file ++ unlines
         ((fun x => cell_char l x <$> seqZ 0 (height l)) <$> seqZ 0 x)))
      as (row & Hrow & Hrow_eq).
    + cbn. now rewrite app_nil_r.
    + intros y f Hy ->. unfold cell_char at 2.
      destruct (get_total l Hwf x y) as (s & Hs & _).
      eexists. rewrite Hs. split; [reflexivity|].
      rewrite seqZ_snoc, fmap_app by lia. cbn. unfold fputc, cell_char.
      now rewrite Hs, <- app_assoc.
    + rewrite Hrow. eexists. split; [reflexivity|].
      rewrite Hrow_eq, seqZ_snoc, fmap_app by lia. cbn.
      rewrite unlines_snoc. unfold fputc.
      rewrite Z2Nat.id by lia. now rewrite <- !app_assoc.
  - rewrite Hloop, Hout.
    now replace (0 + Z.of_nat (Z.to_nat (width l))) with (width l) by lia.
Qed.

(** C5 (as stated, refuted): on the 2 x 3 lattice (width 2, height 3)
    [printLattice] writes 2 lines of 3 characters, not [height] = 3 lines
    of [width] = 2 characters. *)
Lemma printLattice_not_height_lines :
  wf_lattice lattice_2x3 /\
  exists out, printLattice lattice_2x3 [] = Some out /\
    lines out = [ ["-"; "-"; "-"]; ["-"; "-"; "-"] ]%char /\
    Z.of_nat (length (lines out)) <> height lattice_2x3 /\
    ~ Forall (fun row => Z.of_nat (length row) = width lattice_2x3)
        (lines out).
Proof.
  split; [exact wf_lattice_2x3|].
  eexists. split; [reflexivity|]. split; [reflexivity|].
  split; [discriminate|].
  intros Hall. apply Forall_cons_1 in Hall as [Hlen _]. discriminate.
Qed.

(** C5 (amended): for every lattice with positive dimensions,
    [printLattice] appends to the sink exactly [width] lines of exactly
    [height] characters each, every line ended by a newline; character y of
    line x is '+' when the spin at (x, y) is +1 and '-' otherwise. *)
Theorem printLattice_lines (l : Lattice) (file : list ascii) :
  wf_lattice l ->
  exists rows,
    printLattice l file = Some (file ++ unlines rows) /\
    lines (unlines rows) = rows /\
    length rows = Z.to_nat (width l) /\
    Forall (fun row => length row = Z.to_nat (height l)) rows /\
    forall x y, 0 <= x < width l -> 0 <= y < height l ->
      exists s row, get l x y = Some s /\
        rows !! Z.to_nat x = Some row /\
        row !! Z.to_nat y
          = Some (if s =? 1 then "+"%char else "-"%char).
Proof.
  intros Hwf. pose proof Hwf as [Hw Hh _ _ _].
  exists ((fun x => cell_char l x <$> seqZ 0 (height l)) <$> seqZ 0 (width l)).
  split; [now apply printLattice_wf|]. split.
  { apply lines_unlines, Forall_fmap, Forall_true. intros x. cbn.
    apply Forall_fmap, Forall_true. intros y. apply cell_char_no_newline. }
  split; [now rewrite length_fmap, length_seqZ|]. split.
  { apply Forall_fmap, Forall_true. intros x. cbn.
    now rewrite length_fmap, length_seqZ. }
  intros x y Hx Hy. destruct (get_total l Hwf x y) as (s & Hs & _).
  exists s, (cell_char l x <$> seqZ 0 (height l)).
  split; [exact Hs|]. split.
  - rewrite list_lookup_fmap, lookup_seqZ_lt by lia. cbn.
    do 3 f_equal. lia.
  - rewrite list_lookup_fmap, lookup_seqZ_lt by lia. cbn.
    unfold cell_char. rewrite Z.add_0_l, Z2Nat.id, Hs by lia. reflexivity.
Qed.

Lemma printLattice_lines_witness :
  exists rows,
    printLattice lattice_2x3 [] = Some ([] ++ unlines rows) /\
    lines (unlines rows) = rows /\
    length rows = Z.to_nat (width lattice_2x3) /\
    Forall (fun row => length row = Z.to_nat (height lattice_2x3)) rows /\
    forall x y, 0 <= x < width lattice_2x3 -> 0 <= y < height lattice_2x3 ->
      exists s row, get lattice_2x3 x y = Some s /\
        rows !! Z.to_nat x = Some row /\
        row !! Z.to_nat y
          = Some (if s =? 1 then "+"%char else "-"%char).
Proof. exact (printLattice_lines lattice_2x3 [] wf_lattice_2x3). Defined.

(** ** The sampler *)

Lemma index_div_mod (h x y : Z) :
  0 <= y < h -> (x * h + y) / h = x /\ (x * h + y) mod h = y.
Proof.
  intros Hy. split.
  - symmetry. apply (Z.div_unique_pos _ _ _ y); lia.
  - symmetry. apply (Z.mod_unique_pos _ _ x); lia.
Qed.

Lemma for_loop_ret_inv {S R : Type} (P : Z -> S -> Prop) (Q : R -> Prop)
    (body : Z -> S -> option (outcome S R)) (n : nat) (i0 : Z) (s : S) :
  P i0 s ->
  (forall i s, i0 <= i < i0 + Z.of_nat n -> P i s ->
     exists o, body i s = Some o /\
       match o with Next s' => P (i + 1) s' | Return r => Q r end) ->
  exists o, for_loop_ret n i0 body s = Some o /\
    match o with Next s' => P (i0 + Z.of_nat n) s' | Return r => Q r end.
Proof.
  revert i0 s. induction n as [|n IH]; intros i0 s H0 Hstep.
  - exists (Next s). rewrite Z.add_0_r. now split.
  - destruct (Hstep i0 s) as (o & Hb & Ho); [lia|exact H0|].
    cbn [for_loop_ret]. rewrite Hb. destruct o as [s1|r].
    + destruct (IH (i0 + 1) s1 Ho) as (o & Hloop & Hend).
      * intros i t Hi. apply Hstep. lia.
      * exists o. split; [exact Hloop|].
        now replace (i0 + Z.of_nat (Datatypes.S n))
          with (i0 + 1 + Z.of_nat n) by lia.
    + exists (Return r). now split.
Qed.

Lemma nested_loop_ret_inv {S R : Type} (P : Z -> S -> Prop) (Q : R -> Prop)
    (body : Z -> Z -> S -> option (outcome S R)) (w h : Z) (s : S) :
  0 <= w -> 0 <= h ->
  P 0 s ->
  (forall x y s, 0 <= x < w -> 0 <= y < h -> P (x * h + y) s ->
     exists o, body x y s = Some o /\
       match o with Next s' => P (x * h + y + 1) s' | Return r => Q r end) ->
  exists o,
    for_loop_ret (Z.to_nat w) 0 (fun x s =>
      for_loop_ret (Z.to_nat h) 0 (fun y s => body x y s) s) s = Some o
    /\ match o with Next s' => P (w * h) s' | Return r => Q r end.
Proof.
  intros Hw Hh H0 Hstep.
  destruct (for_loop_ret_inv (fun x s => P (x * h) s) Q
              (fun x s =>
                 for_loop_ret (Z.to_nat h) 0 (fun y s => body x y s) s)
              (Z.to_nat w) 0 s) as (o & Hloop & Hend).
  - exact H0.
  - intros x t Hx Hinv.
    destruct (for_loop_ret_inv (fun y s => P (x * h + y) s) Q
                (fun y s => body x y s) (Z.to_nat h) 0 t)
      as (o & Hloop & Hend).
    + now rewrite Z.add_0_r.
    + intros y u Hy Hu.
      destruct (Hstep x y u) as (o & Hb & Ho); [lia|lia|exact Hu|].
      exists o. split; [exact Hb|]. destruct o; [|exact Ho].
      now replace (x * h + (y + 1)) with (x * h + y + 1) by lia.
    + exists o. split; [exact Hloop|]. destruct o; [|exact Hend].
      now replace ((x + 1) * h) with (x * h + (0 + Z.of_nat (Z.to_nat h)))
        by lia.
  - exists o. split; [exact Hloop|]. destruct o; [|exact Hend].
    now replace (w * h) with ((0 + Z.of_nat (Z.to_nat w)) * h) by lia.
Qed.

Lemma store_in_range (buffer : list weight_t) (i : Z) (v : weight_t) :
  0 <= i < Z.of_nat (length buffer) ->
  store buffer i v = Some (<[Z.to_nat i := v]> buffer).
Proof.
  intros Hi. unfold store.
  destruct (Z.ltb_spec i (Z.of_nat (length buffer))); [reflexivity|lia].
Qed.

Section SamplerTheory.

Variable c_exp : weight_t -> weight_t.
Variable RAND_MAX : Z.
Variable rand_seq : nat -> Z.

Lemma calcWeight_total (l : Lattice) (beta : weight_t) :
  wf_lattice l -> exists w, calcWeight c_exp l beta = Some w.
Proof.
  intros Hwf. destruct (calcEnergy_total l Hwf) as (e & He).
  unfold calcWeight. rewrite He. now eexists.
Qed.

Lemma flip_weight_total (l : Lattice) (beta : weight_t) (x y : Z) :
  wf_lattice l ->
  exists l' w, flip l x y = Some l' /\ calcWeight c_exp l' beta = Some w /\
    flip_weight c_exp l beta x y = Some w.
Proof.
  intros Hwf. destruct (flip_wf l Hwf x y) as (s & _ & Hflip).
  destruct (flip_preserves _ _ _ _ Hwf Hflip) as (Hwf' & _ & _).
  destruct (calcWeight_total _ beta Hwf') as (w & Hw).
  eexists _, w. split; [exact Hflip|]. split; [exact Hw|].
  unfold flip_weight. now rewrite Hflip.
Qed.

Lemma length_candidate_weights (l : Lattice) (beta : weight_t) :
  length (candidate_weights c_exp l beta) = cell_count l.
Proof. unfold candidate_weights. now rewrite length_fmap, length_seqZ. Qed.

Lemma lookup_candidate_weights (l : Lattice) (beta : weight_t)
    (x y : Z) (w : weight_t) :
  0 <= x < width l -> 0 <= y < height l ->
  flip_weight c_exp l beta x y = Some w ->
  candidate_weights c_exp l beta !! Z.to_nat (x * height l + y) = Some w.
Proof.
  intros Hx Hy Hw. unfold candidate_weights.
  rewrite list_lookup_fmap, lookup_seqZ_lt by nia. cbn.
  rewrite Z.add_0_l, Z2Nat.id by nia.
  destruct (index_div_mod (height l) x y Hy) as [-> ->].
  now rewrite Hw.
Qed.

(** The first loop leaves the lattice as it was and fills the buffer with
    the candidate weights. *)
Lemma weights_loop (l : Lattice) (beta : weight_t) (buffer : list weight_t) :
  wf_lattice l -> length buffer = cell_count l ->
  for_loop (Z.to_nat (width l)) 0 (fun x st =>
    for_loop (Z.to_nat (height l)) 0 (fun y '(l, buffer) =>
      l <- flip l x y ;;
      weight <- calcWeight c_exp l beta ;;
      i <- getIndex l x y ;;
      buffer <- store buffer i weight ;;
      l <- flip l x y ;;
      Some (l, buffer)) st) (l, buffer)
  = Some (l, candidate_weights c_exp l beta).
Proof.
  intros Hwf Hlen. pose proof Hwf as [Hw Hh _ Hdata _].
  destruct (nested_loop_inv
    (fun i (st : Lattice * list weight_t) =>
       st.1 = l /\ length st.2 = cell_count l /\
       forall j, (Z.of_nat j < i) ->
         st.2 !! j = candidate_weights c_exp l beta !! j)
    (fun x y '(l, buffer) =>
      l <- flip l x y ;;
      weight <- calcWeight c_exp l beta ;;
      i <- getIndex l x y ;;
      buffer <- store buffer i weight ;;
      l <- flip l x y ;;
      Some (l, buffer))
    (width l) (height l) (l, buffer))
    as ([l' buf] & Hloop & Hl & Hbuf & Hall); [lia|lia| | |].
  - cbn. repeat split; try assumption. intros j Hj. lia.
  - intros x y [l0 buf] Hx Hy (Hl0 & Hbuf & Hdone). cbn in Hl0, Hbuf, Hdone.
    subst l0.
    destruct (flip_weight_total l beta x y Hwf) as (l1 & w & Hf1 & Hw1 & Hfw).
    destruct (flip_preserves _ _ _ _ Hwf Hf1) as (Hwf1 & Hw1' & Hh1').
    destruct (flip_wf l1 Hwf1 x y) as (s1 & _ & Hf2).
    pose proof (flip_flip _ _ _ _ _ Hwf Hf1 Hf2) as Hback.
    rewrite Hf1, Hw1, (getIndex_in_range l1 Hwf1 x y) by lia.
    rewrite store_in_range by (unfold cell_count in Hbuf; nia).
    rewrite Hf2, Hback, Hh1'. eexists. split; [reflexivity|]. cbn.
    split; [reflexivity|]. split; [now rewrite length_insert|].
    intros j Hj.
    destruct (Nat.eq_dec (Z.to_nat (x * height l + y)) j) as [<-|Hne].
    + rewrite list_lookup_insert_eq by (unfold cell_count in Hbuf; nia).
      symmetry. now apply lookup_candidate_weights.
    + rewrite list_lookup_insert_ne by exact Hne. apply Hdone. nia.
  - cbn in Hl, Hbuf, Hall. subst l'. rewrite Hloop. do 2 f_equal.
    apply list_eq. intros j.
    destruct (Nat.lt_ge_cases j (cell_count l)) as [Hj|Hj].
    + apply Hall. unfold cell_count in Hj. lia.
    + rewrite !lookup_ge_None_2; [reflexivity| |lia].
      now rewrite length_candidate_weights.
Qed.

(** The second loop adds the buffer up in order. *)
Lemma sum_loop (l : Lattice) (buffer : list weight_t) :
  wf_lattice l -> length buffer = cell_count l ->
  for_loop (Z.to_nat (width l)) 0 (fun x sum =>
    for_loop (Z.to_nat (height l)) 0 (fun y sum =>
      i <- getIndex l x y ;;
      b <- load buffer i ;;
      Some (sum + b)%float) sum) 0%float
  = Some (foldl PrimFloat.add 0%float buffer).
Proof.
  intros Hwf Hlen. pose proof Hwf as [Hw Hh _ _ _].
  destruct (nested_loop_inv
    (fun i sum => sum = foldl PrimFloat.add 0%float (take (Z.to_nat i) buffer))
    (fun x y sum =>
      i <- getIndex l x y ;;
      b <- load buffer i ;;
      Some (sum + b)%float)
    (width l) (height l) 0%float) as (sum & Hloop & Hsum); [lia|lia| | |].
  - reflexivity.
  - intros x y sum Hx Hy ->.
    rewrite (getIndex_in_range l Hwf x y) by lia. unfold load.
    destruct (lookup_lt_is_Some_2 buffer (Z.to_nat (x * height l + y)))
      as [b Hb]; [unfold cell_count in Hlen; nia|].
    rewrite Hb. eexists. split; [reflexivity|].
    replace (Z.to_nat (x * height l + y + 1))
      with (Datatypes.S (Z.to_nat (x * height l + y))) by nia.
    rewrite (take_S_r _ _ _ Hb), foldl_app. reflexivity.
  - rewrite Hloop, Hsum. f_equal. rewrite take_ge; [reflexivity|].
    unfold cell_count in Hlen. lia.
Qed.

(** The third loop divides every entry by the sum. *)
Lemma normalize_loop (l : Lattice) (buffer : list weight_t) (sum : weight_t) :
  wf_lattice l -> length buffer = cell_count l ->
  for_loop (Z.to_nat (width l)) 0 (fun x buffer =>
    for_loop (Z.to_nat (height l)) 0 (fun y buffer =>
      i <- getIndex l x y ;;
      b <- load buffer i ;;
      store buffer i (b / sum)%float) buffer) buffer
  = Some ((fun w => (w / sum)%float) <$> buffer).
Proof.
  intros Hwf Hlen. pose proof Hwf as [Hw Hh _ _ _].
  destruct (nested_loop_inv
    (fun i buf =>
       length buf = cell_count l /\
       forall j,
         buf !! j = if decide (Z.of_nat j < i)
                    then (fun w => (w / sum)%float) <$> buffer !! j
                    else buffer !! j)
    (fun x y buffer =>
      i <- getIndex l x y ;;
      b <- load buffer i ;;
      store buffer i (b / sum)%float)
    (width l) (height l) buffer) as (buf & Hloop & Hbuf & Hall);
    [lia|lia| | |].
  - split; [exact Hlen|]. intros j. destruct (decide _); [lia|reflexivity].
  - intros x y buf Hx Hy (Hbuf & Hdone).
    rewrite (getIndex_in_range l Hwf x y) by lia. unfold load.
    assert (Hi : 0 <= x * height l + y < Z.of_nat (cell_count l))
      by (unfold cell_count; nia).
    destruct (lookup_lt_is_Some_2 buffer (Z.to_nat (x * height l + y)))
      as [b Hb]; [lia|].
    assert (Hcur : buf !! Z.to_nat (x * height l + y) = Some b).
    { rewrite Hdone. destruct (decide _); [nia|exact Hb]. }
    rewrite Hcur.
    rewrite store_in_range by lia.
    eexists. split; [reflexivity|]. split; [now rewrite length_insert|].
    intros j.
    destruct (Nat.eq_dec (Z.to_nat (x * height l + y)) j) as [<-|Hne].
    + rewrite list_lookup_insert_eq by lia.
      destruct (decide _); [|lia]. now rewrite Hb.
    + rewrite list_lookup_insert_ne by exact Hne. rewrite Hdone.
      repeat destruct (decide _); try reflexivity; lia.
  - rewrite Hloop. f_equal. apply list_eq. intros j.
    rewrite Hall, list_lookup_fmap.
    destruct (decide _) as [_|Hj]; [reflexivity|].
    rewrite lookup_ge_None_2; [reflexivity|].
    unfold cell_count in Hlen. lia.
Qed.

(** What one [flip] does to the cells. *)
Lemma flip_effect (l l' : Lattice) (x y : Z) :
  wf_lattice l -> 0 <= x < width l -> 0 <= y < height l ->
  flip l x y = Some l' ->
  exists s, get l x y = Some s /\ get l' x y = Some (to_spin_t (- s)) /\
    forall x' y', 0 <= x' < width l -> 0 <= y' < height l ->
      (x', y') <> (x, y) -> get l' x' y' = get l x' y'.
Proof.
  intros Hwf Hx Hy Hflip. unfold flip in Hflip.
  destruct (get_total l Hwf x y) as (s & Hs & _). rewrite Hs in Hflip.
  exists s. split; [exact Hs|]. split.
  - eapply get_set_same; [exact Hwf|exact Hflip].
  - intros x' y' Hx' Hy' Hne.
    eapply get_set_other; [exact Hwf|exact Hflip|].
    rewrite !cell_index_in_range by assumption.
    intros Heq. apply index_injective in Heq; [|lia|lia].
    destruct Heq as [-> ->]. now apply Hne.
Qed.

(** The last loop flips the first cell whose running sum exceeds [r] and
    returns, or falls through when there is none. *)
Lemma select_loop (l : Lattice) (buffer : list weight_t) (r : weight_t) :
  wf_lattice l -> length buffer = cell_count l ->
  exists o,
    for_loop_ret (Z.to_nat (width l)) 0 (fun x sum =>
      for_loop_ret (Z.to_nat (height l)) 0 (fun y sum =>
        i <- getIndex l x y ;;
        b <- load buffer i ;;
        let sum := (sum + b)%float in
        if (r <? sum)%float
        then l <- flip l x y ;; Some (Return l)
        else Some (Next sum)) sum) 0%float = Some o /\
    match o with
    | Next _ => forall j, (j < cell_count l)%nat -> ~ exceeds r buffer j
    | Return l' =>
        exists x y, 0 <= x < width l /\ 0 <= y < height l /\
          exceeds r buffer (Z.to_nat (x * height l + y)) /\
          (forall j, (j < Z.to_nat (x * height l + y))%nat ->
             ~ exceeds r buffer j) /\
          flip l x y = Some l'
    end.
Proof.
  intros Hwf Hlen. pose proof Hwf as [Hw Hh _ _ _].
  destruct (nested_loop_ret_inv
    (fun i sum =>
       sum = foldl PrimFloat.add 0%float (take (Z.to_nat i) buffer) /\
       forall j, Z.of_nat j < i -> ~ exceeds r buffer j)
    (fun l' =>
       exists x y, 0 <= x < width l /\ 0 <= y < height l /\
         exceeds r buffer (Z.to_nat (x * height l + y)) /\
         (forall j, (j < Z.to_nat (x * height l + y))%nat ->
            ~ exceeds r buffer j) /\
         flip l x y = Some l')
    (fun x y sum =>
        i <- getIndex l x y ;;
        b <- load buffer i ;;
        let sum := (sum + b)%float in
        if (r <? sum)%float
        then l <- flip l x y ;; Some (Return l)
        else Some (Next sum))
    (width l) (height l) 0%float) as (o & Hloop & Ho); [lia|lia| | |].
  - split; [reflexivity|]. intros j Hj. lia.
  - intros x y sum Hx Hy (-> & Hdone).
    rewrite (getIndex_in_range l Hwf x y) by lia. unfold load.
    assert (Hi : 0 <= x * height l + y < Z.of_nat (cell_count l))
      by (unfold cell_count; nia).
    destruct (lookup_lt_is_Some_2 buffer (Z.to_nat (x * height l + y)))
      as [b Hb]; [lia|].
    rewrite Hb. cbv zeta.
    assert (Hcum : (foldl PrimFloat.add 0 (take (Z.to_nat (x * height l + y))
                      buffer) + b)%float
                   = cumulative buffer (Z.to_nat (x * height l + y))).
    { unfold cumulative. now rewrite (take_S_r _ _ _ Hb), foldl_app. }
    rewrite Hcum.
    destruct (r <? cumulative buffer (Z.to_nat (x * height l + y)))%float
      eqn:Hcmp.
    + destruct (flip_wf l Hwf x y) as (s & _ & Hflip). rewrite Hflip.
      eexists. split; [reflexivity|]. exists x, y.
      repeat split; try lia; try assumption.
      intros j Hj. apply Hdone. lia.
    + eexists. split; [reflexivity|]. split.
      * unfold cumulative.
        now replace (Z.to_nat (x * height l + y + 1))
          with (Datatypes.S (Z.to_nat (x * height l + y))) by lia.
      * intros j Hj.
        destruct (Nat.eq_dec j (Z.to_nat (x * height l + y))) as [->|Hne].
        -- unfold exceeds. now rewrite Hcmp.
        -- apply Hdone. lia.
  - exists o. split; [exact Hloop|]. destruct o as [sum|l']; [|exact Ho].
    destruct Ho as (_ & Hnone). intros j Hj. apply Hnone.
    unfold cell_count in Hj. lia.
Qed.

(** The first three loops of the sampler leave the lattice as it was and
    the normalized weights in the buffer; what remains is the draw and
    the selection loop. *)
Lemma tryFlipOneSpin_select (l : Lattice) (beta : weight_t)
    (buffer : list weight_t) (calls : nat) :
  wf_lattice l -> length buffer = cell_count l ->
  tryFlipOneSpin c_exp RAND_MAX rand_seq l beta buffer calls
  = (o <- for_loop_ret (Z.to_nat (width l)) 0 (fun x sum =>
       for_loop_ret (Z.to_nat (height l)) 0 (fun y sum =>
         i <- getIndex l x y ;;
         b <- load (normalized_weights c_exp l beta) i ;;
         let sum := (sum + b)%float in
         if ((uniformRandom RAND_MAX rand_seq calls).1 <? sum)%float
         then l <- flip l x y ;; Some (Return l)
         else Some (Next sum)) sum) 0%float ;;
     match o with
     | Next _ =>
         Some (l, normalized_weights c_exp l beta, Datatypes.S calls)
     | Return l' =>
         Some (l', normalized_weights c_exp l beta, Datatypes.S calls)
     end).
Proof.
  intros Hwf Hlen. unfold tryFlipOneSpin.
  rewrite (weights_loop l beta buffer Hwf Hlen). cbv beta iota.
  rewrite (sum_loop l _ Hwf (length_candidate_weights l beta)).
  cbv beta iota.
  rewrite (normalize_loop l _ _ Hwf (length_candidate_weights l beta)).
  reflexivity.
Qed.

Lemma length_normalized_weights (l : Lattice) (beta : weight_t) :
  length (normalized_weights c_exp l beta) = cell_count l.
Proof.
  unfold normalized_weights.
  now rewrite length_fmap, length_candidate_weights.
Qed.

(** One call of the sampler returns the lattice as it was or with one
    cell flipped. *)
Lemma tryFlipOneSpin_cases (l : Lattice) (beta : weight_t)
    (buffer : list weight_t) (calls : nat) :
  wf_lattice l -> length buffer = cell_count l ->
  exists l',
    tryFlipOneSpin c_exp RAND_MAX rand_seq l beta buffer calls
      = Some (l', normalized_weights c_exp l beta, Datatypes.S calls) /\
    (l' = l \/ exists x y, flip l x y = Some l').
Proof.
  intros Hwf Hlen. rewrite (tryFlipOneSpin_select l beta buffer calls Hwf Hlen).
  destruct (select_loop l (normalized_weights c_exp l beta)
              (uniformRandom RAND_MAX rand_seq calls).1 Hwf
              (length_normalized_weights l beta)) as (o & Hloop & Ho).
  rewrite Hloop. destruct o as [sum|l'].
  - exists l. split; [reflexivity|now left].
  - exists l'. split; [reflexivity|]. right.
    destruct Ho as (x & y & _ & _ & _ & _ & Hflip). now exists x, y.
Qed.

(** C1: on a lattice with positive dimensions, for every beta and every
    random draw, one call of [tryFlipOneSpin] succeeds, leaves the
    normalized weights in the buffer, and either flips exactly the first
    cell, in iteration order, whose cumulative normalized weight exceeds
    the draw (every other cell reads as before), or, when no cumulative sum
    exceeds the draw, returns the lattice unchanged. *)
Theorem tryFlipOneSpin_flips_selected (l : Lattice) (beta : weight_t)
    (buffer : list weight_t) (calls : nat) :
  wf_lattice l -> length buffer = cell_count l ->
  exists l',
    tryFlipOneSpin c_exp RAND_MAX rand_seq l beta buffer calls
      = Some (l', normalized_weights c_exp l beta, Datatypes.S calls) /\
    ((exists x y s,
        0 <= x < width l /\ 0 <= y < height l /\
        exceeds (uniformRandom RAND_MAX rand_seq calls).1
          (normalized_weights c_exp l beta) (Z.to_nat (x * height l + y)) /\
        (forall j, (j < Z.to_nat (x * height l + y))%nat ->
           ~ exceeds (uniformRandom RAND_MAX rand_seq calls).1
               (normalized_weights c_exp l beta) j) /\
        flip l x y = Some l' /\
        get l x y = Some s /\ get l' x y = Some (to_spin_t (- s)) /\
        forall x' y', 0 <= x' < width l -> 0 <= y' < height l ->
          (x', y') <> (x, y) -> get l' x' y' = get l x' y')
     \/
     ((forall j, (j < cell_count l)%nat ->
         ~ exceeds (uniformRandom RAND_MAX rand_seq calls).1
             (normalized_weights c_exp l beta) j) /\
      l' = l)).
Proof.
  intros Hwf Hlen. rewrite (tryFlipOneSpin_select l beta buffer calls Hwf Hlen).
  destruct (select_loop l (normalized_weights c_exp l beta)
              (uniformRandom RAND_MAX rand_seq calls).1 Hwf
              (length_normalized_weights l beta)) as (o & Hloop & Ho).
  rewrite Hloop. destruct o as [sum|l'].
  - exists l. split; [reflexivity|]. right. now split.
  - exists l'. split; [reflexivity|]. left.
    destruct Ho as (x & y & Hx & Hy & Hex & Hfirst & Hflip).
    destruct (flip_effect l l' x y Hwf Hx Hy Hflip) as (s & Hs & Hs' & Hframe).
    exists x, y, s. repeat split; try lia; assumption.
Qed.

(** ** The spin invariant *)

Lemma is_spin_neg (s : Z) : is_spin s -> is_spin (to_spin_t (- s)).
Proof. intros [->| ->]; [now right|now left]. Qed.

Lemma spin_lattice_get (l : Lattice) (x y : Z) :
  spin_lattice l -> exists s, get l x y = Some s /\ is_spin s.
Proof.
  intros [Hwf Hspins]. destruct (get_total l Hwf x y) as (s & Hs & _).
  exists s. split; [exact Hs|]. rewrite get_wf in Hs by exact Hwf.
  rewrite Forall_lookup in Hspins. eapply Hspins, Hs.
Qed.

Lemma spin_lattice_flip (l l' : Lattice) (x y : Z) :
  spin_lattice l -> flip l x y = Some l' ->
  spin_lattice l' /\ cell_count l' = cell_count l.
Proof.
  intros [Hwf Hspins] Hflip.
  destruct (flip_preserves _ _ _ _ Hwf Hflip) as (Hwf' & Hw & Hh).
  split; [split; [exact Hwf'|]|unfold cell_count; now rewrite Hw, Hh].
  destruct (flip_wf l Hwf x y) as (s & Hs & Heq).
  rewrite Heq in Hflip. injection Hflip as <-. cbn [data].
  apply Forall_insert; [exact Hspins|]. apply is_spin_neg.
  rewrite Forall_lookup in Hspins. eapply Hspins, Hs.
Qed.

Lemma spin_lattice_fill (l : Lattice) (spin : Z) :
  wf_lattice l -> is_spin spin ->
  exists l', fillGroundState l spin = Some l' /\ spin_lattice l'.
Proof.
  intros Hwf Hspin.
  destruct (fillGroundState_wf l spin Hwf) as (l' & Hfill & Hwf' & _ & _ & Hd).
  exists l'. split; [exact Hfill|]. split; [exact Hwf'|].
  rewrite Hd. apply Forall_replicate.
  destruct Hspin as [->| ->]; [now left|now right].
Qed.

Lemma spin_lattice_sampler (l l' : Lattice) (beta : weight_t)
    (buffer buffer' : list weight_t) (calls calls' : nat) :
  spin_lattice l -> length buffer = cell_count l ->
  tryFlipOneSpin c_exp RAND_MAX rand_seq l beta buffer calls
    = Some (l', buffer', calls') ->
  spin_lattice l' /\ cell_count l' = cell_count l /\
  length buffer' = cell_count l /\ calls' = Datatypes.S calls.
Proof.
  intros Hspin Hlen Hstep. pose proof Hspin as [Hwf _].
  destruct (tryFlipOneSpin_cases l beta buffer calls Hwf Hlen)
    as (l1 & Heq & Hcases).
  rewrite Heq in Hstep. injection Hstep as <- <- <-.
  pose proof (length_normalized_weights l beta) as Hnlen.
  destruct Hcases as [->|(x & y & Hflip)].
  - split; [exact Hspin|]. split; [reflexivity|]. now split.
  - destruct (spin_lattice_flip l l1 x y Hspin Hflip) as [H1 H2].
    split; [exact H1|]. split; [exact H2|]. now split.
Qed.

Lemma wf_lattice_sampler (l l' : Lattice) (beta : weight_t)
    (buffer buffer' : list weight_t) (calls calls' : nat) :
  wf_lattice l -> length buffer = cell_count l ->
  tryFlipOneSpin c_exp RAND_MAX rand_seq l beta buffer calls
    = Some (l', buffer', calls') ->
  wf_lattice l' /\ cell_count l' = cell_count l /\
  length buffer' = cell_count l /\ calls' = Datatypes.S calls.
Proof.
  intros Hwf Hlen Hstep.
  destruct (tryFlipOneSpin_cases l beta buffer calls Hwf Hlen)
    as (l1 & Heq & Hcases).
  rewrite Heq in Hstep. injection Hstep as <- <- <-.
  pose proof (length_normalized_weights l beta) as Hnlen.
  destruct Hcases as [->|(x & y & Hflip)].
  - split; [exact Hwf|]. now repeat split.
  - destruct (flip_preserves _ _ _ _ Hwf Hflip) as (Hwf' & Hw & Hh).
    split; [exact Hwf'|]. unfold cell_count. rewrite Hw, Hh. now repeat split.
Qed.

(** ** The thermalization loop *)

(** A counter of at least [m] after the steps [es] means that the last [m]
    steps left the energy as it was. *)
Lemma unchanged_counter_spec (es : list Z) (hits e : Z) :
  0 <= hits ->
  0 <= unchanged_counter hits e es <= hits + Z.of_nat (length es) /\
  forall i : nat,
    Z.of_nat (length es) - unchanged_counter hits e es <= Z.of_nat i ->
    (i < length es)%nat ->
    (e :: es) !! i = (e :: es) !! Datatypes.S i.
Proof.
  revert hits e. induction es as [|e' es IH]; intros hits e Hhits.
  - cbn. split; [lia|]. intros i _ Hi. lia.
  - cbn [unchanged_counter length].
    set (hits' := if e =? e' then hits + 1 else 0).
    assert (Hhits' : 0 <= hits' <= hits + 1)
      by (unfold hits'; destruct (e =? e'); lia).
    destruct (IH hits' e' (proj1 Hhits')) as [Hrange Hlast].
    split; [lia|]. intros [|i] Hlow Hi.
    + cbn. f_equal. unfold hits' in *.
      destruct (Z.eqb_spec e e') as [Heq|_]; [exact Heq|lia].
    + apply (Hlast i); lia.
Qed.

(** On a lattice with positive dimensions the loop body never runs into
    undefined behaviour: [None] from the loop only means that the fuel ran
    out. *)
Lemma evolve_body_total (beta : weight_t) (max_hits : Z) (st : loop_state) :
  wf_lattice (ls_lattice st) ->
  length (ls_buffer st) = cell_count (ls_lattice st) ->
  exists o, evolve_body c_exp RAND_MAX rand_seq beta max_hits st = Some o.
Proof.
  intros Hwf Hlen. unfold evolve_body.
  destruct (tryFlipOneSpin_cases (ls_lattice st) beta (ls_buffer st)
              (ls_calls st) Hwf Hlen) as (l' & Hstep & _).
  destruct (wf_lattice_sampler _ _ _ _ _ _ _ Hwf Hlen Hstep) as (Hwf' & _).
  rewrite Hstep. destruct (calcEnergy_total l' Hwf') as (e & ->).
  destruct (max_hits <=? _); now eexists.
Qed.

Lemma evolve_loop_trace (beta : weight_t) (max_hits : Z) (fuel : nat)
    (st : loop_state) (l' : Lattice) (calls' : nat) :
  wf_lattice (ls_lattice st) ->
  length (ls_buffer st) = cell_count (ls_lattice st) ->
  calcEnergy (ls_lattice st) = Some (ls_energy st) ->
  0 <= ls_hits st -> ls_hits st < max_hits \/ ls_hits st = 0 ->
  max_hits < SIZE_MODULUS ->
  evolve_loop c_exp RAND_MAX rand_seq fuel beta max_hits st
    = Some (l', calls') ->
  exists lats es,
    sampler_steps c_exp RAND_MAX rand_seq beta (ls_calls st)
      (ls_lattice st :: lats) /\
    last lats = Some l' /\
    calls' = (ls_calls st + length lats)%nat /\
    (length lats <= fuel)%nat /\
    Forall2 (fun l e => calcEnergy l = Some e) lats es /\
    max_hits <= unchanged_counter (ls_hits st) (ls_energy st) es /\
    forall k, (0 < k < length es)%nat ->
      unchanged_counter (ls_hits st) (ls_energy st) (take k es) < max_hits.
Proof.
  revert st. induction fuel as [|fuel IH];
    intros [l buffer energy hits calls] Hwf Hlen He Hhits Hlt Hmax Hrun;
    [discriminate|].
  cbn [ls_lattice ls_buffer ls_energy ls_hits ls_calls] in *.
  cbn [evolve_loop] in Hrun. unfold evolve_body in Hrun.
  cbn [ls_lattice ls_buffer ls_energy ls_hits ls_calls] in Hrun.
  destruct (tryFlipOneSpin c_exp RAND_MAX rand_seq l beta buffer calls)
    as [[[l1 buffer1] calls1]|] eqn:Hstep; [|discriminate].
  destruct (wf_lattice_sampler _ _ _ _ _ _ _ Hwf Hlen Hstep)
    as (Hwf1 & Hcount & Hlen1 & ->).
  destruct (calcEnergy l1) as [e1|] eqn:He1; [|discriminate].
  assert (Hwrap : (if energy =? e1 then to_size_t (hits + 1) else 0)
                  = (if energy =? e1 then hits + 1 else 0)).
  { destruct (energy =? e1); [|reflexivity].
    apply to_size_t_small. unfold SIZE_MODULUS in *. lia. }
  rewrite Hwrap in Hrun. clear Hwrap.
  set (hits1 := if energy =? e1 then hits + 1 else 0) in *.
  assert (Hhits1 : 0 <= hits1) by (unfold hits1; destruct (energy =? e1); lia).
  destruct (Z.leb_spec max_hits hits1) as [Hge|Hless].
  - injection Hrun as <- <-. exists [l1], [e1].
    split; [eapply steps_next; [exact Hlen|exact Hstep|apply steps_done]|].
    split; [reflexivity|]. split; [cbn; lia|]. split; [cbn; lia|].
    split; [now repeat constructor|]. split; [exact Hge|].
    intros k Hk. cbn in Hk. lia.
  - destruct (IH (mkLoop l1 buffer1 e1 hits1 (Datatypes.S calls)))
      as (lats & es & Hsteps & Hlast & Hcalls & Hfuel & Hes & Hfin & Hpre);
      cbn [ls_lattice ls_buffer ls_energy ls_hits ls_calls];
      try assumption; try lia.
    exists (l1 :: lats), (e1 :: es).
    cbn [ls_lattice ls_buffer ls_energy ls_hits ls_calls] in *.
    split; [eapply steps_next; [exact Hlen|exact Hstep|exact Hsteps]|].
    split; [destruct lats; [discriminate|exact Hlast]|].
    split; [cbn; lia|]. split; [cbn; lia|].
    split; [now constructor|]. split; [exact Hfin|].
    intros [|k] Hk; [lia|]. cbn [take unchanged_counter]. fold hits1.
    destruct k as [|k]; [exact Hless|]. apply Hpre. cbn in Hk. lia.
Qed.

Lemma evolve_trace (fuel : nat) (l : Lattice) (beta : weight_t)
    (max_hits : Z) (calls : nat) (l' : Lattice) (calls' : nat) :
  wf_lattice l -> 0 <= max_hits < SIZE_MODULUS ->
  evolveIntoThermalState c_exp RAND_MAX rand_seq fuel l beta max_hits calls
    = Some (l', calls') ->
  exists lats es e0,
    sampler_steps c_exp RAND_MAX rand_seq beta calls (l :: lats) /\
    last lats = Some l' /\
    calls' = (calls + length lats)%nat /\
    (length lats <= fuel)%nat /\
    calcEnergy l = Some e0 /\
    Forall2 (fun l e => calcEnergy l = Some e) lats es /\
    max_hits <= unchanged_counter 0 e0 es /\
    forall k, (0 < k < length es)%nat ->
      unchanged_counter 0 e0 (take k es) < max_hits.
Proof.
  intros Hwf Hmax Hrun. unfold evolveIntoThermalState in Hrun.
  destruct (calcEnergy l) as [e0|] eqn:He0; [|discriminate].
  pose proof Hwf as [Hw Hh Hsz _ _].
  apply evolve_loop_trace in Hrun;
    cbn [ls_lattice ls_buffer ls_energy ls_hits ls_calls] in *;
    [ | exact Hwf | | exact He0 | lia | now right | lia ].
  - destruct Hrun as (lats & es & H1 & H2 & H3 & H4 & H5 & H6 & H7).
    exists lats, es, e0. now repeat split.
  - rewrite length_replicate, to_size_t_small; [reflexivity|].
    unfold SIZE_MODULUS, PTRDIFF_MAX in *. nia.
Qed.

(** C2: when the thermalization loop returns, it has made one sampler step
    after another; the consecutive-unchanged counter (one more when the
    energy after a step equals the energy before it, zero otherwise) has
    reached the patience threshold at the last step and at no step before;
    hence the last [patience] steps left the total energy unchanged. *)
Theorem evolve_returns_after_patience (fuel : nat) (l : Lattice)
    (beta : weight_t) (max_hits : Z) (calls : nat)
    (l' : Lattice) (calls' : nat) :
  wf_lattice l -> 0 <= max_hits < SIZE_MODULUS ->
  evolveIntoThermalState c_exp RAND_MAX rand_seq fuel l beta max_hits calls
    = Some (l', calls') ->
  exists lats es e0,
    sampler_steps c_exp RAND_MAX rand_seq beta calls (l :: lats) /\
    last lats = Some l' /\
    calls' = (calls + length lats)%nat /\
    calcEnergy l = Some e0 /\
    Forall2 (fun l e => calcEnergy l = Some e) lats es /\
    max_hits <= unchanged_counter 0 e0 es /\
    (forall k, (0 < k < length es)%nat ->
       unchanged_counter 0 e0 (take k es) < max_hits) /\
    max_hits <= Z.of_nat (length es) /\
    forall i : nat,
      Z.of_nat (length es) - max_hits <= Z.of_nat i -> (i < length es)%nat ->
      (e0 :: es) !! i = (e0 :: es) !! Datatypes.S i.
Proof.
  intros Hwf Hmax Hrun.
  destruct (evolve_trace _ _ _ _ _ _ _ Hwf Hmax Hrun)
    as (lats & es & e0 & Hsteps & Hlast & Hcalls & _ & He0 & Hes & Hfin & Hpre).
  exists lats, es, e0.
  destruct (unchanged_counter_spec es 0 e0) as [Hrange Hunch]; [lia|].
  split; [exact Hsteps|]. split; [exact Hlast|]. split; [exact Hcalls|].
  split; [exact He0|]. split; [exact Hes|]. split; [exact Hfin|].
  split; [exact Hpre|]. split; [lia|].
  intros i Hlow Hi. apply Hunch; lia.
Qed.

Lemma sampler_steps_spin (beta : weight_t) (calls : nat)
    (lats : list Lattice) :
  sampler_steps c_exp RAND_MAX rand_seq beta calls lats ->
  forall l lats', lats = l :: lats' -> spin_lattice l ->
    Forall spin_lattice lats'.
Proof.
  induction 1 as [calls l0|calls l0 l1 lats buffer buffer' Hlen Hstep _ IH];
    intros l lats' Heq Hspin; injection Heq as <- <-.
  - constructor.
  - destruct (spin_lattice_sampler _ _ _ _ _ _ _ Hspin Hlen Hstep)
      as (Hspin1 & _).
    constructor; [exact Hspin1|]. now apply (IH l1 lats).
Qed.

Lemma reachable_spin (l l' : Lattice) :
  spin_lattice l -> reachable c_exp RAND_MAX rand_seq l l' -> spin_lattice l'.
Proof.
  intros Hspin. induction 1 as
    [ | l1 l2 x y _ IH Hflip
      | l1 l2 beta buffer buffer' calls calls' _ IH Hlen Hstep
      | l1 l2 fuel beta max_hits calls calls' _ IH Hmax Hrun ].
  - exact Hspin.
  - now destruct (spin_lattice_flip _ _ _ _ IH Hflip).
  - now destruct (spin_lattice_sampler _ _ _ _ _ _ _ IH Hlen Hstep).
  - pose proof IH as [Hwf1 _].
    destruct (evolve_trace _ _ _ _ _ _ _ Hwf1 Hmax Hrun)
      as (lats & es & e0 & Hsteps & Hlast & _).
    pose proof (sampler_steps_spin _ _ _ Hsteps _ _ eq_refl IH) as Hall.
    rewrite Forall_forall in Hall. apply Hall.
    eapply last_Some_elem_of, Hlast.
Qed.

(** C9: once [fillGroundState] has filled a lattice with +1 or with -1,
    every lattice the program reaches from it by [flip], by a sampler step
    or by the thermalization loop holds +1 or -1 in every cell, and [get]
    returns nothing else. *)
Theorem spins_stay_spins (l0 l l' : Lattice) (spin : Z) :
  wf_lattice l0 -> is_spin spin ->
  fillGroundState l0 spin = Some l ->
  reachable c_exp RAND_MAX rand_seq l l' ->
  Forall is_spin (data l') /\
  forall x y, exists s, get l' x y = Some s /\ is_spin s.
Proof.
  intros Hwf Hspin Hfill Hreach.
  destruct (spin_lattice_fill l0 spin Hwf Hspin) as (l1 & Hfill1 & Hl1).
  rewrite Hfill in Hfill1. injection Hfill1 as <-.
  pose proof (reachable_spin l l' Hl1 Hreach) as Hl'.
  split; [exact (proj2 Hl')|].
  intros x y. now apply spin_lattice_get.
Qed.

End SamplerTheory.

(** ** The sampler and the loop on concrete inputs *)

Lemma tryFlipOneSpin_flips_selected_witness :
  exists l',
    tryFlipOneSpin exp_approx GLIBC_RAND_MAX example_rand_seq
      lattice_5x5 1%float (replicate 25 0%float) 0
    = Some (l', normalized_weights exp_approx lattice_5x5 1%float, 1%nat).
Proof.
  destruct (tryFlipOneSpin_flips_selected exp_approx GLIBC_RAND_MAX
              example_rand_seq lattice_5x5 1%float (replicate 25 0%float) 0
              wf_lattice_5x5 eq_refl) as (l' & Hstep & _).
  exists l'. exact Hstep.
Defined.

Lemma evolve_run_3x3 :
  evolveIntoThermalState exp_approx GLIBC_RAND_MAX example_rand_seq
    10 lattice_3x3 1%float 3 0
  = Some (mkLattice 3 3 [-1; 1; 1; 1; -1; 1; -1; 1; -1], 6%nat).
Proof. vm_compute. reflexivity. Qed.

Lemma evolve_returns_after_patience_witness :
  exists lats es e0,
    last lats = Some (mkLattice 3 3 [-1; 1; 1; 1; -1; 1; -1; 1; -1]) /\
    calcEnergy lattice_3x3 = Some e0 /\
    Forall2 (fun l e => calcEnergy l = Some e) lats es /\
    3 <= unchanged_counter 0 e0 es /\
    3 <= Z.of_nat (length es) /\
    forall i : nat,
      Z.of_nat (length es) - 3 <= Z.of_nat i -> (i < length es)%nat ->
      (e0 :: es) !! i = (e0 :: es) !! Datatypes.S i.
Proof.
  destruct (evolve_returns_after_patience exp_approx GLIBC_RAND_MAX
              example_rand_seq 10 lattice_3x3 1%float 3 0 _ _
              ltac:(solve_wf_lattice) ltac:(unfold SIZE_MODULUS; lia)
              evolve_run_3x3)
    as (lats & es & e0 & _ & Hlast & _ & He0 & Hes & Hfin & _ & Hlen & Hunch).
  exists lats, es, e0. now repeat split.
Defined.

Lemma spins_stay_spins_witness :
  Forall is_spin (data lattice_5x5) /\
  forall x y, exists s, get lattice_5x5 x y = Some s /\ is_spin s.
Proof.
  apply (spins_stay_spins exp_approx GLIBC_RAND_MAX example_rand_seq
           (allocateLattice 5 5) (mkLattice 5 5 (replicate 25 (-1)))
           lattice_5x5 SPIN_DOWN).
  - solve_wf_lattice.
  - now right.
  - reflexivity.
  - apply (reach_flip _ _ _ _ _ _ 0 0 (reach_refl _ _ _ _)). reflexivity.
Defined.

(** ** Binary64 division of integers *)

Lemma digits2_pos_bounds (p : positive) :
  2 ^ (Zpos (digits2_pos p) - 1) <= Zpos p < 2 ^ Zpos (digits2_pos p).
Proof.
  induction p as [p IH|p IH|]; cbn [digits2_pos].
  - rewrite Pos2Z.inj_succ. change (Zpos p~1) with (2 * Zpos p + 1).
    replace (Z.succ (Zpos (digits2_pos p)) - 1)
      with (Z.succ (Zpos (digits2_pos p) - 1)) by lia.
    rewrite !Z.pow_succ_r by lia.
    revert IH. generalize (2 ^ (Zpos (digits2_pos p) - 1)).
    generalize (2 ^ Zpos (digits2_pos p)). intros; lia.
  - rewrite Pos2Z.inj_succ. change (Zpos p~0) with (2 * Zpos p).
    replace (Z.succ (Zpos (digits2_pos p)) - 1)
      with (Z.succ (Zpos (digits2_pos p) - 1)) by lia.
    rewrite !Z.pow_succ_r by lia.
    revert IH. generalize (2 ^ (Zpos (digits2_pos p) - 1)).
    generalize (2 ^ Zpos (digits2_pos p)). intros; lia.
  - cbn. lia.
Qed.

Lemma digits2_pos_unique (p : positive) (n : Z) :
  2 ^ (n - 1) <= Zpos p < 2 ^ n -> Zpos (digits2_pos p) = n.
Proof.
  intros [Hlo Hhi]. pose proof (digits2_pos_bounds p) as [Hlo' Hhi'].
  assert (0 < n).
  { destruct (Z.lt_ge_cases 0 n) as [?|Hn]; [assumption|].
    assert (2 ^ n <= 2 ^ 0) by (apply Z.pow_le_mono_r; lia).
    cbn in *. lia. }
  destruct (Z.lt_trichotomy (Zpos (digits2_pos p)) n) as [Hlt|[Heq|Hgt]];
    [|exact Heq|].
  - assert (2 ^ Zpos (digits2_pos p) <= 2 ^ (n - 1))
      by (apply Z.pow_le_mono_r; lia). lia.
  - assert (2 ^ n <= 2 ^ (Zpos (digits2_pos p) - 1))
      by (apply Z.pow_le_mono_r; lia). lia.
Qed.

Lemma iter_xO_value (p n : positive) :
  Zpos (Pos.iter xO p n) = Zpos p * 2 ^ Zpos n.
Proof.
  induction n as [|n IH] using Pos.peano_ind.
  - cbn. lia.
  - rewrite Pos.iter_succ.
    change (Zpos (Pos.iter xO p n)~0) with (2 * Zpos (Pos.iter xO p n)).
    rewrite IH, Pos2Z.inj_succ, Z.pow_succ_r by lia. lia.
Qed.

Lemma fexp_normal (e : Z) : -1021 <= e -> fexp prec emax e = e - 53.
Proof. intros He. unfold fexp, SpecFloat.emin, prec, emax. lia. Qed.

Lemma loc_of_shr_record_of_loc (m : Z) (l : location) :
  loc_of_shr_record (shr_record_of_loc m l) = l /\
  shr_m (shr_record_of_loc m l) = m.
Proof. destruct l as [|[]]; now split. Qed.

(** A 53-bit mantissa that needs no rounding. *)
Lemma binary_round_aux_exact (m : positive) (e : Z) :
  Zpos (digits2_pos m) = 53 -> -1074 <= e <= 971 ->
  binary_round_aux prec emax false (Zpos m) e loc_Exact
  = S754_finite false m e.
Proof.
  intros Hd He. unfold binary_round_aux, shr_fexp. cbn [Zdigits2].
  rewrite Hd, fexp_normal by lia.
  replace (53 + e - 53 - e) with 0 by lia. cbn [shr shr_record_of_loc shr_m
    loc_of_shr_record round_nearest_even Zdigits2].
  rewrite Hd, fexp_normal by lia.
  replace (53 + e - 53 - e) with 0 by lia. cbn [shr shr_record_of_loc shr_m].
  destruct (Z.leb_spec e (emax - prec)) as [_|Hgt];
    [reflexivity|unfold emax, prec in Hgt; lia].
Qed.

(** The binary64 number of a positive integer below [2^53]. *)
Lemma binary_normalize_pos (p : positive) :
  Zpos p < 2 ^ 53 ->
  exists m,
    binary_normalize prec emax (Zpos p) 0 false
      = S754_finite false m (Zpos (digits2_pos p) - 53) /\
    Zpos (digits2_pos m) = 53 /\
    Zpos m = Zpos p * 2 ^ (53 - Zpos (digits2_pos p)).
Proof.
  intros Hp. pose proof (digits2_pos_bounds p) as [Hlo Hhi].
  set (d := Zpos (digits2_pos p)) in *.
  assert (Hd : 1 <= d <= 53).
  { split; [unfold d; lia|].
    destruct (Z.le_gt_cases d 53) as [?|Hgt]; [assumption|].
    assert (2 ^ 53 <= 2 ^ (d - 1)) by (apply Z.pow_le_mono_r; lia). lia. }
  cbn [binary_normalize]. unfold binary_round, shl_align.
  fold d. rewrite Z.add_0_r, fexp_normal, Z.sub_0_r by lia.
  destruct (d - 53) as [|n|n] eqn:Hn; [|lia|].
  - exists p. assert (d = 53) by lia.
    rewrite binary_round_aux_exact by (fold d; lia).
    split; [reflexivity|]. split; [assumption|].
    replace (53 - d) with 0 by lia. lia.
  - exists (Pos.iter xO p n).
    assert (Hval : Zpos (Pos.iter xO p n) = Zpos p * 2 ^ (53 - d))
      by (rewrite iter_xO_value; f_equal; f_equal; lia).
    assert (Hdig : Zpos (digits2_pos (Pos.iter xO p n)) = 53).
    { apply digits2_pos_unique. rewrite Hval.
      replace (2 ^ (53 - 1)) with (2 ^ (d - 1) * 2 ^ (53 - d))
        by (rewrite <- Z.pow_add_r by lia; f_equal; lia).
      replace (2 ^ 53) with (2 ^ d * 2 ^ (53 - d))
        by (rewrite <- Z.pow_add_r by lia; f_equal; lia).
      assert (0 < 2 ^ (53 - d)) by (apply Z.pow_pos_nonneg; lia).
      split; [apply Z.mul_le_mono_nonneg_r|apply Z.mul_lt_mono_pos_r]; lia. }
    rewrite binary_round_aux_exact by lia.
    split; [f_equal; lia|]. now split.
Qed.

Lemma binary_round_aux_finish (m e : Z) (l : location) :
  binary_round_aux prec emax false m e l
  = let '(mrs, e') := shr_fexp prec emax m e l in
    round_finish (round_nearest_even (shr_m mrs) (loc_of_shr_record mrs)) e'.
Proof. reflexivity. Qed.

Lemma round_finish_53 (m : positive) (e : Z) :
  Zpos (digits2_pos m) = 53 -> -1074 <= e <= 971 ->
  round_finish (Zpos m) e = S754_finite false m e.
Proof.
  intros Hd He. unfold round_finish, shr_fexp. cbn [Zdigits2].
  rewrite Hd, fexp_normal by lia.
  replace (53 + e - 53 - e) with 0 by lia. cbn [shr shr_record_of_loc shr_m].
  destruct (Z.leb_spec e (emax - prec)) as [_|Hgt];
    [reflexivity|unfold emax, prec in Hgt; lia].
Qed.

Lemma round_finish_pow53 (e : Z) :
  -1074 <= e <= 970 ->
  round_finish (2 ^ 53) e = S754_finite false (2 ^ 52) (e + 1).
Proof.
  intros He. unfold round_finish, shr_fexp.
  change (Zdigits2 (2 ^ 53)) with 54. rewrite fexp_normal by lia.
  replace (54 + e - 53 - e) with 1 by lia.
  change (2 ^ 53) with 9007199254740992.
  cbn [shr shr_record_of_loc SpecFloat.iter_pos shr_1 shr_m].
  replace (e + 1 <=? emax - prec) with true
    by (symmetry; apply Z.leb_le; unfold emax, prec; lia).
  reflexivity.
Qed.

Lemma round_nearest_even_cases (m : Z) (l : location) :
  round_nearest_even m l = m \/ round_nearest_even m l = m + 1.
Proof. destruct l as [|[]]; cbn; try destruct (Z.even m); auto. Qed.

(** Rounding a 53-bit mantissa and renormalizing: the mantissa stays or
    moves up by one, and only [2^53 - 1] can carry into the exponent. *)
Lemma round_finish_round (p : positive) (e : Z) (l : location) :
  Zpos (digits2_pos p) = 53 -> -1074 <= e <= 970 ->
  exists m e2,
    round_finish (round_nearest_even (Zpos p) l) e = S754_finite false m e2 /\
    Zpos (digits2_pos m) = 53 /\
    ((e2 = e /\ Zpos p <= Zpos m <= Zpos p + 1) \/
     (e2 = e + 1 /\ Zpos m = 2 ^ 52 /\ Zpos p + 1 = 2 ^ 53)).
Proof.
  intros Hd He. pose proof (digits2_pos_bounds p) as Hp. rewrite Hd in Hp.
  destruct (round_nearest_even_cases (Zpos p) l) as [-> | ->].
  - exists p, e. rewrite round_finish_53 by lia. split; [reflexivity|].
    split; [exact Hd|]. left. lia.
  - destruct (Z.eq_dec (Zpos p + 1) (2 ^ 53)) as [Heq|Hne].
    + rewrite Heq, round_finish_pow53 by lia. exists (2 ^ 52)%positive, (e + 1).
      split; [reflexivity|]. split; [reflexivity|]. right. now repeat split.
    + replace (Zpos p + 1) with (Zpos (p + 1)) by lia.
      assert (Hd1 : Zpos (digits2_pos (p + 1)) = 53)
        by (apply digits2_pos_unique; lia).
      exists (p + 1)%positive, e. rewrite round_finish_53 by lia.
      split; [reflexivity|]. split; [exact Hd1|]. left. lia.
Qed.

Lemma binary_round_aux_53 (q : positive) (e : Z) (l : location) :
  Zpos (digits2_pos q) = 53 -> -1074 <= e <= 970 ->
  exists m e2,
    binary_round_aux prec emax false (Zpos q) e l = S754_finite false m e2 /\
    Zpos (digits2_pos m) = 53 /\
    ((e2 = e /\ Zpos q <= Zpos m <= Zpos q + 1) \/
     (e2 = e + 1 /\ Zpos m = 2 ^ 52 /\ Zpos q + 1 = 2 ^ 53)).
Proof.
  intros Hd He. rewrite binary_round_aux_finish. unfold shr_fexp.
  cbn [Zdigits2]. rewrite Hd, fexp_normal by lia.
  replace (53 + e - 53 - e) with 0 by lia. cbn [shr].
  destruct (loc_of_shr_record_of_loc (Zpos q) l) as [-> ->].
  now apply round_finish_round.
Qed.

Lemma binary_round_aux_54 (q : positive) (e : Z) (l : location) :
  Zpos (digits2_pos q) = 54 -> -1074 <= e <= 969 ->
  exists m e2,
    binary_round_aux prec emax false (Zpos q) e l = S754_finite false m e2 /\
    Zpos (digits2_pos m) = 53 /\
    ((e2 = e + 1 /\ Zpos q / 2 <= Zpos m <= Zpos q / 2 + 1) \/
     (e2 = e + 2 /\ Zpos m = 2 ^ 52 /\ Zpos q / 2 + 1 = 2 ^ 53)).
Proof.
  intros Hd He. rewrite binary_round_aux_finish. unfold shr_fexp.
  cbn [Zdigits2]. rewrite Hd, fexp_normal by lia.
  replace (54 + e - 53 - e) with 1 by lia. cbn [shr SpecFloat.iter_pos].
  assert (Hhalf : exists p,
    Zpos (digits2_pos p) = 53 /\ Zpos q / 2 = Zpos p /\
    shr_m (shr_1 (shr_record_of_loc (Zpos q) l)) = Zpos p).
  { destruct q as [p|p|]; [| |discriminate]; exists p;
      cbn [digits2_pos] in Hd; rewrite Pos2Z.inj_succ in Hd;
      (split; [lia|]); split.
    - change (Zpos p~1) with (2 * Zpos p + 1).
      symmetry. apply (Z.div_unique_pos _ _ _ 1); lia.
    - destruct l as [|[]]; reflexivity.
    - change (Zpos p~0) with (2 * Zpos p).
      symmetry. apply (Z.div_unique_pos _ _ _ 0); lia.
    - destruct l as [|[]]; reflexivity. }
  destruct Hhalf as (p & Hdp & -> & ->).
  destruct (round_finish_round p (e + 1)
              (loc_of_shr_record (shr_1 (shr_record_of_loc (Zpos q) l))) Hdp)
    as (m & e2 & Hf & Hm & Hcases); [lia|].
  exists m, e2. split; [exact Hf|]. split; [exact Hm|].
  now replace (e + 2) with (e + 1 + 1) by lia.
Qed.

Lemma SFdiv_core_normal (mx my : positive) (ex ey : Z) :
  Zpos (digits2_pos mx) = 53 -> Zpos (digits2_pos my) = 53 ->
  -52 <= ex - ey <= 52 ->
  SFdiv_core_binary prec emax (Zpos mx) ex (Zpos my) ey
  = (Zpos mx * 2 ^ 53 / Zpos my, ex - ey - 53,
     new_location (Zpos my) ((Zpos mx * 2 ^ 53) mod Zpos my)).
Proof.
  intros Hx Hy He. unfold SFdiv_core_binary. cbn [Zdigits2].
  rewrite Hx, Hy.
  replace (53 + ex - (53 + ey)) with (ex - ey) by lia.
  rewrite fexp_normal, Z.min_l by lia.
  replace (ex - ey - (ex - ey - 53)) with 53 by lia.
  rewrite Z.shiftl_mul_pow2 by lia.
  unfold Z.div, Z.modulo.
  now destruct (Z.div_eucl (Zpos mx * 2 ^ 53) (Zpos my)) as [q r].
Qed.

(** The quotient of two normal numbers with [x <= y] is at most one; it
    is one when they are equal, and below one when they are the numbers of
    two integers [k < M < 2^53]. *)
Lemma SFdiv_le_one (mx my : positive) (ex ey : Z) :
  Zpos (digits2_pos mx) = 53 -> Zpos (digits2_pos my) = 53 ->
  -52 <= ex <= 0 -> -52 <= ey <= 0 ->
  ex < ey \/ (ex = ey /\ Zpos mx <= Zpos my) ->
  exists m e,
    SFdiv prec emax (S754_finite false mx ex) (S754_finite false my ey)
      = S754_finite false m e /\
    (e < -52 \/ (e = -52 /\ m = (2 ^ 52)%positive)) /\
    (ex = ey -> mx = my -> e = -52 /\ m = (2 ^ 52)%positive) /\
    (forall k M, Zpos mx = k * 2 ^ (- ex) -> Zpos my = M * 2 ^ (- ey) ->
       k < M < 2 ^ 53 -> e < -52).
Proof.
  intros Hx Hy Hex Hey Hle. cbn [SFdiv xorb].
  rewrite SFdiv_core_normal by lia.
  pose proof (digits2_pos_bounds mx) as Hmx. rewrite Hx in Hmx.
  pose proof (digits2_pos_bounds my) as Hmy. rewrite Hy in Hmy.
  change (2 ^ (53 - 1)) with (2 ^ 52) in *.
  set (q := Zpos mx * 2 ^ 53 / Zpos my).
  assert (Hq_lo : 2 ^ 52 <= q).
  { apply Z.div_le_lower_bound; [lia|]. nia. }
  assert (Hq_hi : q < 2 ^ 54).
  { apply Z.div_lt_upper_bound; [lia|]. nia. }
  assert (Hq_mul : Zpos my * q <= Zpos mx * 2 ^ 53)
    by (apply Z.mul_div_le; lia).
  destruct q as [|qp|qp] eqn:Hq; [lia| |lia].
  destruct (Z.lt_ge_cases (Zpos qp) (2 ^ 53)) as [Hsmall|Hbig].
  - assert (Hd : Zpos (digits2_pos qp) = 53)
      by (apply digits2_pos_unique; change (2 ^ (53 - 1)) with (2 ^ 52); lia).
    destruct (binary_round_aux_53 qp (ex - ey - 53)
                (new_location (Zpos my) ((Zpos mx * 2 ^ 53) mod Zpos my)) Hd)
      as (m & e & Hr & Hm & Hcases); [lia|].
    exists m, e. split; [exact Hr|]. split; [|split].
    + destruct Hcases as [[-> _]|(-> & Hm52 & _)]; [left; lia|].
      destruct (Z.eq_dec ex ey) as [Heq|Hne]; [right|left; lia].
      split; [lia|]. now apply Pos2Z.inj.
    + intros Heq Hmm. exfalso. subst my.
      assert (q = 2 ^ 53)
        by (unfold q; rewrite Z.mul_comm; apply Z.div_mul; lia).
      lia.
    + intros k M Hk HM HkM.
      destruct Hcases as [[-> _]|(-> & _ & Hover)]; [lia|].
      destruct (Z.eq_dec ex ey) as [Heq|Hne]; [exfalso|lia]. subst ey.
      assert (0 < 2 ^ (- ex)) by (apply Z.pow_pos_nonneg; lia).
      assert (Hlt : Zpos mx < Zpos my) by nia.
      assert (q < 2 ^ 53 - 1); [|lia].
      unfold q. apply Z.div_lt_upper_bound; [lia|]. nia.
  - assert (Hd : Zpos (digits2_pos qp) = 54)
      by (apply digits2_pos_unique; change (2 ^ (54 - 1)) with (2 ^ 53); lia).
    destruct Hle as [Hlt|[Heq Hmle]].
    + destruct (binary_round_aux_54 qp (ex - ey - 53)
                (new_location (Zpos my) ((Zpos mx * 2 ^ 53) mod Zpos my)) Hd)
        as (m & e & Hr & Hm & Hcases); [lia|].
      exists m, e. split; [exact Hr|]. split; [|split; [lia|]].
      * destruct Hcases as [[-> _]|(-> & Hm52 & _)]; [left; lia|].
        destruct (Z.eq_dec (ex - ey - 53 + 2) (-52)) as [He2|He2];
          [right|left; lia].
        split; [exact He2|]. now apply Pos2Z.inj.
      * intros k M Hk HM HkM.
        destruct Hcases as [[-> _]|(-> & _ & Hover)]; [lia|].
        destruct (Z.eq_dec (ex - ey) (-1)) as [He1|He1]; [exfalso|lia].
        assert (Hqp : 2 ^ 54 - 2 <= Zpos qp).
        { pose proof (Z.mul_div_le (Zpos qp) 2 ltac:(lia)). lia. }
        replace (- ex) with (Z.succ (- ey)) in Hk by lia.
        rewrite Z.pow_succ_r in Hk by lia.
        assert (HP : 0 < 2 ^ (- ey)) by (apply Z.pow_pos_nonneg; lia).
        revert Hk HM HP. generalize (2 ^ (- ey)). intros P Hk HM HP.
        assert (M * (2 ^ 54 - 2) * P <= k * 2 ^ 54 * P) by nia.
        assert (M * (2 ^ 54 - 2) <= k * 2 ^ 54)
          by (apply (Z.mul_le_mono_pos_r _ _ P); assumption).
        lia.
    + assert (Hq53 : q <= 2 ^ 53).
      { unfold q. apply Z.lt_succ_r, Z.div_lt_upper_bound; [lia|]. nia. }
      assert (Hmm : Zpos mx = Zpos my).
      { destruct (Z.eq_dec (Zpos mx) (Zpos my)) as [?|Hne]; [assumption|].
        assert (q < 2 ^ 53); [|lia].
        unfold q. apply Z.div_lt_upper_bound; [lia|]. nia. }
      apply Pos2Z.inj in Hmm. subst my ey.
      assert (Hqv : Zpos qp = 2 ^ 53) by lia.
      rewrite Hqv, (Z.mul_comm (Zpos mx)), Z.mod_mul, Z.sub_diag by lia.
      exists (2 ^ 52)%positive, (-52). split.
      * unfold new_location, new_location_even, new_location_odd.
        destruct (Z.even (Zpos mx)); reflexivity.
      * split; [right; now split|]. split; [now split|].
        intros k M Hk HM HkM. exfalso.
        assert (0 < 2 ^ (- ex)) by (apply Z.pow_pos_nonneg; lia). nia.
Qed.

Lemma Prim2SF_double_of_Z_pos (p : positive) :
  Zpos p < 2 ^ 53 ->
  exists m,
    Prim2SF (double_of_Z (Zpos p))
      = S754_finite false m (Zpos (digits2_pos p) - 53) /\
    Zpos (digits2_pos m) = 53 /\
    Zpos m = Zpos p * 2 ^ (53 - Zpos (digits2_pos p)).
Proof.
  intros Hp. destruct (binary_normalize_pos p Hp) as (m & Hn & Hd & Hm).
  exists m. split; [|now split]. unfold double_of_Z. rewrite Hn.
  apply Prim2SF_SF2Prim. cbn [valid_binary]. unfold bounded, canonical_mantissa.
  pose proof (digits2_pos_bounds p) as [Hlo Hhi].
  assert (Zpos (digits2_pos p) <= 53).
  { destruct (Z.le_gt_cases (Zpos (digits2_pos p)) 53) as [?|Hgt];
      [assumption|].
    assert (2 ^ 53 <= 2 ^ (Zpos (digits2_pos p) - 1))
      by (apply Z.pow_le_mono_r; lia). lia. }
  rewrite Hd, fexp_normal by lia. apply andb_true_intro. split.
  - apply Z.eqb_eq. lia.
  - apply Z.leb_le. unfold emax, prec. lia.
Qed.

(** The quotient of the binary64 numbers of two integers [0 <= k <= M],
    [0 < M < 2^53]: between 0 and 1, below 1 when [k < M], and 1 when
    [k = M]. *)
Lemma double_div_range (k M : Z) :
  0 < M < 2 ^ 53 -> 0 <= k <= M ->
  (0 <=? double_of_Z k / double_of_Z M)%float = true /\
  (double_of_Z k / double_of_Z M <=? 1)%float = true /\
  (double_of_Z k / double_of_Z M <? 1)%float = (k <? M) /\
  (k = M -> (double_of_Z k / double_of_Z M)%float = 1%float).
Proof.
  intros HM Hk. rewrite !leb_spec, ltb_spec, div_spec.
  change (Prim2SF 0) with (S754_zero false).
  change (Prim2SF 1) with SF_one.
  destruct M as [|pM|pM]; [lia| |lia].
  destruct (Prim2SF_double_of_Z_pos pM) as (my & -> & Hdy & Hmy); [lia|].
  pose proof (digits2_pos_bounds pM) as HbM.
  destruct k as [|pk|pk]; [| |lia].
  - change (Prim2SF (double_of_Z 0)) with (S754_zero false).
    cbn. repeat split. intros Heq. discriminate.
  - destruct (Prim2SF_double_of_Z_pos pk) as (mx & Hpx & Hdx & Hmx); [lia|].
    pose proof (digits2_pos_bounds pk) as Hbk.
    set (dk := Zpos (digits2_pos pk)) in *.
    set (dM := Zpos (digits2_pos pM)) in *.
    assert (HdM : dM <= 53).
    { destruct (Z.le_gt_cases dM 53) as [?|Hgt]; [assumption|].
      assert (2 ^ 53 <= 2 ^ (dM - 1)) by (apply Z.pow_le_mono_r; lia). lia. }
    assert (Hdk : 1 <= dk <= dM).
    { split; [unfold dk; lia|].
      destruct (Z.le_gt_cases dk dM) as [?|Hgt]; [assumption|].
      assert (2 ^ dM <= 2 ^ (dk - 1)) by (apply Z.pow_le_mono_r; lia). lia. }
    assert (HdM1 : 1 <= dM) by (unfold dM; lia).
    destruct (SFdiv_le_one mx my (dk - 53) (dM - 53) Hdx Hdy)
      as (m & e & Hdiv & Hle & Hone & Hlt); [lia|lia| |].
    { destruct (Z.eq_dec dk dM) as [Heq|Hne]; [right|left; lia].
      split; [lia|]. rewrite Hmx, Hmy, Heq.
      apply Z.mul_le_mono_nonneg_r; [apply Z.pow_nonneg|]; lia. }
    rewrite Hpx. unfold SF64div. rewrite Hdiv.
    split; [reflexivity|]. split; [|split].
    + unfold SFleb, SF_one. cbn [SFcompare].
      destruct Hle as [He|[-> ->]]; [|reflexivity].
      now rewrite (proj2 (Z.compare_lt_iff e (-52)) He).
    + destruct (Z.ltb_spec (Zpos pk) (Zpos pM)) as [Hstrict|Hnot].
      * assert (He : e < -52).
        { apply (Hlt (Zpos pk) (Zpos pM)); [| |lia].
          - rewrite Hmx. do 2 f_equal. lia.
          - rewrite Hmy. do 2 f_equal. lia. }
        unfold SFltb, SF_one. cbn [SFcompare].
        now rewrite (proj2 (Z.compare_lt_iff e (-52)) He).
      * assert (Heq : pk = pM) by lia. subst pk.
        destruct (Hone eq_refl) as [-> ->].
        { apply Pos2Z.inj. rewrite Hmx, Hmy. reflexivity. }
        reflexivity.
    + intros Heq. assert (pk = pM) by congruence. subst pk dk dM.
      assert (mx = my) by (apply Pos2Z.inj; rewrite Hmx, Hmy; reflexivity).
      subst my. destruct (Hone eq_refl eq_refl) as [-> ->].
      apply Prim2SF_inj. rewrite div_spec, Hpx. unfold SF64div.
      rewrite Hdiv. reflexivity.
Qed.

(** ** The random source *)

(** C6 (as stated, refuted): when [rand()] returns [RAND_MAX],
    [uniformRandom] returns exactly 1, which is not below 1; shown for
    glibc's [RAND_MAX] and for the least value the C standard allows. *)
Lemma uniformRandom_reaches_one :
  (uniformRandom GLIBC_RAND_MAX (fun _ => GLIBC_RAND_MAX) 0).1 = 1%float /\
  ((uniformRandom GLIBC_RAND_MAX (fun _ => GLIBC_RAND_MAX) 0).1 <? 1)%float
    = false /\
  (uniformRandom 32767 (fun _ => 32767) 0).1 = 1%float.
Proof. repeat split; vm_compute; reflexivity. Qed.

(** C6 (amended): for every [RAND_MAX] below [2^53] and every generator
    output in [0, RAND_MAX], the value of [uniformRandom] lies in the
    closed interval [0, 1]; it is below 1 exactly when the output is below
    [RAND_MAX], and it is 1 when the output is [RAND_MAX]. *)
Theorem uniformRandom_range (RAND_MAX : Z) (rand_seq : nat -> Z)
    (calls : nat) :
  0 < RAND_MAX < 2 ^ 53 -> 0 <= rand_seq calls <= RAND_MAX ->
  (0 <=? (uniformRandom RAND_MAX rand_seq calls).1)%float = true /\
  ((uniformRandom RAND_MAX rand_seq calls).1 <=? 1)%float = true /\
  ((uniformRandom RAND_MAX rand_seq calls).1 <? 1)%float
    = (rand_seq calls <? RAND_MAX) /\
  (rand_seq calls = RAND_MAX ->
   (uniformRandom RAND_MAX rand_seq calls).1 = 1%float).
Proof.
  intros Hmax Hk. unfold uniformRandom, rand. cbn [fst].
  now apply double_div_range.
Qed.

Lemma uniformRandom_range_witness :
  (0 <=? (uniformRandom GLIBC_RAND_MAX example_rand_seq 1).1)%float = true /\
  ((uniformRandom GLIBC_RAND_MAX example_rand_seq 1).1 <=? 1)%float = true.
Proof.
  destruct (uniformRandom_range GLIBC_RAND_MAX example_rand_seq 1)
    as (H0 & H1 & _).
  - unfold GLIBC_RAND_MAX. lia.
  - split; apply Z.leb_le; reflexivity.
  - now split.
Defined.

(** With the draw 1 the inverse-CDF walk can end without a flip: on the
    2 x 2 ground state the four normalized weights are 1/4 each, their sum
    is exactly 1, and no running sum exceeds the draw. *)
Lemma tryFlipOneSpin_skips_on_one :
  tryFlipOneSpin exp_approx GLIBC_RAND_MAX (fun _ => GLIBC_RAND_MAX)
    lattice_2x2 1%float (replicate 4 0%float) 0
  = Some (lattice_2x2, replicate 4 0.25%float, 1%nat).
Proof. vm_compute. reflexivity. Qed.

(* ================================================================== *)
(** * Further properties of the code *)

(** ** Storage: safety and round trips *)

(** X1: On a lattice the program can hold, every coordinate is reduced to an
    index inside the buffer: [get], [set] and [flip] never leave it. *)
Theorem access_in_bounds (l : Lattice) (x y v : Z) :
  wf_lattice l ->
  exists i s,
    getIndex l x y = Some i /\
    0 <= i < Z.of_nat (length (data l)) /\
    get l x y = Some s /\ is_spin_t s /\
    is_Some (set l x y v) /\ is_Some (flip l x y).
Proof.
  intros Hwf. destruct (get_total l Hwf x y) as (s & Hs & Hrange).
  exists (cell_index l x y), s.
  split; [now apply getIndex_wf|].
  split; [now apply cell_index_bound|].
  split; [exact Hs|]. split; [exact Hrange|]. split.
  - rewrite set_wf by exact Hwf. now eexists.
  - destruct (flip_wf l Hwf x y) as (s' & _ & ->). now eexists.
Qed.

Lemma access_in_bounds_witness :
  exists i s,
    getIndex lattice_5x5 (to_size_t (-1)) 7 = Some i /\
    0 <= i < Z.of_nat (length (data lattice_5x5)) /\
    get lattice_5x5 (to_size_t (-1)) 7 = Some s /\ is_spin_t s /\
    is_Some (set lattice_5x5 (to_size_t (-1)) 7 1) /\
    is_Some (flip lattice_5x5 (to_size_t (-1)) 7).
Proof. exact (access_in_bounds lattice_5x5 _ 7 1 wf_lattice_5x5). Defined.

(** X2: [get] and [set] at one coordinate, whatever the coordinate: [get]
    after [set] returns the stored value (converted to [int8_t]), writing
    back what [get] returned leaves the lattice as it was, and a second
    [set] overwrites the first.  [set] keeps the dimensions and the buffer
    size. *)
Theorem get_set_laws (l : Lattice) (x y v : Z) :
  wf_lattice l ->
  exists l' s,
    set l x y v = Some l' /\ get l x y = Some s /\
    wf_lattice l' /\ width l' = width l /\ height l' = height l /\
    length (data l') = length (data l) /\
    get l' x y = Some (to_spin_t v) /\
    set l x y s = Some l /\
    forall v2, set l' x y v2 = set l x y v2.
Proof.
  intros Hwf. destruct (set l x y v) as [l'|] eqn:Hset;
    [|now rewrite set_wf in Hset].
  destruct (set_preserves _ _ _ _ _ Hwf Hset) as (Hwf' & Hw & Hh).
  pose proof (get_set_same _ _ _ _ _ Hwf Hset) as Hget.
  destruct (get_total l Hwf x y) as (s & Hs & Hrange).
  exists l', s. split; [reflexivity|]. split; [exact Hs|].
  split; [exact Hwf'|]. split; [exact Hw|]. split; [exact Hh|].
  split; [|split; [exact Hget|split]].
  - rewrite set_wf in Hset by exact Hwf. injection Hset as <-.
    cbn. apply length_insert.
  - rewrite set_wf by exact Hwf. rewrite get_wf in Hs by exact Hwf.
    rewrite to_spin_t_small, list_insert_id by assumption.
    now destruct l.
  - intros v2. rewrite !set_wf by assumption.
    rewrite set_wf in Hset by exact Hwf. injection Hset as <-.
    unfold cell_index. cbn [width height data].
    now rewrite list_insert_insert_eq.
Qed.

Lemma get_set_laws_witness :
  exists l',
    set lattice_5x5 3 4 1 = Some l' /\ get l' 3 4 = Some (to_spin_t 1) /\
    set lattice_5x5 3 4 (-1) = Some lattice_5x5.
Proof.
  destruct (get_set_laws lattice_5x5 3 4 1 wf_lattice_5x5)
    as (l' & s & Hset & Hs & _ & _ & _ & _ & Hget & Hback & _).
  exists l'. split; [exact Hset|]. split; [exact Hget|].
  injection Hs as <-. exact Hback.
Defined.
(** ** Allocation and constant lattices *)

Lemma calcEnergy_constant (l : Lattice) (s : Z) :
  wf_lattice l -> Forall (eq s) (data l) ->
  calcEnergy l = Some (to_energy_t (4 * (width l * height l) * (s * s))).
Proof.
  intros Hwf Hall. pose proof Hwf as [Hw Hh _ _ _].
  assert (Hget : forall x y, get l x y = Some s).
  { intros x y. destruct (get_total l Hwf x y) as (c & Hc & _).
    rewrite Hc. f_equal. rewrite get_wf in Hc by exact Hwf.
    rewrite Forall_lookup in Hall. symmetry. eapply Hall, Hc. }
  destruct (nested_loop_inv (fun i e => e = to_energy_t (4 * i * (s * s)))
    (fun x y energy =>
      c <- get l x y ;;
      r <- get l (to_size_t (x + 1)) y ;;
      let energy := to_energy_t (energy + c * r) in
      c <- get l x y ;;
      r <- get l (to_size_t (x - 1)) y ;;
      let energy := to_energy_t (energy + c * r) in
      c <- get l x y ;;
      r <- get l x (to_size_t (y + 1)) ;;
      let energy := to_energy_t (energy + c * r) in
      c <- get l x y ;;
      r <- get l x (to_size_t (y - 1)) ;;
      Some (to_energy_t (energy + c * r)))
    (width l) (height l) 0) as (e & He & ->); [lia|lia|reflexivity| |].
  - intros x y e _ _ ->. rewrite !Hget.
    eexists. split; [reflexivity|].
    repeat (rewrite to_energy_t_add || rewrite <- Z.add_assoc).
    f_equal. lia.
  - exact He.
Qed.

Lemma allocateLattice_wf (w h : Z) :
  0 < w -> 0 < h -> w * h <= PTRDIFF_MAX ->
  wf_lattice (allocateLattice w h) /\
  data (allocateLattice w h) = replicate (Z.to_nat (w * h)) 0.
Proof.
  intros Hw Hh Hsz. unfold allocateLattice.
  rewrite to_size_t_small by (unfold SIZE_MODULUS, PTRDIFF_MAX in *; nia).
  split; [|reflexivity]. constructor; cbn; try assumption.
  - rewrite length_replicate. nia.
  - apply Forall_replicate. unfold is_spin_t. lia.
Qed.



(** X4: When [width * height] does not fit [size_t], [allocateLattice]
    allocates the product modulo [2^64]: the buffer is too small, and the
    access to some in-range cell is outside it. *)
Theorem allocateLattice_overflow (w h : Z) :
  0 < w <= PTRDIFF_MAX -> 0 < h <= PTRDIFF_MAX -> SIZE_MODULUS <= w * h ->
  Z.of_nat (length (data (allocateLattice w h))) < w * h /\
  exists x y, 0 <= x < w /\ 0 <= y < h /\
    get (allocateLattice w h) x y = None /\
    set (allocateLattice w h) x y 1 = None.
Proof.
  intros Hw Hh Hbig. unfold SIZE_MODULUS, PTRDIFF_MAX in *.
  pose proof (Z.mod_pos_bound (w * h) (2 ^ 64) ltac:(lia)) as Hmod.
  assert (Hlen : Z.of_nat (length (data (allocateLattice w h)))
                 = (w * h) mod 2 ^ 64).
  { cbn. rewrite length_replicate. unfold to_size_t, SIZE_MODULUS. lia. }
  split; [lia|].
  set (x := (2 ^ 64 - 1) / h). set (y := (2 ^ 64 - 1) mod h).
  assert (Hxy : x * h + y = 2 ^ 64 - 1).
  { unfold x, y. pose proof (Z.div_mod (2 ^ 64 - 1) h ltac:(lia)). lia. }
  assert (Hy : 0 <= y < h) by (apply Z.mod_pos_bound; lia).
  assert (Hx : 0 <= x < w).
  { split; [apply Z.div_pos; lia|].
    apply Z.div_lt_upper_bound; [lia|]. lia. }
  assert (Hidx : getIndex (allocateLattice w h) x y = Some (2 ^ 64 - 1)).
  { unfold getIndex. cbn [allocateLattice width height].
    destruct (Z.eqb_spec w 0) as [?|_]; [lia|].
    destruct (Z.eqb_spec h 0) as [?|_]; [lia|]. cbn [orb].
    fold (reduce x w) (reduce y h).
    rewrite !reduce_small, Hxy by (unfold PTRDIFF_MAX; lia).
    now rewrite to_size_t_small by (unfold SIZE_MODULUS; lia). }
  exists x, y. split; [exact Hx|]. split; [exact Hy|]. split.
  - unfold get. rewrite Hidx. apply lookup_ge_None_2. lia.
  - unfold set. rewrite Hidx.
    destruct (Z.ltb_spec (2 ^ 64 - 1)
                (Z.of_nat (length (data (allocateLattice w h)))));
      [lia|reflexivity].
Qed.

Lemma allocateLattice_overflow_witness :
  exists x y, 0 <= x < 2 ^ 32 /\ 0 <= y < 2 ^ 32 /\
    get (allocateLattice (2 ^ 32) (2 ^ 32)) x y = None.
Proof.
  destruct (allocateLattice_overflow (2 ^ 32) (2 ^ 32))
    as (_ & x & y & Hx & Hy & Hget & _);
    [unfold PTRDIFF_MAX; lia|unfold PTRDIFF_MAX; lia
    |unfold SIZE_MODULUS; lia|].
  now exists x, y.
Defined.
(** X5: [fillGroundState] overwrites every cell with the given value
    (converted to [int8_t]), whatever the lattice held before; it keeps
    the dimensions, and filling again changes nothing. *)
Theorem fillGroundState_overwrites (l l2 : Lattice) (v : Z) :
  wf_lattice l -> wf_lattice l2 ->
  width l2 = width l -> height l2 = height l ->
  exists l',
    fillGroundState l v = Some l' /\
    fillGroundState l2 v = Some l' /\
    fillGroundState l' v = Some l' /\
    wf_lattice l' /\ width l' = width l /\ height l' = height l /\
    (forall x y, get l' x y = Some (to_spin_t v)) /\
    (is_spin v -> spin_lattice l').
Proof.
  intros Hwf Hwf2 Hw2 Hh2.
  destruct (fillGroundState_wf l v Hwf) as (l' & Hfill & Hwf' & Hw & Hh & Hd).
  assert (Hsame : forall l0, wf_lattice l0 ->
    width l0 = width l -> height l0 = height l ->
    fillGroundState l0 v = Some l').
  { intros l0 Hwf0 Hw0 Hh0.
    destruct (fillGroundState_wf l0 v Hwf0)
      as (l0' & Hfill0 & _ & Hw0' & Hh0' & Hd0).
    rewrite Hfill0. f_equal. destruct l0' as [w0 h0 d0], l' as [w' h' d'].
    cbn in *. unfold cell_count in *. rewrite Hw0, Hh0 in *. congruence. }
  exists l'. split; [exact Hfill|]. split; [now apply Hsame|].
  split; [now apply Hsame|]. split; [exact Hwf'|].
  split; [exact Hw|]. split; [exact Hh|]. split.
  - intros x y. destruct (get_total l' Hwf' x y) as (s & Hs & _).
    rewrite Hs. f_equal. rewrite get_wf, Hd in Hs by exact Hwf'.
    apply lookup_replicate in Hs. tauto.
  - intros Hspin. split; [exact Hwf'|]. rewrite Hd.
    apply Forall_replicate.
    destruct Hspin as [->| ->]; [now left|now right].
Qed.

Lemma fillGroundState_overwrites_witness :
  exists l',
    fillGroundState lattice_5x5 SPIN_UP = Some l' /\
    fillGroundState (allocateLattice 5 5) SPIN_UP = Some l' /\
    forall x y, get l' x y = Some (to_spin_t SPIN_UP).
Proof.
  destruct (fillGroundState_overwrites lattice_5x5 (allocateLattice 5 5)
              SPIN_UP wf_lattice_5x5)
    as (l' & H1 & H2 & _ & _ & _ & _ & Hget & _);
    [solve_wf_lattice|reflexivity|reflexivity|].
  exists l'. now repeat split.
Defined.

(** X6: The energy of a rectangular lattice whose cells all hold the same
    value [s] is [4 * width * height * s^2]: [4 * width * height] in a
    ground state, 0 right after allocation. *)
Theorem calcEnergy_constant_lattice (l : Lattice) (s : Z) :
  wf_lattice l -> Forall (eq s) (data l) ->
  4 * (width l * height l) * (s * s) <= INT64_MAX ->
  calcEnergy l = Some (4 * width l * height l * (s * s)) /\
  (is_spin s -> calcEnergy l = Some (4 * width l * height l)).
Proof.
  intros Hwf Hall Hmax. pose proof Hwf as [Hw Hh _ _ _].
  assert (He : calcEnergy l = Some (4 * width l * height l * (s * s))).
  { rewrite (calcEnergy_constant l s Hwf Hall). f_equal.
    rewrite to_energy_t_small; [lia|].
    pose proof (Z.square_nonneg s). unfold INT64_MAX in *. nia. }
  split; [exact He|]. intros [->| ->]; rewrite He; f_equal;
    unfold SPIN_UP, SPIN_DOWN; lia.
Qed.

Lemma calcEnergy_constant_lattice_witness :
  calcEnergy lattice_2x3 = Some (4 * 2 * 3 * (-1 * -1)).
Proof.
  destruct (calcEnergy_constant_lattice lattice_2x3 (-1) wf_lattice_2x3)
    as [He _].
  - cbn. repeat (apply Forall_cons_2; [reflexivity|]). apply Forall_nil_2.
  - cbn. unfold INT64_MAX. lia.
  - exact He.
Defined.

(** ** Lattices with a zero dimension *)

Lemma for_loop_skip {S : Type} (body : Z -> S -> option S)
    (n : nat) (i : Z) (s : S) :
  (forall i s, body i s = Some s) -> for_loop n i body s = Some s.
Proof.
  intros Hbody. revert i. induction n as [|n IH]; intros i; [reflexivity|].
  cbn [for_loop]. rewrite Hbody. apply IH.
Qed.

Lemma for_loop_ret_skip {S R : Type} (body : Z -> S -> option (outcome S R))
    (n : nat) (i : Z) (s : S) :
  (forall i s, body i s = Some (Next s)) ->
  for_loop_ret n i body s = Some (Next s).
Proof.
  intros Hbody. revert i. induction n as [|n IH]; intros i; [reflexivity|].
  cbn [for_loop_ret]. rewrite Hbody. apply IH.
Qed.

Lemma for_loop_newlines (n : nat) (i : Z) (file : list ascii) :
  for_loop n i (fun _ file => Some (fputc newline file)) file
  = Some (file ++ replicate n newline).
Proof.
  revert i file. induction n as [|n IH]; intros i file; cbn [for_loop].
  - now rewrite app_nil_r.
  - rewrite IH. unfold fputc. now rewrite <- app_assoc.
Qed.

Lemma calcEnergy_zero_dimension (l : Lattice) :
  width l = 0 \/ height l = 0 -> calcEnergy l = Some 0.
Proof.
  intros Hzero. unfold calcEnergy.
  destruct Hzero as [-> | ->]; [reflexivity|].
  now apply for_loop_skip.
Qed.

Section ZeroDimension.

Variable c_exp : weight_t -> weight_t.
Variable RAND_MAX : Z.
Variable rand_seq : nat -> Z.

Lemma tryFlipOneSpin_zero_dimension (l : Lattice) (beta : weight_t)
    (buffer : list weight_t) (calls : nat) :
  width l = 0 \/ height l = 0 ->
  tryFlipOneSpin c_exp RAND_MAX rand_seq l beta buffer calls
  = Some (l, buffer, Datatypes.S calls).
Proof.
  intros Hzero. unfold tryFlipOneSpin, uniformRandom, rand.
  destruct Hzero as [Hw|Hh].
  - rewrite Hw. change (Z.to_nat 0) with 0%nat. cbn [for_loop].
    cbv beta iota. rewrite Hw. reflexivity.
  - rewrite Hh. change (Z.to_nat 0) with 0%nat. cbn [for_loop].
    rewrite for_loop_skip by reflexivity. cbv beta iota. rewrite Hh.
    change (Z.to_nat 0) with 0%nat. cbn [for_loop for_loop_ret].
    rewrite !for_loop_skip by reflexivity.
    now rewrite for_loop_ret_skip by reflexivity.
Qed.

(** X7: On a lattice with a zero dimension no cell exists: every access by
    coordinate divides by zero, while the loops over the cells do nothing:
    filling and a sampler step leave the lattice as it is, the energy is
    0, and [printLattice] writes [width] empty lines. *)
Theorem zero_dimension_lattice (l : Lattice) (v : Z) (beta : weight_t)
    (buffer : list weight_t) (calls : nat) (file : list ascii) :
  width l = 0 \/ height l = 0 ->
  (forall x y, getIndex l x y = None /\ get l x y = None /\
     set l x y v = None /\ flip l x y = None) /\
  fillGroundState l v = Some l /\
  calcEnergy l = Some 0 /\
  printLattice l file
    = Some (file ++ replicate (Z.to_nat (width l)) newline) /\
  tryFlipOneSpin c_exp RAND_MAX rand_seq l beta buffer calls
    = Some (l, buffer, Datatypes.S calls).
Proof.
  intros Hzero.
  assert (Hidx : forall x y, getIndex l x y = None).
  { intros x y. unfold getIndex.
    destruct Hzero as [-> | ->]; [reflexivity|].
    now rewrite orb_true_r. }
  split.
  { intros x y. unfold flip, get, set. now rewrite Hidx. }
  split; [|split; [|split]].
  - unfold fillGroundState. destruct Hzero as [-> | ->]; [reflexivity|].
    now apply for_loop_skip.
  - now apply calcEnergy_zero_dimension.
  - unfold printLattice. destruct Hzero as [Hw|Hh].
    + rewrite Hw. cbn. now rewrite app_nil_r.
    + rewrite Hh. change (Z.to_nat 0) with 0%nat. cbn [for_loop].
      apply for_loop_newlines.
  - now apply tryFlipOneSpin_zero_dimension.
Qed.

End ZeroDimension.

Lemma zero_dimension_lattice_witness :
  printLattice (allocateLattice 3 0) []
    = Some ([] ++ replicate 3 newline) /\
  calcEnergy (allocateLattice 3 0) = Some 0.
Proof.
  destruct (zero_dimension_lattice exp_approx GLIBC_RAND_MAX example_rand_seq
              (allocateLattice 3 0) 1 1%float [] 0 [])
    as (_ & _ & He & Hp & _); [now right|].
  now split.
Defined.
(** ** The thermalization loop: when it returns *)

Section LoopReturns.

Variable c_exp : weight_t -> weight_t.
Variable RAND_MAX : Z.
Variable rand_seq : nat -> Z.

(** What a sampler step returns does not depend on what the buffer held. *)
Lemma tryFlipOneSpin_any_buffer (l : Lattice) (beta : weight_t)
    (buffer1 buffer2 : list weight_t) (calls : nat) :
  wf_lattice l ->
  length buffer1 = cell_count l -> length buffer2 = cell_count l ->
  tryFlipOneSpin c_exp RAND_MAX rand_seq l beta buffer1 calls
  = tryFlipOneSpin c_exp RAND_MAX rand_seq l beta buffer2 calls.
Proof.
  intros Hwf H1 H2.
  now rewrite
    !(tryFlipOneSpin_select c_exp RAND_MAX rand_seq l beta _ calls Hwf)
    by assumption.
Qed.

Lemma evolve_loop_complete (beta : weight_t) (max_hits : Z)
    (lats : list Lattice) :
  forall (es : list Z) (st : loop_state) (fuel : nat),
  wf_lattice (ls_lattice st) ->
  length (ls_buffer st) = cell_count (ls_lattice st) ->
  0 <= ls_hits st -> ls_hits st < max_hits \/ ls_hits st = 0 ->
  max_hits < SIZE_MODULUS ->
  sampler_steps c_exp RAND_MAX rand_seq beta (ls_calls st)
    (ls_lattice st :: lats) ->
  Forall2 (fun l e => calcEnergy l = Some e) lats es ->
  lats <> [] ->
  max_hits <= unchanged_counter (ls_hits st) (ls_energy st) es ->
  (forall k, (0 < k < length es)%nat ->
     unchanged_counter (ls_hits st) (ls_energy st) (take k es) < max_hits) ->
  (length lats <= fuel)%nat ->
  exists l', last lats = Some l' /\
    evolve_loop c_exp RAND_MAX rand_seq fuel beta max_hits st
    = Some (l', (ls_calls st + length lats)%nat).
Proof.
  induction lats as [|l1 lats IH];
    intros es [l buffer energy hits calls] fuel Hwf Hlen Hhits Hlt Hmax
      Hsteps Hes Hne Hfin Hpre Hfuel; [contradiction|].
  cbn [ls_lattice ls_buffer ls_energy ls_hits ls_calls] in *.
  destruct fuel as [|fuel]; [rewrite length_cons in Hfuel; lia|].
  inversion Hsteps as [|? ? ? ? buffer0 buffer1 Hlen0 Hstep Hrest]; subst.
  rewrite (tryFlipOneSpin_any_buffer l beta buffer0 buffer calls Hwf Hlen0 Hlen)
    in Hstep.
  destruct (wf_lattice_sampler _ _ _ _ _ _ _ _ _ _ Hwf Hlen Hstep)
    as (Hwf1 & Hcount & Hlen1 & _).
  destruct es as [|e1 es]; [inversion Hes|].
  apply Forall2_cons_1 in Hes as [He1 Hes].
  cbn [evolve_loop]. unfold evolve_body.
  cbn [ls_lattice ls_buffer ls_energy ls_hits ls_calls].
  rewrite Hstep, He1.
  assert (Hwrap : (if energy =? e1 then to_size_t (hits + 1) else 0)
                  = (if energy =? e1 then hits + 1 else 0)).
  { destruct (energy =? e1); [|reflexivity].
    apply to_size_t_small. unfold SIZE_MODULUS in *. lia. }
  rewrite Hwrap. clear Hwrap. cbn [unchanged_counter] in Hfin.
  set (hits1 := if energy =? e1 then hits + 1 else 0) in *.
  assert (Hhits1 : 0 <= hits1) by (unfold hits1; destruct (energy =? e1); lia).
  destruct lats as [|l2 lats].
  - apply Forall2_nil_inv_l in Hes. subst es. cbn in Hfin.
    exists l1. split; [reflexivity|].
    destruct (Z.leb_spec max_hits hits1); [|lia].
    do 2 f_equal. cbn. lia.
  - assert (Hlt1 : hits1 < max_hits).
    { specialize (Hpre 1%nat). cbn in Hpre. apply Hpre.
      apply Forall2_length in Hes. cbn in Hes. lia. }
    destruct (Z.leb_spec max_hits hits1); [lia|].
    destruct (IH es (mkLoop l1 buffer1 e1 hits1 (Datatypes.S calls)) fuel)
      as (l' & Hlast & Hrun);
      cbn [ls_lattice ls_buffer ls_energy ls_hits ls_calls];
      try assumption; try lia; try discriminate.
    + intros k Hk. specialize (Hpre (Datatypes.S k)). cbn in Hpre.
      apply Hpre. lia.
    + rewrite !length_cons in *. lia.
    + exists l'. split; [exact Hlast|].
      cbn [ls_calls] in Hrun. rewrite Hrun. do 2 f_equal.
      rewrite !length_cons. lia.
Qed.

(** X8: The loop returns as soon as the counter reaches the threshold: for a
    chain of sampler steps whose energies bring the counter to the
    threshold at the last step and at no step before, the loop (given
    fuel for that many iterations) returns the last lattice of the chain
    after exactly that many calls to the generator. *)
Theorem evolve_returns_when_counter_reaches (fuel : nat) (l : Lattice)
    (beta : weight_t) (max_hits : Z) (calls : nat)
    (lats : list Lattice) (es : list Z) (e0 : Z) :
  wf_lattice l -> 0 <= max_hits < SIZE_MODULUS ->
  sampler_steps c_exp RAND_MAX rand_seq beta calls (l :: lats) ->
  lats <> [] ->
  calcEnergy l = Some e0 ->
  Forall2 (fun l e => calcEnergy l = Some e) lats es ->
  max_hits <= unchanged_counter 0 e0 es ->
  (forall k, (0 < k < length es)%nat ->
     unchanged_counter 0 e0 (take k es) < max_hits) ->
  (length lats <= fuel)%nat ->
  exists l', last lats = Some l' /\
    evolveIntoThermalState c_exp RAND_MAX rand_seq fuel l beta max_hits calls
    = Some (l', (calls + length lats)%nat).
Proof.
  intros Hwf Hmax Hsteps Hne He0 Hes Hfin Hpre Hfuel.
  unfold evolveIntoThermalState. rewrite He0.
  pose proof Hwf as [Hw Hh Hsz _ _].
  apply (evolve_loop_complete beta max_hits lats es
           (mkLoop l _ e0 0 calls) fuel);
    cbn [ls_lattice ls_buffer ls_energy ls_hits ls_calls];
    try assumption; try lia.
  rewrite length_replicate, to_size_t_small; [reflexivity|].
  unfold SIZE_MODULUS, PTRDIFF_MAX in *. nia.
Qed.

(** X9: With a patience of zero the loop makes exactly one sampler step and
    returns, whatever the step did to the energy. *)
Theorem evolve_patience_zero (fuel : nat) (l : Lattice) (beta : weight_t)
    (calls : nat) :
  wf_lattice l ->
  exists l',
    tryFlipOneSpin c_exp RAND_MAX rand_seq l beta
      (replicate (cell_count l) 0%float) calls
      = Some (l', normalized_weights c_exp l beta, Datatypes.S calls) /\
    evolveIntoThermalState c_exp RAND_MAX rand_seq (Datatypes.S fuel)
      l beta 0 calls = Some (l', Datatypes.S calls).
Proof.
  intros Hwf. pose proof Hwf as [Hw Hh Hsz _ _].
  destruct (tryFlipOneSpin_cases c_exp RAND_MAX rand_seq l beta
              (replicate (cell_count l) 0%float) calls Hwf)
    as (l' & Hstep & _); [apply length_replicate|].
  exists l'. split; [exact Hstep|].
  destruct (wf_lattice_sampler _ _ _ _ _ _ _ _ _ _ Hwf
              (length_replicate _ _) Hstep) as (Hwf' & _).
  destruct (calcEnergy_total l Hwf) as (e0 & He0).
  destruct (calcEnergy_total l' Hwf') as (e1 & He1).
  unfold evolveIntoThermalState. rewrite He0.
  rewrite to_size_t_small
    by (unfold SIZE_MODULUS, PTRDIFF_MAX in *; nia).
  fold (cell_count l). cbn [evolve_loop]. unfold evolve_body.
  cbn [ls_lattice ls_buffer ls_energy ls_hits ls_calls].
  rewrite Hstep, He1.
  destruct (e0 =? e1); reflexivity.
Qed.

(** A lattice that the sampler step leaves as it is keeps its energy, so
    the loop returns it after max(1, patience) steps. *)
Lemma evolve_loop_fixed (beta : weight_t) (max_hits : Z) (l : Lattice)
    (e : Z) (good : list weight_t -> Prop) :
  calcEnergy l = Some e -> max_hits < SIZE_MODULUS ->
  (forall buffer calls, good buffer ->
     exists buffer',
       tryFlipOneSpin c_exp RAND_MAX rand_seq l beta buffer calls
       = Some (l, buffer', Datatypes.S calls) /\ good buffer') ->
  forall (fuel : nat) (buffer : list weight_t) (hits : Z) (calls : nat),
    good buffer -> 0 <= hits -> hits < max_hits \/ hits = 0 ->
    (Z.to_nat (Z.max 1 (max_hits - hits)) <= fuel)%nat ->
    evolve_loop c_exp RAND_MAX rand_seq fuel beta max_hits
      (mkLoop l buffer e hits calls)
    = Some (l, (calls + Z.to_nat (Z.max 1 (max_hits - hits)))%nat).
Proof.
  intros He Hmax Hstep. induction fuel as [|fuel IH];
    intros buffer hits calls Hgood Hhits Hlt Hfuel; [lia|].
  cbn [evolve_loop]. unfold evolve_body.
  cbn [ls_lattice ls_buffer ls_energy ls_hits ls_calls].
  destruct (Hstep buffer calls Hgood) as (buffer' & -> & Hgood').
  rewrite He, Z.eqb_refl.
  rewrite to_size_t_small by (unfold SIZE_MODULUS in *; lia).
  destruct (Z.leb_spec max_hits (hits + 1)) as [Hge|Hless].
  - do 2 f_equal. lia.
  - rewrite IH by (try assumption; lia). do 2 f_equal. lia.
Qed.

(** X10: On a lattice with a zero dimension the energy is always 0, so the
    loop returns the lattice untouched after max(1, patience) sampler
    steps. *)
Theorem evolve_zero_dimension (fuel : nat) (l : Lattice) (beta : weight_t)
    (max_hits : Z) (calls : nat) :
  width l = 0 \/ height l = 0 -> 0 <= max_hits < SIZE_MODULUS ->
  (Z.to_nat (Z.max 1 max_hits) <= fuel)%nat ->
  evolveIntoThermalState c_exp RAND_MAX rand_seq fuel l beta max_hits calls
  = Some (l, (calls + Z.to_nat (Z.max 1 max_hits))%nat).
Proof.
  intros Hzero Hmax Hfuel. unfold evolveIntoThermalState.
  rewrite (calcEnergy_zero_dimension l Hzero).
  rewrite (evolve_loop_fixed beta max_hits l 0 (fun _ => True));
    rewrite ?Z.sub_0_r; try lia; try easy.
  - now apply calcEnergy_zero_dimension.
  - intros buffer calls0 _. exists buffer. split; [|exact I].
    now apply tryFlipOneSpin_zero_dimension.
Qed.

End LoopReturns.

Lemma sampler_chain_3x3 :
  sampler_steps exp_approx GLIBC_RAND_MAX example_rand_seq 1%float 0
    (lattice_3x3 ::
     [mkLattice 3 3 [-1; 1; 1; 1; 1; 1; 1; 1; 1];
      mkLattice 3 3 [-1; 1; 1; 1; -1; 1; 1; 1; 1];
      mkLattice 3 3 [-1; 1; 1; 1; -1; 1; 1; 1; -1];
      mkLattice 3 3 [-1; 1; 1; -1; -1; 1; 1; 1; -1];
      mkLattice 3 3 [-1; 1; 1; 1; -1; 1; 1; 1; -1];
      mkLattice 3 3 [-1; 1; 1; 1; -1; 1; -1; 1; -1]]).
Proof.
  repeat (eapply (steps_next _ _ _ _ _ _ _ _ (replicate 9 0%float));
          [reflexivity | vm_compute; reflexivity |]).
  apply steps_done.
Qed.

Lemma evolve_returns_when_counter_reaches_witness :
  exists l',
    evolveIntoThermalState exp_approx GLIBC_RAND_MAX example_rand_seq
      6 lattice_3x3 1%float 3 0 = Some (l', 6%nat).
Proof.
  destruct (evolve_returns_when_counter_reaches exp_approx GLIBC_RAND_MAX
              example_rand_seq 6 lattice_3x3 1%float 3 0 _
              [20; 4; -12; -12; -12; -12] 36
              ltac:(solve_wf_lattice) ltac:(unfold SIZE_MODULUS; lia)
              sampler_chain_3x3 ltac:(discriminate) eq_refl)
    as (l' & _ & Hrun).
  - repeat (apply Forall2_cons_2; [reflexivity|]). apply Forall2_nil_2.
  - apply Z.leb_le. reflexivity.
  - intros k Hk.
    do 6 (destruct k as [|k]; [first [apply Z.ltb_lt; reflexivity
                                     | exfalso; cbn in Hk; lia]|]).
    exfalso. cbn in Hk. lia.
  - cbn. lia.
  - exists l'. exact Hrun.
Defined.

Lemma evolve_patience_zero_witness :
  exists l',
    evolveIntoThermalState exp_approx GLIBC_RAND_MAX example_rand_seq
      1 lattice_3x3 1%float 0 0 = Some (l', 1%nat).
Proof.
  destruct (evolve_patience_zero exp_approx GLIBC_RAND_MAX example_rand_seq
              0 lattice_3x3 1%float 0 ltac:(solve_wf_lattice))
    as (l' & _ & Hrun).
  exists l'. exact Hrun.
Defined.

Lemma evolve_zero_dimension_witness :
  evolveIntoThermalState exp_approx GLIBC_RAND_MAX example_rand_seq
    3 (allocateLattice 0 4) 1%float 3 0 = Some (allocateLattice 0 4, 3%nat).
Proof.
  apply (evolve_zero_dimension exp_approx GLIBC_RAND_MAX example_rand_seq
           3 (allocateLattice 0 4) 1%float 3 0).
  - now left.
  - unfold SIZE_MODULUS. lia.
  - apply Nat.leb_le. reflexivity.
Defined.
(** ** The energy as a sum over the cells *)

Lemma sum_upto_ext (n : nat) (f g : Z -> Z) :
  (forall i, 0 <= i < Z.of_nat n -> f i = g i) ->
  sum_upto n f = sum_upto n g.
Proof.
  induction n as [|n IH]; intros Hfg; [reflexivity|].
  cbn [sum_upto]. rewrite IH by (intros i Hi; apply Hfg; lia).
  now rewrite Hfg by lia.
Qed.

Lemma sum_upto_add (n : nat) (f g : Z -> Z) :
  sum_upto n (fun i => f i + g i) = sum_upto n f + sum_upto n g.
Proof. induction n as [|n IH]; cbn [sum_upto]; lia. Qed.

Lemma sum_upto_scale (n : nat) (c : Z) (f : Z -> Z) :
  sum_upto n (fun i => c * f i) = c * sum_upto n f.
Proof. induction n as [|n IH]; cbn [sum_upto]; lia. Qed.

Lemma sum_upto_zero (n : nat) (f : Z -> Z) :
  (forall i, 0 <= i < Z.of_nat n -> f i = 0) -> sum_upto n f = 0.
Proof.
  induction n as [|n IH]; intros Hf; [reflexivity|].
  cbn [sum_upto]. rewrite IH by (intros i Hi; apply Hf; lia).
  rewrite Hf by lia. reflexivity.
Qed.

Lemma sum_upto_bound (n : nat) (c : Z) (f : Z -> Z) :
  (forall i, 0 <= i < Z.of_nat n -> - c <= f i <= c) ->
  - (c * Z.of_nat n) <= sum_upto n f <= c * Z.of_nat n.
Proof.
  induction n as [|n IH]; intros Hf;
    [change (Z.of_nat 0) with 0; cbn [sum_upto]; lia|].
  cbn [sum_upto].
  assert (Hn : - c <= f (Z.of_nat n) <= c) by (apply Hf; lia).
  assert (Hlt : - (c * Z.of_nat n) <= sum_upto n f <= c * Z.of_nat n)
    by (apply IH; intros i Hi; apply Hf; lia).
  lia.
Qed.

Lemma sum_upto_even (n : nat) (f : Z -> Z) :
  (forall i, 0 <= i < Z.of_nat n -> f i mod 2 = 0) ->
  sum_upto n f mod 2 = 0.
Proof.
  induction n as [|n IH]; intros Hf; [reflexivity|].
  cbn [sum_upto]. rewrite Z.add_mod by lia.
  rewrite IH by (intros i Hi; apply Hf; lia).
  now rewrite Hf by lia.
Qed.

(** A sum whose summand vanishes off one index. *)
Lemma sum_upto_hit (n : nat) (p : Z -> bool) (g : Z -> Z) (a : Z) :
  0 <= a < Z.of_nat n ->
  (forall i, 0 <= i < Z.of_nat n -> p i = true <-> i = a) ->
  sum_upto n (fun i => if p i then g i else 0) = g a.
Proof.
  induction n as [|n IH]; intros Ha Hp; [lia|].
  cbn [sum_upto].
  destruct (Z.eq_dec a (Z.of_nat n)) as [->|Hne].
  - rewrite sum_upto_zero.
    + now rewrite (proj2 (Hp (Z.of_nat n) ltac:(lia)) eq_refl).
    + intros i Hi. destruct (p i) eqn:Hpi; [|reflexivity].
      apply Hp in Hpi; lia.
  - rewrite IH; [|lia|intros i Hi; apply Hp; lia].
    destruct (p (Z.of_nat n)) eqn:Hpn; [|lia].
    apply Hp in Hpn; lia.
Qed.

(** Shifting the index of a sum by one: what leaves at one end enters at
    the other. *)
Lemma sum_upto_shift (n : nat) (g : Z -> Z) :
  sum_upto n (fun a => g (a - 1)) + g (Z.of_nat n - 1)
  = g (-1) + sum_upto n g.
Proof.
  induction n as [|n IH];
    [cbn [sum_upto]; change (Z.of_nat 0 - 1) with (-1); lia|].
  cbn [sum_upto].
  replace (Z.of_nat (Datatypes.S n) - 1) with (Z.of_nat n) by lia. lia.
Qed.

Lemma sum_box_ext (w h : Z) (f g : Z -> Z -> Z) :
  (forall a b, 0 <= a < w -> 0 <= b < h -> f a b = g a b) ->
  sum_box w h f = sum_box w h g.
Proof.
  intros Hfg. unfold sum_box.
  apply sum_upto_ext. intros a Ha. apply sum_upto_ext. intros b Hb.
  apply Hfg; lia.
Qed.

Lemma sum_box_add (w h : Z) (f g : Z -> Z -> Z) :
  sum_box w h (fun a b => f a b + g a b) = sum_box w h f + sum_box w h g.
Proof.
  unfold sum_box. rewrite <- sum_upto_add.
  apply sum_upto_ext. intros a _. apply sum_upto_add.
Qed.

Lemma sum_box_bound (w h c : Z) (f : Z -> Z -> Z) :
  0 <= w -> 0 <= h -> 0 <= c ->
  (forall a b, 0 <= a < w -> 0 <= b < h -> - c <= f a b <= c) ->
  - (c * (w * h)) <= sum_box w h f <= c * (w * h).
Proof.
  intros Hw Hh Hc Hf. unfold sum_box.
  pose proof (sum_upto_bound (Z.to_nat w) (c * h)
    (fun a => sum_upto (Z.to_nat h) (f a))) as Hb.
  rewrite Z2Nat.id in Hb by lia.
  replace (c * (w * h)) with (c * h * w) by lia. apply Hb.
  intros a Ha.
  pose proof (sum_upto_bound (Z.to_nat h) c (f a)) as Hb'.
  rewrite Z2Nat.id in Hb' by lia. apply Hb'.
  intros b Hb''. apply Hf; lia.
Qed.

Lemma sum_box_even (w h : Z) (f : Z -> Z -> Z) :
  (forall a b, 0 <= a < w -> 0 <= b < h -> f a b mod 2 = 0) ->
  sum_box w h f mod 2 = 0.
Proof.
  intros Hf. unfold sum_box. apply sum_upto_even. intros a Ha.
  apply sum_upto_even. intros b Hb. apply Hf; lia.
Qed.

(** A sum over the cells whose summand vanishes off one cell. *)
Lemma sum_box_hit (w h : Z) (pa pb : Z -> bool) (g : Z -> Z -> Z)
    (a b : Z) :
  0 <= a < w -> 0 <= b < h ->
  (forall i, 0 <= i < w -> pa i = true <-> i = a) ->
  (forall j, 0 <= j < h -> pb j = true <-> j = b) ->
  sum_box w h (fun i j => if pa i && pb j then g i j else 0) = g a b.
Proof.
  intros Ha Hb Hpa Hpb. unfold sum_box.
  rewrite (sum_upto_ext _ _
    (fun i => if pa i
              then sum_upto (Z.to_nat h) (fun j => if pb j then g i j else 0)
              else 0)).
  - rewrite (sum_upto_hit _ pa _ a); [|lia|intros i Hi; apply Hpa; lia].
    apply sum_upto_hit; [lia|intros j Hj; apply Hpb; lia].
  - intros i _. destruct (pa i); [reflexivity|].
    now apply sum_upto_zero.
Qed.

Lemma mod_shift_hit (n a x k : Z) :
  0 < n -> 0 <= a < n -> 0 <= x < n ->
  ((a + k) mod n =? x) = true <-> a = (x - k) mod n.
Proof.
  intros Hn Ha Hx. rewrite Z.eqb_eq. split.
  - intros <-. rewrite Zminus_mod_idemp_l.
    replace (a + k - k) with a by lia. now rewrite Z.mod_small.
  - intros ->. rewrite Zplus_mod_idemp_l.
    replace (x - k + k) with x by lia. now rewrite Z.mod_small.
Qed.

(** The summand vanishes off the cell that a shift by [(k, j)] takes to
    [(x0, y0)]. *)
Lemma sum_box_shift_hit (w h x0 y0 k j : Z) (g : Z -> Z -> Z) :
  0 <= x0 < w -> 0 <= y0 < h ->
  sum_box w h (fun a b =>
    if ((a + k) mod w =? x0) && ((b + j) mod h =? y0) then g a b else 0)
  = g ((x0 - k) mod w) ((y0 - j) mod h).
Proof.
  intros Hx Hy.
  apply (sum_box_hit w h (fun a => (a + k) mod w =? x0)
           (fun b => (b + j) mod h =? y0)).
  - apply Z.mod_pos_bound. lia.
  - apply Z.mod_pos_bound. lia.
  - intros i Hi. apply mod_shift_hit; lia.
  - intros i Hi. apply mod_shift_hit; lia.
Qed.

Lemma mod_neighbour_ne (n x : Z) :
  2 <= n -> 0 <= x < n ->
  ((x + 1) mod n =? x) = false /\ ((x - 1) mod n =? x) = false.
Proof.
  intros Hn Hx. rewrite !Z.eqb_neq. split.
  - destruct (Z.eq_dec (x + 1) n) as [Heq|Hne].
    + rewrite Heq, Z_mod_same_full. lia.
    + rewrite Z.mod_small; lia.
  - destruct (Z.eq_dec x 0) as [->|Hne].
    + replace (0 - 1) with (n - 1 + -1 * n) by lia.
      rewrite Z_mod_plus_full, Z.mod_small; lia.
    + rewrite Z.mod_small; lia.
Qed.

(** *** The periodic lattice and [get] *)

Lemma spin_at_periodic (l : Lattice) (a b : Z) :
  spin_at l a b = spin_at l (a mod width l) (b mod height l).
Proof. unfold spin_at. now rewrite !Zmod_mod. Qed.

Lemma get_spin_at (l : Lattice) (x y a b : Z) :
  wf_lattice l ->
  reduce x (width l) = a mod width l ->
  reduce y (height l) = b mod height l ->
  get l x y = Some (spin_at l a b).
Proof.
  intros Hwf Hx Hy.
  destruct (get_total l Hwf x y) as (s & Hs & _). rewrite Hs.
  rewrite (get_wf l Hwf) in Hs. unfold cell_index in Hs.
  rewrite Hx, Hy in Hs. unfold spin_at. now rewrite Hs.
Qed.

Lemma reduce_mod (n z : Z) :
  0 < n <= PTRDIFF_MAX -> - 1 <= z <= n ->
  reduce (to_size_t z) n = z mod n.
Proof.
  intros Hn Hz. apply reduce_window; unfold SIZE_MODULUS, PTRDIFF_MAX in *;
    lia.
Qed.

Lemma reduce_mod_in (n z : Z) :
  0 < n <= PTRDIFF_MAX -> 0 <= z < n -> reduce z n = z mod n.
Proof.
  intros Hn Hz. rewrite reduce_small, Z.mod_small; lia.
Qed.

Lemma spin_at_spin (l : Lattice) (a b : Z) :
  spin_lattice l -> is_spin (spin_at l a b).
Proof.
  intros [Hwf Hspins]. pose proof (wf_dims l Hwf) as [Hw Hh].
  destruct (spin_lattice_get l (a mod width l) (b mod height l))
    as (s & Hs & Hspin); [now split|].
  rewrite (get_spin_at l _ _ a b Hwf) in Hs.
  - now injection Hs as ->.
  - apply reduce_small; [apply Z.mod_pos_bound|]; lia.
  - apply reduce_small; [apply Z.mod_pos_bound|]; lia.
Qed.

(** [calcEnergy] adds, for every cell, the products of its spin with its
    four neighbours on the periodic lattice. *)
Lemma calcEnergy_sum (l : Lattice) :
  wf_lattice l ->
  calcEnergy l
  = Some (to_energy_t
            (sum_cells l (fun a b => spin_at l a b * neighbour_sum l a b))).
Proof.
  intros Hwf. pose proof (wf_dims l Hwf) as [Hw Hh].
  unfold calcEnergy, sum_cells, sum_box.
  set (T := fun a b => spin_at l a b * neighbour_sum l a b).
  match goal with
  | |- for_loop ?n ?i ?body ?s = _ =>
      destruct (for_loop_inv
        (fun x e => e = to_energy_t
           (sum_upto (Z.to_nat x)
              (fun a => sum_upto (Z.to_nat (height l)) (T a))))
        body n i s) as (e & -> & He)
  end.
  - reflexivity.
  - intros x e Hx ->. rewrite Z2Nat.id in Hx by lia.
    match goal with
    | |- exists s', for_loop ?n ?i ?body ?s = Some s' /\ _ =>
        destruct (for_loop_inv
          (fun y e => e = to_energy_t
             (sum_upto (Z.to_nat x)
                (fun a => sum_upto (Z.to_nat (height l)) (T a))
              + sum_upto (Z.to_nat y) (T x)))
          body n i s) as (e & Hloop & He)
    end.
    + cbn [Z.to_nat sum_upto]. now rewrite Z.add_0_r.
    + intros y e Hy ->. rewrite Z2Nat.id in Hy by lia.
      rewrite (get_spin_at l x y x y Hwf)
        by (apply reduce_mod_in; lia).
      rewrite (get_spin_at l (to_size_t (x + 1)) y (x + 1) y Hwf)
        by (first [apply reduce_mod; lia | apply reduce_mod_in; lia]).
      rewrite (get_spin_at l (to_size_t (x - 1)) y (x - 1) y Hwf)
        by (first [apply reduce_mod; lia | apply reduce_mod_in; lia]).
      rewrite (get_spin_at l x (to_size_t (y + 1)) x (y + 1) Hwf)
        by (first [apply reduce_mod; lia | apply reduce_mod_in; lia]).
      rewrite (get_spin_at l x (to_size_t (y - 1)) x (y - 1) Hwf)
        by (first [apply reduce_mod; lia | apply reduce_mod_in; lia]).
      eexists. split; [reflexivity|].
      replace (Z.to_nat (y + 1)) with (Datatypes.S (Z.to_nat y)) by lia.
      cbn [sum_upto]. rewrite Z2Nat.id by lia.
      repeat (rewrite to_energy_t_add || rewrite <- Z.add_assoc).
      f_equal. unfold T, neighbour_sum. lia.
    + exists e. split; [exact Hloop|]. rewrite He.
      replace (Z.to_nat (x + 1)) with (Datatypes.S (Z.to_nat x)) by lia.
      cbn [sum_upto]. rewrite Z.add_0_l, !Z2Nat.id by lia. reflexivity.
  - rewrite He, Z.add_0_l, Nat2Z.id. reflexivity.
Qed.

Lemma calcEnergy_bond_terms (l : Lattice) :
  wf_lattice l ->
  calcEnergy l = Some (to_energy_t (sum_cells l (bond_terms (spin_at l)))).
Proof. intros Hwf. now rewrite calcEnergy_sum. Qed.

Lemma spin_at_set (l l' : Lattice) (x y v a b : Z) :
  wf_lattice l -> 0 <= x < width l -> 0 <= y < height l ->
  set l x y v = Some l' ->
  spin_at l' a b
  = spin_at l a b
    + bump (width l) (height l) x y (to_spin_t v - spin_at l x y) a b.
Proof.
  intros Hwf Hx Hy Hset. pose proof Hwf as [Hw Hh _ Hlen _].
  rewrite (set_wf l Hwf) in Hset. injection Hset as <-.
  rewrite (cell_index_in_range l Hwf) by assumption.
  unfold spin_at, bump. cbn [width height data].
  pose proof (Z.mod_pos_bound a (width l) Hw) as Ha.
  pose proof (Z.mod_pos_bound b (height l) Hh) as Hb.
  rewrite (Z.mod_small x), (Z.mod_small y) by lia.
  destruct (Z.eqb_spec (a mod width l) x) as [Hax|Hne]; cbn [andb];
    [destruct (Z.eqb_spec (b mod height l) y) as [Hby|Hne]|].
  - rewrite Hax, Hby, list_lookup_insert_eq by nia.
    cbn [default from_option id]. lia.
  - rewrite list_lookup_insert_ne; [lia|].
    intros Heq. apply Z2Nat.inj in Heq; [|nia|nia].
    apply index_injective in Heq; lia.
  - rewrite list_lookup_insert_ne; [lia|].
    intros Heq. apply Z2Nat.inj in Heq; [|nia|nia].
    apply index_injective in Heq; lia.
Qed.

(** *** Changing one cell *)

Section BondUpdate.

Variables w h x0 y0 c : Z.
Variable P : Z -> Z -> Z.
Hypothesis Hw : 2 <= w.
Hypothesis Hh : 2 <= h.
Hypothesis Hx : 0 <= x0 < w.
Hypothesis Hy : 0 <= y0 < h.
Hypothesis Hper : forall a b, P a b = P (a mod w) (b mod h).

Lemma sum_box_bump (k j : Z) (G : Z -> Z -> Z) :
  sum_box w h (fun a b => G a b * bump w h x0 y0 c (a + k) (b + j))
  = G ((x0 - k) mod w) ((y0 - j) mod h) * c.
Proof.
  rewrite <- (sum_box_shift_hit w h x0 y0 k j (fun a b => G a b * c))
    by assumption.
  apply sum_box_ext. intros a b _ _. unfold bump.
  destruct (((a + k) mod w =? x0) && ((b + j) mod h =? y0)); lia.
Qed.

Lemma bump_neighbours :
  bump w h x0 y0 c (x0 + 1) y0 = 0 /\ bump w h x0 y0 c (x0 - 1) y0 = 0 /\
  bump w h x0 y0 c x0 (y0 + 1) = 0 /\ bump w h x0 y0 c x0 (y0 - 1) = 0.
Proof.
  unfold bump.
  destruct (mod_neighbour_ne w x0 Hw Hx) as [-> ->].
  destruct (mod_neighbour_ne h y0 Hh Hy) as [-> ->].
  rewrite !andb_false_r. cbn [andb]. now repeat split.
Qed.

Lemma bond_sum_update :
  sum_box w h (bond_terms (fun a b => P a b + bump w h x0 y0 c a b))
  = sum_box w h (bond_terms P)
    + 2 * c * (P (x0 + 1) y0 + P (x0 - 1) y0
               + P x0 (y0 + 1) + P x0 (y0 - 1)).
Proof.
  set (D := bump w h x0 y0 c).
  set (NP := fun a b => P (a + 1) b + P (a - 1) b + P a (b + 1) + P a (b - 1)).
  set (ND := fun a b => D (a + 1) b + D (a - 1) b + D a (b + 1) + D a (b - 1)).
  rewrite (sum_box_ext w h _ (fun a b =>
    bond_terms P a b
    + (NP a b * D (a + 0) (b + 0)
       + (P a b * D (a + 1) (b + 0)
          + (P a b * D (a + -1) (b + 0)
             + (P a b * D (a + 0) (b + 1)
                + (P a b * D (a + 0) (b + -1)
                   + ND a b * D (a + 0) (b + 0)))))))).
  2: { intros a b _ _. unfold bond_terms, NP, ND.
       rewrite !Z.add_0_r.
       change (a + -1) with (a - 1). change (b + -1) with (b - 1).
       ring. }
  rewrite !sum_box_add. unfold D.
  rewrite !sum_box_bump.
  assert (Hhere : forall G : Z -> Z -> Z,
            G ((x0 - 0) mod w) ((y0 - 0) mod h) = G x0 y0)
    by (intros G; now rewrite !Z.sub_0_r, !Z.mod_small by lia).
  assert (Hshift : forall k j,
            P ((x0 - k) mod w) ((y0 - j) mod h) = P (x0 - k) (y0 - j))
    by (intros k j; now rewrite <- Hper).
  rewrite !Hhere, !Hshift, !Z.sub_0_r.
  replace (x0 - -1) with (x0 + 1) by lia.
  replace (y0 - -1) with (y0 + 1) by lia.
  unfold ND, D.
  destruct bump_neighbours as (-> & -> & -> & ->).
  unfold NP. ring.
Qed.

End BondUpdate.

Lemma energy_after_set (l l' : Lattice) (x y v : Z) :
  wf_lattice l -> 2 <= width l -> 2 <= height l ->
  0 <= x < width l -> 0 <= y < height l ->
  set l x y v = Some l' ->
  sum_cells l' (bond_terms (spin_at l'))
  = sum_cells l (bond_terms (spin_at l))
    + 2 * (to_spin_t v - spin_at l x y) * neighbour_sum l x y.
Proof.
  intros Hwf Hw Hh Hx Hy Hset.
  destruct (set_preserves _ _ _ _ _ Hwf Hset) as (_ & Hw' & Hh').
  unfold sum_cells. rewrite Hw', Hh'.
  rewrite (sum_box_ext _ _ (bond_terms (spin_at l'))
    (bond_terms (fun a b =>
       spin_at l a b
       + bump (width l) (height l) x y
           (to_spin_t v - spin_at l x y) a b))).
  - rewrite bond_sum_update; try assumption.
    + unfold neighbour_sum. reflexivity.
    + apply spin_at_periodic.
  - intros a b _ _. unfold bond_terms.
    now rewrite !(spin_at_set l l' x y v) by assumption.
Qed.

Lemma bond_terms_bound (l : Lattice) (a b : Z) :
  spin_lattice l -> - 4 <= bond_terms (spin_at l) a b <= 4.
Proof.
  intros Hl. unfold bond_terms.
  destruct (spin_at_spin l a b Hl) as [->| ->],
    (spin_at_spin l (a + 1) b Hl) as [->| ->],
    (spin_at_spin l (a - 1) b Hl) as [->| ->],
    (spin_at_spin l a (b + 1) Hl) as [->| ->],
    (spin_at_spin l a (b - 1) Hl) as [->| ->];
    unfold SPIN_UP, SPIN_DOWN; lia.
Qed.

Lemma energy_sum_bound (l : Lattice) :
  spin_lattice l ->
  - (4 * (width l * height l)) <= sum_cells l (bond_terms (spin_at l))
  <= 4 * (width l * height l).
Proof.
  intros Hl. pose proof Hl as [[Hw Hh _ _ _] _].
  apply sum_box_bound; [lia|lia|lia|].
  intros a b _ _. now apply bond_terms_bound.
Qed.

Lemma calcEnergy_exact (l : Lattice) :
  spin_lattice l -> 4 * (width l * height l) <= INT64_MAX ->
  calcEnergy l = Some (sum_cells l (bond_terms (spin_at l))).
Proof.
  intros Hl Hmax. rewrite calcEnergy_bond_terms by apply Hl.
  pose proof (energy_sum_bound l Hl).
  rewrite to_energy_t_small; [reflexivity|].
  unfold INT64_MAX in *. lia.
Qed.

Lemma energy_after_flip (l l' : Lattice) (x y : Z) :
  spin_lattice l -> 2 <= width l -> 2 <= height l ->
  0 <= x < width l -> 0 <= y < height l ->
  flip l x y = Some l' ->
  sum_cells l' (bond_terms (spin_at l'))
  = sum_cells l (bond_terms (spin_at l))
    - 4 * spin_at l x y * neighbour_sum l x y.
Proof.
  intros Hl Hw Hh Hx Hy Hflip. pose proof Hl as [Hwf _].
  pose proof (wf_dims l Hwf) as [Hwd Hhd].
  unfold flip in Hflip.
  rewrite (get_spin_at l x y x y Hwf) in Hflip
    by (apply reduce_mod_in; lia).
  cbn in Hflip.
  rewrite (energy_after_set l l' x y _ Hwf Hw Hh Hx Hy Hflip).
  destruct (spin_at_spin l x y Hl) as [->| ->];
    unfold SPIN_UP, SPIN_DOWN;
    rewrite to_spin_t_small by (unfold is_spin_t; lia); lia.
Qed.

(** *** Every bond is counted twice *)

Lemma sum_upto_cyclic (n : Z) (g : Z -> Z) :
  0 < n -> g (-1) = g (n - 1) ->
  sum_upto (Z.to_nat n) (fun a => g (a - 1)) = sum_upto (Z.to_nat n) g.
Proof.
  intros Hn Hg. pose proof (sum_upto_shift (Z.to_nat n) g) as Hs.
  rewrite Z2Nat.id in Hs by lia. lia.
Qed.

Lemma mod_wrap (n : Z) :
  0 < n -> (-1) mod n = (n - 1) mod n /\ (-1 + 1) mod n = (n - 1 + 1) mod n.
Proof.
  intros Hn. split.
  - replace (n - 1) with (-1 + 1 * n) by lia. now rewrite Z_mod_plus_full.
  - replace (n - 1 + 1) with (-1 + 1 + 1 * n) by lia.
    now rewrite Z_mod_plus_full.
Qed.

Lemma bond_sum_twice (w h : Z) (P : Z -> Z -> Z) :
  0 < w -> 0 < h ->
  (forall a b, P a b = P (a mod w) (b mod h)) ->
  sum_box w h (bond_terms P)
  = 2 * sum_box w h (fun a b => P a b * (P (a + 1) b + P a (b + 1))).
Proof.
  intros Hw Hh Hper.
  destruct (mod_wrap w Hw) as [Hw1 Hw2]. destruct (mod_wrap h Hh) as [Hh1 Hh2].
  assert (Hleft : sum_box w h (fun a b => P a b * P (a - 1) b)
                  = sum_box w h (fun a b => P a b * P (a + 1) b)).
  { unfold sum_box.
    rewrite <- (sum_upto_cyclic w
      (fun a => sum_upto (Z.to_nat h) (fun b => P a b * P (a + 1) b)))
      by (try apply sum_upto_ext; intros;
          try rewrite (Hper (-1)), (Hper (-1 + 1)), Hw1, Hw2, <- !Hper; lia).
    apply sum_upto_ext. intros a _. apply sum_upto_ext. intros b _.
    replace (a - 1 + 1) with a by lia. lia. }
  assert (Hup : sum_box w h (fun a b => P a b * P a (b - 1))
                = sum_box w h (fun a b => P a b * P a (b + 1))).
  { unfold sum_box. apply sum_upto_ext. intros a _.
    rewrite <- (sum_upto_cyclic h (fun b => P a b * P a (b + 1)))
      by (intros;
          try rewrite (Hper a (-1)), (Hper a (-1 + 1)), Hh1, Hh2, <- !Hper;
          lia).
    apply sum_upto_ext. intros b _.
    replace (b - 1 + 1) with b by lia. lia. }
  rewrite (sum_box_ext w h (bond_terms P) (fun a b =>
    P a b * P (a + 1) b
    + (P a b * P (a - 1) b
       + (P a b * P a (b + 1) + P a b * P a (b - 1)))))
    by (intros; unfold bond_terms; ring).
  rewrite (sum_box_ext w h
    (fun a b => P a b * (P (a + 1) b + P a (b + 1)))
    (fun a b => P a b * P (a + 1) b + P a b * P a (b + 1)))
    by (intros; ring).
  rewrite !sum_box_add, Hleft, Hup. ring.
Qed.

(** X11: [calcEnergy] returns twice the sum, over the cells, of the spin times
    its right and its lower neighbour on the periodic lattice: every bond
    between neighbouring cells enters the energy twice (the result is
    taken in [int64_t]). *)
Theorem calcEnergy_counts_bonds_twice (l : Lattice) :
  wf_lattice l ->
  calcEnergy l
  = Some (to_energy_t
      (2 * sum_cells l (fun a b =>
             spin_at l a b * (spin_at l (a + 1) b + spin_at l a (b + 1))))).
Proof.
  intros Hwf. pose proof Hwf as [Hw Hh _ _ _].
  rewrite calcEnergy_bond_terms by exact Hwf.
  unfold sum_cells. do 2 f_equal.
  apply bond_sum_twice; [exact Hw|exact Hh|].
  intros a b. apply spin_at_periodic.
Qed.

Lemma calcEnergy_counts_bonds_twice_witness :
  calcEnergy lattice_2x3
  = Some (to_energy_t
      (2 * sum_cells lattice_2x3 (fun a b =>
             spin_at lattice_2x3 a b
             * (spin_at lattice_2x3 (a + 1) b
                + spin_at lattice_2x3 a (b + 1))))).
Proof.
  exact (calcEnergy_counts_bonds_twice lattice_2x3 wf_lattice_2x3).
Defined.

(** X12: The energy of a lattice of +1 and -1 spins lies between -4N and 4N
    for N cells and is a multiple of 4 (as long as 4N fits the energy
    type). *)
Theorem calcEnergy_range (l : Lattice) :
  spin_lattice l -> 4 * (width l * height l) <= INT64_MAX ->
  exists e, calcEnergy l = Some e /\
    - (4 * (width l * height l)) <= e <= 4 * (width l * height l) /\
    e mod 4 = 0.
Proof.
  intros Hl Hmax. pose proof Hl as [[Hw Hh _ _ _] _].
  exists (sum_cells l (bond_terms (spin_at l))).
  split; [now apply calcEnergy_exact|]. split; [now apply energy_sum_bound|].
  unfold sum_cells.
  rewrite bond_sum_twice by (try apply spin_at_periodic; assumption).
  set (B := sum_box _ _ _).
  assert (HB : B mod 2 = 0).
  { apply sum_box_even. intros a b _ _.
    destruct (spin_at_spin l a b Hl) as [->| ->],
      (spin_at_spin l (a + 1) b Hl) as [->| ->],
      (spin_at_spin l a (b + 1) Hl) as [->| ->]; reflexivity. }
  pose proof (Z.div_mod B 2 ltac:(lia)) as HBd.
  replace (2 * B) with (B / 2 * 4) by lia. apply Z_mod_mult.
Qed.

Lemma calcEnergy_range_witness :
  exists e, calcEnergy lattice_5x5 = Some e /\ - 100 <= e <= 100 /\
    e mod 4 = 0.
Proof.
  apply (calcEnergy_range lattice_5x5).
  - split; [exact wf_lattice_5x5|solve_spins].
  - apply Z.leb_le. reflexivity.
Defined.

(** X13: Flipping the spin [s] of one cell changes the energy by
    [- 4 * s * (sum of the four neighbours)] (lattices of +1 and -1 spins
    with at least two rows and two columns, 4N within the energy type):
    the change depends on the cell and its neighbours only. *)
Theorem flip_energy_change (l : Lattice) (x y : Z) :
  spin_lattice l -> 2 <= width l -> 2 <= height l ->
  0 <= x < width l -> 0 <= y < height l ->
  4 * (width l * height l) <= INT64_MAX ->
  exists l' e s n1 n2 n3 n4,
    flip l x y = Some l' /\ calcEnergy l = Some e /\
    get l x y = Some s /\
    get l (to_size_t (x + 1)) y = Some n1 /\
    get l (to_size_t (x - 1)) y = Some n2 /\
    get l x (to_size_t (y + 1)) = Some n3 /\
    get l x (to_size_t (y - 1)) = Some n4 /\
    calcEnergy l' = Some (e - 4 * s * (n1 + n2 + n3 + n4)).
Proof.
  intros Hl Hw Hh Hx Hy Hmax. pose proof Hl as [Hwf _].
  pose proof (wf_dims l Hwf) as [Hwd Hhd].
  destruct (flip_wf l Hwf x y) as (s0 & _ & Hflip).
  destruct (spin_lattice_flip _ _ _ _ Hl Hflip) as [Hl' _].
  destruct (flip_preserves _ _ _ _ Hwf Hflip) as (_ & Hw' & Hh').
  eexists _, _, (spin_at l x y), (spin_at l (x + 1) y),
    (spin_at l (x - 1) y), (spin_at l x (y + 1)), (spin_at l x (y - 1)).
  split; [exact Hflip|]. split; [now apply calcEnergy_exact|].
  repeat split;
    try (apply get_spin_at;
         first [exact Hwf | apply reduce_mod; lia | apply reduce_mod_in; lia]).
  rewrite calcEnergy_exact by (rewrite ?Hw', ?Hh'; assumption).
  rewrite (energy_after_flip l _ x y Hl Hw Hh Hx Hy Hflip).
  reflexivity.
Qed.

Lemma flip_energy_change_witness :
  exists l' e,
    flip lattice_5x5 0 0 = Some l' /\ calcEnergy lattice_5x5 = Some e /\
    calcEnergy l' = Some (e - 4 * 1 * (-1 + -1 + -1 + -1)).
Proof.
  destruct (flip_energy_change lattice_5x5 0 0)
    as (l' & e & s & n1 & n2 & n3 & n4 & Hflip & He & Hs & H1 & H2 & H3 & H4
        & He');
    [split; [exact wf_lattice_5x5|solve_spins]
    |cbn; lia|cbn; lia|cbn; lia|cbn; lia|apply Z.leb_le; reflexivity|].
  exists l', e. split; [exact Hflip|]. split; [exact He|].
  injection Hs as <-. injection H1 as <-. injection H2 as <-.
  injection H3 as <-. injection H4 as <-. exact He'.
Defined.

(** *** The candidate weights of a ground state *)

Lemma spin_at_constant (l : Lattice) (s a b : Z) :
  wf_lattice l -> Forall (eq s) (data l) -> spin_at l a b = s.
Proof.
  intros [Hw Hh _ Hlen _] Hall. unfold spin_at.
  pose proof (Z.mod_pos_bound a (width l) Hw) as Ha.
  pose proof (Z.mod_pos_bound b (height l) Hh) as Hb.
  destruct (lookup_lt_is_Some_2 (data l)
              (Z.to_nat (a mod width l * height l + b mod height l)))
    as [v Hv]; [nia|].
  rewrite Hv. rewrite Forall_lookup in Hall. symmetry. exact (Hall _ _ Hv).
Qed.

Section GroundStateWeights.

Variable c_exp : weight_t -> weight_t.

Lemma flip_weight_ground_state (l : Lattice) (s : Z) (beta : weight_t)
    (x y : Z) :
  wf_lattice l -> is_spin s -> Forall (eq s) (data l) ->
  2 <= width l -> 2 <= height l ->
  4 * (width l * height l) <= INT64_MAX ->
  0 <= x < width l -> 0 <= y < height l ->
  flip_weight c_exp l beta x y
  = Some (c_exp (- beta
                 * double_of_Z (4 * (width l * height l) - 16))%float).
Proof.
  intros Hwf Hs Hall Hw Hh Hmax Hx Hy.
  assert (Hl : spin_lattice l).
  { split; [exact Hwf|]. eapply Forall_impl; [exact Hall|].
    now intros v <-. }
  destruct (flip_wf l Hwf x y) as (s0 & _ & Hflip).
  destruct (spin_lattice_flip _ _ _ _ Hl Hflip) as [Hl' _].
  destruct (flip_preserves _ _ _ _ Hwf Hflip) as (_ & Hw' & Hh').
  unfold flip_weight. rewrite Hflip. cbn. unfold calcWeight.
  rewrite calcEnergy_exact by (rewrite ?Hw', ?Hh'; assumption).
  rewrite (energy_after_flip l _ x y Hl Hw Hh Hx Hy Hflip).
  pose proof (calcEnergy_exact l Hl Hmax) as He.
  rewrite (calcEnergy_uniform l s Hwf) in He
    by (try assumption; destruct Hs as [->| ->]; reflexivity).
  rewrite to_energy_t_small in He by (unfold INT64_MAX in *; lia).
  injection He as <-.
  unfold neighbour_sum. rewrite !(spin_at_constant l s) by assumption.
  cbn. do 4 f_equal.
  destruct Hs as [->| ->]; unfold SPIN_UP, SPIN_DOWN; lia.
Qed.

(** X14: From a ground state every single-spin flip has the same weight,
    [exp (- beta * (4N - 16))] for N cells: the sampler's candidate
    distribution is uniform over the cells. *)
Theorem ground_state_uniform_weights (l : Lattice) (s : Z)
    (beta : weight_t) :
  wf_lattice l -> is_spin s -> Forall (eq s) (data l) ->
  2 <= width l -> 2 <= height l ->
  4 * (width l * height l) <= INT64_MAX ->
  let w0 :=
    c_exp (- beta * double_of_Z (4 * (width l * height l) - 16))%float in
  candidate_weights c_exp l beta = replicate (cell_count l) w0 /\
  normalized_weights c_exp l beta
  = replicate (cell_count l) (w0 / total_weight c_exp l beta)%float.
Proof.
  intros Hwf Hs Hall Hw Hh Hmax w0.
  assert (Hcw : candidate_weights c_exp l beta
                = replicate (cell_count l) w0).
  { apply list_eq. intros i.
    destruct (decide (i < cell_count l)%nat) as [Hi|Hi].
    - rewrite lookup_replicate_2 by exact Hi.
      unfold cell_count in Hi.
      pose proof (Z.div_mod (Z.of_nat i) (height l) ltac:(lia)) as Hdm.
      pose proof (Z.mod_pos_bound (Z.of_nat i) (height l) ltac:(lia)) as Hm.
      assert (Hd : 0 <= Z.of_nat i / height l < width l).
      { split; [apply Z.div_pos; lia|].
        apply Z.div_lt_upper_bound; lia. }
      rewrite <- (Nat2Z.id i), Hdm,
        (Z.mul_comm (height l) (Z.of_nat i / height l)).
      apply lookup_candidate_weights; [exact Hd|exact Hm|].
      now apply (flip_weight_ground_state l s).
    - rewrite !lookup_ge_None_2;
        rewrite ?length_replicate, ?length_candidate_weights; [easy|lia|lia]. }
  split; [exact Hcw|].
  unfold normalized_weights. rewrite Hcw, fmap_replicate. reflexivity.
Qed.

End GroundStateWeights.

Lemma ground_state_uniform_weights_witness :
  candidate_weights exp_approx lattice_3x3 1%float
  = replicate 9 (exp_approx (- 1 * double_of_Z (4 * (3 * 3) - 16))%float).
Proof.
  destruct (ground_state_uniform_weights exp_approx lattice_3x3 1 1%float)
    as [Hcw _].
  - solve_wf_lattice.
  - now left.
  - cbn. repeat (apply Forall_cons_2; [reflexivity|]). apply Forall_nil_2.
  - cbn. lia.
  - cbn. lia.
  - apply Z.leb_le. reflexivity.
  - exact Hcw.
Defined.

(** ** What the rendering keeps of the lattice *)

Lemma rows_lookup (l : Lattice) (x : Z) :
  0 <= x < width l ->
  ((fun x => cell_char l x <$> seqZ 0 (height l)) <$> seqZ 0 (width l))
    !! Z.to_nat x
  = Some (cell_char l x <$> seqZ 0 (height l)).
Proof.
  intros Hx. rewrite list_lookup_fmap, lookup_seqZ_lt by lia. cbn.
  now rewrite Z.add_0_l, Z2Nat.id by lia.
Qed.

Lemma row_lookup (l : Lattice) (x y : Z) :
  0 <= y < height l ->
  (cell_char l x <$> seqZ 0 (height l)) !! Z.to_nat y
  = Some (cell_char l x y).
Proof.
  intros Hy. rewrite list_lookup_fmap, lookup_seqZ_lt by lia. cbn.
  now rewrite Z.add_0_l, Z2Nat.id by lia.
Qed.

Lemma rows_no_newline (l : Lattice) :
  Forall (Forall (fun c => c <> newline))
    ((fun x => cell_char l x <$> seqZ 0 (height l)) <$> seqZ 0 (width l)).
Proof.
  apply Forall_fmap, Forall_true. intros x. cbn.
  apply Forall_fmap, Forall_true. intros y. apply cell_char_no_newline.
Qed.

Lemma cell_char_spin (l1 l2 : Lattice) (x y : Z) :
  spin_lattice l1 -> spin_lattice l2 ->
  cell_char l1 x y = cell_char l2 x y -> get l1 x y = get l2 x y.
Proof.
  intros Hl1 Hl2. unfold cell_char.
  destruct (spin_lattice_get l1 x y Hl1) as (s1 & -> & Hs1).
  destruct (spin_lattice_get l2 x y Hl2) as (s2 & -> & Hs2).
  destruct Hs1 as [->| ->], Hs2 as [->| ->]; cbn;
    first [reflexivity | discriminate].
Qed.

(** X15: The rendering loses nothing of a lattice of +1 and -1 spins: two such
    lattices that [printLattice] renders alike are the same lattice,
    dimensions included. *)
Theorem printLattice_injective (l1 l2 : Lattice) (file : list ascii) :
  spin_lattice l1 -> spin_lattice l2 ->
  printLattice l1 file = printLattice l2 file -> l1 = l2.
Proof.
  intros Hl1 Hl2 Hprint.
  pose proof Hl1 as [Hwf1 _]. pose proof Hl2 as [Hwf2 _].
  pose proof Hwf1 as [Hw1 Hh1 _ Hlen1 _].
  pose proof Hwf2 as [Hw2 Hh2 _ Hlen2 _].
  rewrite !printLattice_wf in Hprint by assumption.
  injection Hprint as Hrows. apply app_inv_head in Hrows.
  apply (f_equal lines) in Hrows.
  rewrite !lines_unlines in Hrows by apply rows_no_newline.
  assert (Hw : width l1 = width l2).
  { apply (f_equal length) in Hrows.
    rewrite !length_fmap, !length_seqZ in Hrows. lia. }
  assert (Hrow : forall x, 0 <= x < width l1 ->
            cell_char l1 x <$> seqZ 0 (height l1)
            = cell_char l2 x <$> seqZ 0 (height l2)).
  { intros x Hx. apply (f_equal (fun rows => rows !! Z.to_nat x)) in Hrows.
    rewrite !rows_lookup in Hrows by lia. now injection Hrows. }
  assert (Hh : height l1 = height l2).
  { specialize (Hrow 0 ltac:(lia)). apply (f_equal length) in Hrow.
    rewrite !length_fmap, !length_seqZ in Hrow. lia. }
  assert (Hget : forall x y, 0 <= x < width l1 -> 0 <= y < height l1 ->
            get l1 x y = get l2 x y).
  { intros x y Hx Hy. apply cell_char_spin; [assumption|assumption|].
    specialize (Hrow x Hx).
    apply (f_equal (fun row => row !! Z.to_nat y)) in Hrow.
    rewrite !row_lookup in Hrow by lia. now injection Hrow. }
  assert (Hdata : data l1 = data l2).
  { apply list_eq. intros i.
    destruct (decide (Z.of_nat i < width l1 * height l1)) as [Hi|Hi].
    - pose proof (Z.div_mod (Z.of_nat i) (height l1) ltac:(lia)) as Hdm.
      pose proof (Z.mod_pos_bound (Z.of_nat i) (height l1) Hh1) as Hm.
      assert (Hd : 0 <= Z.of_nat i / height l1 < width l1).
      { split; [apply Z.div_pos; lia|].
        apply Z.div_lt_upper_bound; lia. }
      specialize (Hget _ _ Hd Hm).
      rewrite (get_wf l1 Hwf1), (get_wf l2 Hwf2) in Hget.
      rewrite (cell_index_in_range l1 Hwf1),
        (cell_index_in_range l2 Hwf2) in Hget by lia.
      rewrite <- Hh, (Z.mul_comm _ (height l1)), <- Hdm, Nat2Z.id in Hget.
      exact Hget.
    - rewrite !lookup_ge_None_2; [reflexivity|lia|lia]. }
  destruct l1, l2. cbn in Hw, Hh, Hdata. now subst.
Qed.

Lemma printLattice_injective_witness :
  mkLattice 2 3 (replicate 6 (-1)) = lattice_2x3.
Proof.
  apply (printLattice_injective _ _ []).
  - split; [solve_wf_lattice|solve_spins].
  - split; [exact wf_lattice_2x3|solve_spins].
  - reflexivity.
Defined.

(** X16: A freshly allocated lattice, whose cells are all 0, is rendered like
    the all-down ground state: any value but +1 is written as '-'. *)
Theorem printLattice_zeroed_as_down (w h : Z) (file : list ascii) :
  0 < w -> 0 < h -> w * h <= PTRDIFF_MAX ->
  exists l',
    fillGroundState (allocateLattice w h) SPIN_DOWN = Some l' /\
    l' <> allocateLattice w h /\
    printLattice (allocateLattice w h) file = printLattice l' file.
Proof.
  intros Hw Hh Hsz.
  destruct (allocateLattice_wf w h Hw Hh Hsz) as [Hwf Hzero].
  destruct (fillGroundState_wf _ SPIN_DOWN Hwf)
    as (l' & Hfill & Hwf' & Hw' & Hh' & Hdata).
  exists l'. split; [exact Hfill|]. split.
  - intros Heq. rewrite Heq, Hzero in Hdata.
    unfold cell_count in Hdata. cbn [width height allocateLattice] in Hdata.
    destruct (Z.to_nat (w * h)) as [|n] eqn:Hn; [lia|]. discriminate.
  - rewrite !printLattice_wf by assumption. rewrite Hw', Hh'.
    do 3 f_equal. apply list_fmap_ext. intros _ x _.
    apply list_fmap_ext. intros _ y _. unfold cell_char.
    destruct (get_total _ Hwf x y) as (s & Hs & _).
    destruct (get_total _ Hwf' x y) as (s' & Hs' & _).
    rewrite Hs, Hs'. rewrite get_wf in Hs, Hs' by assumption.
    rewrite Hzero in Hs. apply lookup_replicate_1 in Hs as [-> _].
    rewrite Hdata in Hs'. apply lookup_replicate_1 in Hs' as [-> _].
    reflexivity.
Qed.

Lemma printLattice_zeroed_as_down_witness :
  exists l',
    fillGroundState (allocateLattice 5 5) SPIN_DOWN = Some l' /\
    printLattice (allocateLattice 5 5) [] = printLattice l' [].
Proof.
  destruct (printLattice_zeroed_as_down 5 5 [])
    as (l' & Hfill & _ & Hprint); [lia|lia|unfold PTRDIFF_MAX; lia|].
  exists l'. split; [exact Hfill|exact Hprint].
Defined.

(** ** Weights that vanish *)

Lemma ltb_nan (r : float) : (r <? nan)%float = false.
Proof.
  rewrite ltb_spec. change (Prim2SF nan) with S754_nan.
  unfold SFltb. now destruct (Prim2SF r).
Qed.

Lemma foldl_add_zero (n : nat) :
  foldl PrimFloat.add 0%float (replicate n 0%float) = 0%float.
Proof. induction n as [|n IH]; [reflexivity|exact IH]. Qed.

Lemma foldl_add_nan (n : nat) :
  foldl PrimFloat.add nan (replicate n nan) = nan.
Proof. induction n as [|n IH]; [reflexivity|exact IH]. Qed.

Lemma never_exceeds_nan (r : weight_t) (n k : nat) :
  (k < n)%nat -> ~ exceeds r (replicate n nan) k.
Proof.
  intros Hk. unfold exceeds, cumulative.
  rewrite take_replicate, Nat.min_l by lia.
  change (foldl PrimFloat.add 0%float (replicate (Datatypes.S k) nan))
    with (foldl PrimFloat.add nan (replicate k nan)).
  rewrite foldl_add_nan, ltb_nan. discriminate.
Qed.

Section VanishingWeights.

Variable c_exp : weight_t -> weight_t.
Variable RAND_MAX : Z.
Variable rand_seq : nat -> Z.

Lemma normalized_weights_vanish (l : Lattice) (beta : weight_t) :
  Forall (eq 0%float) (candidate_weights c_exp l beta) ->
  normalized_weights c_exp l beta = replicate (cell_count l) nan.
Proof.
  intros Hzero.
  assert (Hcw : candidate_weights c_exp l beta
                = replicate (cell_count l) 0%float).
  { symmetry. apply replicate_as_Forall.
    split; [apply length_candidate_weights|exact Hzero]. }
  unfold normalized_weights, total_weight.
  now rewrite Hcw, foldl_add_zero, fmap_replicate.
Qed.

Lemma tryFlipOneSpin_vanish (l : Lattice) (beta : weight_t)
    (buffer : list weight_t) (calls : nat) :
  wf_lattice l -> length buffer = cell_count l ->
  Forall (eq 0%float) (candidate_weights c_exp l beta) ->
  tryFlipOneSpin c_exp RAND_MAX rand_seq l beta buffer calls
  = Some (l, replicate (cell_count l) nan, Datatypes.S calls).
Proof.
  intros Hwf Hlen Hzero.
  rewrite (tryFlipOneSpin_select c_exp RAND_MAX rand_seq l beta buffer calls
             Hwf Hlen).
  rewrite (normalized_weights_vanish l beta Hzero).
  destruct (select_loop l (replicate (cell_count l) nan)
              (uniformRandom RAND_MAX rand_seq calls).1 Hwf
              (length_replicate _ _)) as (o & Hloop & Ho).
  rewrite Hloop. destruct o as [sum|l']; [reflexivity|].
  destruct Ho as (x & y & Hx & Hy & Hex & _).
  apply never_exceeds_nan in Hex; [contradiction|].
  unfold cell_count. nia.
Qed.

(** X17: When every candidate weight is zero (the exponential underflows, as
    for a large [beta]), the total weight is zero and the normalized
    weights are 0/0: no cumulative sum exceeds the draw, the sampler step
    flips nothing, and the thermalization loop returns the lattice it was
    given after max(1, patience) steps. *)
Theorem sampler_stuck_when_weights_vanish (fuel : nat) (l : Lattice)
    (beta : weight_t) (buffer : list weight_t) (max_hits : Z)
    (calls : nat) :
  wf_lattice l -> length buffer = cell_count l ->
  Forall (eq 0%float) (candidate_weights c_exp l beta) ->
  0 <= max_hits < SIZE_MODULUS ->
  (Z.to_nat (Z.max 1 max_hits) <= fuel)%nat ->
  normalized_weights c_exp l beta = replicate (cell_count l) nan /\
  tryFlipOneSpin c_exp RAND_MAX rand_seq l beta buffer calls
    = Some (l, replicate (cell_count l) nan, Datatypes.S calls) /\
  evolveIntoThermalState c_exp RAND_MAX rand_seq fuel l beta max_hits calls
    = Some (l, (calls + Z.to_nat (Z.max 1 max_hits))%nat).
Proof.
  intros Hwf Hlen Hzero Hmax Hfuel. pose proof Hwf as [Hw Hh Hsz _ _].
  split; [now apply normalized_weights_vanish|].
  split; [now apply tryFlipOneSpin_vanish|].
  destruct (calcEnergy_total l Hwf) as (e & He).
  unfold evolveIntoThermalState. rewrite He.
  rewrite (evolve_loop_fixed c_exp RAND_MAX rand_seq beta max_hits l e
             (fun buffer => length buffer = cell_count l));
    rewrite ?Z.sub_0_r; try lia; try assumption.
  - reflexivity.
  - intros buffer0 calls0 Hlen0. eexists. split.
    + now apply tryFlipOneSpin_vanish.
    + apply length_replicate.
  - rewrite length_replicate, to_size_t_small; [reflexivity|].
    unfold SIZE_MODULUS, PTRDIFF_MAX in *. nia.
Qed.

End VanishingWeights.

Lemma vanishing_weights_6x6 :
  candidate_weights exp_approx (mkLattice 6 6 (replicate 36 1)) 8
  = replicate 36 0%float.
Proof. vm_compute. reflexivity. Qed.

Lemma sampler_stuck_when_weights_vanish_witness :
  evolveIntoThermalState exp_approx GLIBC_RAND_MAX example_rand_seq 3
    (mkLattice 6 6 (replicate 36 1)) 8 3 0
  = Some (mkLattice 6 6 (replicate 36 1), 3%nat).
Proof.
  apply (sampler_stuck_when_weights_vanish exp_approx GLIBC_RAND_MAX
           example_rand_seq 3 (mkLattice 6 6 (replicate 36 1)) 8
           (replicate 36 0%float) 3 0).
  - solve_wf_lattice.
  - reflexivity.
  - rewrite vanishing_weights_6x6. apply Forall_replicate. reflexivity.
  - unfold SIZE_MODULUS. lia.
  - apply Nat.leb_le. reflexivity.
Defined.

(** ** A buffer that is too short *)

Lemma for_loop_fails {S : Type} (P : Z -> S -> Prop)
    (body : Z -> S -> option S) (k : Z) (n : nat) :
  forall (i0 : Z) (s : S),
  i0 <= k < i0 + Z.of_nat n -> P i0 s ->
  (forall i s, i0 <= i < k -> P i s ->
     exists s', body i s = Some s' /\ P (i + 1) s') ->
  (forall s, P k s -> body k s = None) ->
  for_loop n i0 body s = None.
Proof.
  induction n as [|n IH]; intros i0 s Hk H0 Hstep Hfail; [lia|].
  cbn [for_loop]. destruct (Z.eq_dec i0 k) as [->|Hne].
  - now rewrite Hfail.
  - destruct (Hstep i0 s) as (s' & -> & H1); [lia|exact H0|].
    apply IH; [lia|exact H1| |exact Hfail].
    intros i t Hi. apply Hstep. lia.
Qed.

Lemma nested_loop_fails {S : Type} (P : Z -> S -> Prop)
    (body : Z -> Z -> S -> option S) (w h k : Z) (s : S) :
  0 < h -> 0 <= k < w * h -> P 0 s ->
  (forall x y s, 0 <= x < w -> 0 <= y < h -> x * h + y < k ->
     P (x * h + y) s ->
     exists s', body x y s = Some s' /\ P (x * h + y + 1) s') ->
  (forall x y s, 0 <= x < w -> 0 <= y < h -> x * h + y = k ->
     P k s -> body x y s = None) ->
  for_loop (Z.to_nat w) 0 (fun x s =>
    for_loop (Z.to_nat h) 0 (fun y s => body x y s) s) s = None.
Proof.
  intros Hh Hk H0 Hstep Hfail.
  pose proof (Z.div_mod k h ltac:(lia)) as Hdm.
  pose proof (Z.mod_pos_bound k h Hh) as Hm.
  assert (Hd : 0 <= k / h < w).
  { split; [apply Z.div_pos; lia|]. apply Z.div_lt_upper_bound; lia. }
  apply (for_loop_fails (fun x s => P (x * h) s) _ (k / h)).
  - lia.
  - exact H0.
  - intros x t Hx Hinv.
    destruct (for_loop_inv (fun y s => P (x * h + y) s)
                (fun y s => body x y s) (Z.to_nat h) 0 t)
      as (t' & Hloop & Hend).
    + now rewrite Z.add_0_r.
    + intros y u Hy Hu. rewrite Z.add_assoc.
      apply Hstep; [lia|lia|nia|exact Hu].
    + exists t'. split; [exact Hloop|].
      rewrite Z.add_0_l, Z2Nat.id in Hend by lia.
      now replace ((x + 1) * h) with (x * h + h) by lia.
  - intros t Hinv.
    apply (for_loop_fails (fun y s => P (k / h * h + y) s) _ (k mod h)).
    + lia.
    + now rewrite Z.add_0_r.
    + intros y u Hy Hu. rewrite Z.add_assoc.
      apply Hstep; [lia|lia|lia|exact Hu].
    + intros u Hu. apply Hfail; [lia|lia|lia|].
      now replace k with (k / h * h + k mod h) at 1 by lia.
Qed.

Section ShortBuffer.

Variable c_exp : weight_t -> weight_t.
Variable RAND_MAX : Z.
Variable rand_seq : nat -> Z.

(** X18: [tryFlipOneSpin] writes one weight per cell: handed a buffer with
    fewer entries than the lattice has cells, it writes past the end of
    the buffer (undefined behaviour). *)
Theorem tryFlipOneSpin_short_buffer (l : Lattice) (beta : weight_t)
    (buffer : list weight_t) (calls : nat) :
  wf_lattice l -> (length buffer < cell_count l)%nat ->
  tryFlipOneSpin c_exp RAND_MAX rand_seq l beta buffer calls = None.
Proof.
  intros Hwf Hshort. pose proof Hwf as [Hw Hh _ _ _].
  unfold cell_count in Hshort. unfold tryFlipOneSpin.
  rewrite (nested_loop_fails
    (fun _ (st : Lattice * list weight_t) =>
       st.1 = l /\ length st.2 = length buffer)
    (fun x y '(l, buffer) =>
      l <- flip l x y ;;
      weight <- calcWeight c_exp l beta ;;
      i <- getIndex l x y ;;
      buffer <- store buffer i weight ;;
      l <- flip l x y ;;
      Some (l, buffer))
    (width l) (height l) (Z.of_nat (length buffer)));
    [reflexivity|exact Hh|lia|now split| |].
  - intros x y [l0 buf] Hx Hy Hlt [Hl0 Hbuf]. cbn in Hl0, Hbuf. subst l0.
    destruct (flip_weight_total c_exp l beta x y Hwf)
      as (l1 & w & Hf1 & Hw1 & _).
    destruct (flip_preserves _ _ _ _ Hwf Hf1) as (Hwf1 & Hw1' & Hh1').
    destruct (flip_wf l1 Hwf1 x y) as (s1 & _ & Hf2).
    pose proof (flip_flip _ _ _ _ _ Hwf Hf1 Hf2) as Hback.
    rewrite Hf1, Hw1, (getIndex_in_range l1 Hwf1 x y) by lia.
    rewrite store_in_range by lia.
    rewrite Hf2, Hback. eexists. split; [reflexivity|]. cbn.
    split; [reflexivity|now rewrite length_insert].
  - intros x y [l0 buf] Hx Hy Heq [Hl0 Hbuf]. cbn in Hl0, Hbuf. subst l0.
    destruct (flip_weight_total c_exp l beta x y Hwf)
      as (l1 & w & Hf1 & Hw1 & _).
    destruct (flip_preserves _ _ _ _ Hwf Hf1) as (Hwf1 & Hw1' & Hh1').
    rewrite Hf1, Hw1, (getIndex_in_range l1 Hwf1 x y) by lia.
    unfold store. rewrite Hh1', Heq, Hbuf, Z.ltb_irrefl. reflexivity.
Qed.

End ShortBuffer.

Lemma tryFlipOneSpin_short_buffer_witness :
  tryFlipOneSpin exp_approx GLIBC_RAND_MAX example_rand_seq lattice_3x3
    1%float (replicate 8 0%float) 0 = None.
Proof.
  apply (tryFlipOneSpin_short_buffer exp_approx GLIBC_RAND_MAX
           example_rand_seq lattice_3x3 1%float (replicate 8 0%float) 0).
  - solve_wf_lattice.
  - apply Nat.ltb_lt. reflexivity.
Defined.

(** ** The program *)

Section ProgramTheory.

Variable c_exp : weight_t -> weight_t.
Variable RAND_MAX : Z.
Variable rand_seq : nat -> Z.

Lemma sampler_steps_dims (beta : weight_t) (calls : nat)
    (lats : list Lattice) :
  sampler_steps c_exp RAND_MAX rand_seq beta calls lats ->
  forall l lats', lats = l :: lats' -> wf_lattice l ->
    Forall (fun l' => width l' = width l /\ height l' = height l) lats'.
Proof.
  induction 1 as [calls l0|calls l0 l1 lats buffer buffer' Hlen Hstep _ IH];
    intros l lats' Heq Hwf; injection Heq as <- <-.
  - constructor.
  - destruct (tryFlipOneSpin_cases c_exp RAND_MAX rand_seq l0 beta buffer
                calls Hwf Hlen) as (l2 & Heq & Hcases).
    rewrite Heq in Hstep. injection Hstep as <-.
    assert (Hdims : wf_lattice l2 /\ width l2 = width l0
                    /\ height l2 = height l0).
    { destruct Hcases as [->|(x & y & Hflip)];
        [split; [exact Hwf|now split]|].
      exact (flip_preserves _ _ _ _ Hwf Hflip). }
    destruct Hdims as (Hwf2 & Hw2 & Hh2).
    constructor; [now split|].
    rewrite <- Hw2, <- Hh2. now apply (IH l2 lats).
Qed.

(** The thermalization loop returns a lattice of +1 and -1 spins with the
    dimensions it was given. *)
Lemma evolve_preserves (fuel : nat) (l l' : Lattice) (beta : weight_t)
    (max_hits : Z) (calls calls' : nat) :
  spin_lattice l -> 0 <= max_hits < SIZE_MODULUS ->
  evolveIntoThermalState c_exp RAND_MAX rand_seq fuel l beta max_hits calls
    = Some (l', calls') ->
  spin_lattice l' /\ width l' = width l /\ height l' = height l.
Proof.
  intros Hl Hmax Hrun. pose proof Hl as [Hwf _].
  destruct (evolve_trace c_exp RAND_MAX rand_seq fuel l beta max_hits calls
              l' calls' Hwf Hmax Hrun)
    as (lats & es & e0 & Hsteps & Hlast & _).
  apply last_Some_elem_of in Hlast.
  pose proof (sampler_steps_spin c_exp RAND_MAX rand_seq beta calls _ Hsteps
                l lats eq_refl Hl) as Hspins.
  pose proof (sampler_steps_dims beta calls _ Hsteps l lats eq_refl Hwf)
    as Hdims.
  rewrite Forall_forall in Hspins, Hdims.
  split; [now apply Hspins|now apply Hdims].
Qed.

Lemma unlines_app (rows1 rows2 : list (list ascii)) :
  unlines (rows1 ++ rows2) = unlines rows1 ++ unlines rows2.
Proof. unfold unlines. apply bind_app. Qed.

Lemma print_line_unlines (text : string) (rows : list (list ascii)) :
  print_line text (unlines rows)
  = unlines (rows ++ [list_ascii_of_string text]).
Proof.
  unfold print_line, fputc. rewrite unlines_snoc. now rewrite <- app_assoc.
Qed.

(** X19: What the program prints: the ground state as five lines of five '-',
    its energy 100, and, when the thermalization loop returns, the
    thermal state as five lines of five '+' or '-' and its energy in
    decimal, between -100 and 100; the exit status is 0. *)
Theorem main_output (fuel : nat) (l' : Lattice) (calls' : nat) :
  evolveIntoThermalState c_exp RAND_MAX rand_seq fuel
    (mkLattice 5 5 (replicate 25 (-1))) 1 3 0 = Some (l', calls') ->
  exists rows e,
    main c_exp RAND_MAX rand_seq fuel
    = Some (0, unlines
        ([list_ascii_of_string "Lattice at the ground state:"]
         ++ replicate 5 (replicate 5 "-"%char)
         ++ [list_ascii_of_string "Energy: 100";
             list_ascii_of_string "Lattice at the thermal state:"]
         ++ rows
         ++ [list_ascii_of_string (String.append "Energy: " (lld e))])) /\
    length rows = 5%nat /\
    Forall (fun row =>
      length row = 5%nat /\
      Forall (fun c => c = "+"%char \/ c = "-"%char) row) rows /\
    calcEnergy l' = Some e /\ - 100 <= e <= 100.
Proof.
  assert (Hl0 : spin_lattice (mkLattice 5 5 (replicate 25 (-1))))
    by (split; [solve_wf_lattice|solve_spins]).
  intros Hrun.
  destruct (evolve_preserves fuel _ l' 1 3 0 calls' Hl0
              ltac:(unfold SIZE_MODULUS; lia) Hrun) as (Hl' & Hw' & Hh').
  cbn [width height] in Hw', Hh'. pose proof Hl' as [Hwf' _].
  pose proof (energy_sum_bound l' Hl') as Hbound.
  rewrite Hw', Hh' in Hbound.
  exists ((fun x => cell_char l' x <$> seqZ 0 (height l'))
            <$> seqZ 0 (width l')),
    (sum_cells l' (bond_terms (spin_at l'))).
  assert (He : calcEnergy l' = Some (sum_cells l' (bond_terms (spin_at l'))))
    by (apply calcEnergy_exact; [exact Hl'|];
        rewrite Hw', Hh'; apply Z.leb_le; reflexivity).
  split; [|split; [|split; [|split; [exact He|lia]]]].
  - assert (Hfill : fillGroundState (allocateLattice 5 5) SPIN_DOWN
                    = Some (mkLattice 5 5 (replicate 25 (-1))))
      by (vm_compute; reflexivity).
    assert (He0 : calcEnergy (mkLattice 5 5 (replicate 25 (-1))) = Some 100)
      by (vm_compute; reflexivity).
    assert (Hprint0 : forall file,
      printLattice (mkLattice 5 5 (replicate 25 (-1))) file
      = Some (file ++ unlines (replicate 5 (replicate 5 "-"%char)))).
    { intros file. rewrite (printLattice_wf _ _ (proj1 Hl0)).
      apply (f_equal (fun rows => Some (file ++ unlines rows))).
      vm_compute. reflexivity. }
    unfold main. rewrite Hfill, Hprint0, He0, Hrun.
    rewrite (printLattice_wf _ _ Hwf'), He.
    apply (f_equal (fun out => Some (0, out))).
    change (print_line "Lattice at the ground state:" [])
      with (unlines [list_ascii_of_string "Lattice at the ground state:"]).
    rewrite <- unlines_app, !print_line_unlines.
    rewrite <- unlines_app, print_line_unlines.
    apply (f_equal unlines). rewrite <- !app_assoc. reflexivity.
  - now rewrite length_fmap, length_seqZ, Hw'.
  - apply Forall_fmap, Forall_true. intros x. cbn. split.
    + now rewrite length_fmap, length_seqZ, Hh'.
    + apply Forall_fmap, Forall_true. intros y. cbn. unfold cell_char.
      destruct (get_total l' Hwf' x y) as (s & -> & _).
      destruct (s =? 1); [now left|now right].
Qed.

End ProgramTheory.

Lemma evolve_run_5x5 :
  evolveIntoThermalState exp_approx GLIBC_RAND_MAX example_rand_seq 20
    (mkLattice 5 5 (replicate 25 (-1))) 1 3 0
  = Some (mkLattice 5 5
            [1; -1; 1; -1; -1; -1; 1; -1; 1; 1; 1; -1; -1; 1; -1; -1; -1;
             1; -1; 1; -1; 1; -1; 1; -1], 13%nat).
Proof. vm_compute. reflexivity. Qed.

Lemma main_output_witness :
  exists rows e,
    main exp_approx GLIBC_RAND_MAX example_rand_seq 20
    = Some (0, unlines
        ([list_ascii_of_string "Lattice at the ground state:"]
         ++ replicate 5 (replicate 5 "-"%char)
         ++ [list_ascii_of_string "Energy: 100";
             list_ascii_of_string "Lattice at the thermal state:"]
         ++ rows
         ++ [list_ascii_of_string (String.append "Energy: " (lld e))])) /\
    length rows = 5%nat /\ - 100 <= e <= 100.
Proof.
  destruct (main_output exp_approx GLIBC_RAND_MAX example_rand_seq 20 _ _
              evolve_run_5x5) as (rows & e & Hmain & Hrows & _ & _ & He).
  exists rows, e. split; [exact Hmain|]. split; [exact Hrows|exact He].
Defined.
